(** * Elektron: offer-consumption policies, policy switching, cluster-wide
    capping and the RAPL daemon

    A shallow embedding of the Go sources, followed by the properties of
    their specification.

    - [Float64]            Go's [float64] (IEEE 754 binary64) and its conversions
    - [Rapl]               rapl-daemon: [capNode], [maxPower], [capZone],
                           [powercapEndpoint]
    - [Def], [Mesos]       tasks, offers, driver calls, filters
    - [BinPack]            schedulers/binpacksortedwatts.go and
                           schedulers/bpswClassMapWatts.go
    - [MaxGreedyMins]      schedulers/MaxGreedyMins.go
    - [Ranked]             schedulers/proactiveclusterwidecappingranked.go
    - [SchedPolicy]        schedulers/schedPolicy.go
    - [Invariant]          what the loops over an offer maintain
    - [Scenario]           the inputs of the scenarios of the specification

    A Go run-time panic (slice bounds, closing a closed channel, nil
    dereference) and [log.Fatal] are results of their own: every operation
    that can hit one returns a [Go.result]. *)

From Stdlib Require Import ZArith String Ascii List Bool Lia.
From Stdlib Require Import Decimal DecimalString DecimalPos.
From Stdlib Require Import Floats.SpecFloat.
From stdpp Require Import base option list strings gmap.

Open Scope string_scope.
Open Scope list_scope.
Open Scope Z_scope.

(* ===================================================================== *)
(** ** Go's float64 *)
(* ===================================================================== *)

(** [float64] is IEEE 754 binary64 with round-to-nearest-even, the format
    and rounding of [SpecFloat] at precision 53 and maximal exponent 1024.
    Every value the models build comes out of [of_Z] or of an operation, so
    it is in canonical form. *)
Module Float64.

Definition float64 : Type := spec_float.

Definition prec : Z := 53.
Definition emax : Z := 1024.

(** [float64(n)] for an integer [n]. *)
Definition of_Z (n : Z) : float64 := binary_normalize prec emax n 0 false.

Definition add : float64 -> float64 -> float64 := SFadd prec emax.
Definition sub : float64 -> float64 -> float64 := SFsub prec emax.
Definition mul : float64 -> float64 -> float64 := SFmul prec emax.
Definition div : float64 -> float64 -> float64 := SFdiv prec emax.

(** [x < y], [x <= y], [x > y], [x >= y]: false as soon as one side is NaN. *)
Definition ltb (x y : float64) : bool := SFltb x y.
Definition leb (x y : float64) : bool := SFleb x y.
Definition gtb (x y : float64) : bool := SFltb y x.
Definition geb (x y : float64) : bool := SFleb y x.
Definition eqb (x y : float64) : bool := SFeqb x y.

(** The literal [0.0] and the constant [0.5]. *)
Definition zero : float64 := S754_zero false.
Definition half : float64 := binary_normalize prec emax 1 (-1) false.

(** The integer part of a finite value, rounded down. *)
Definition floorZ (x : float64) : option Z :=
  match x with
  | S754_zero _ => Some 0
  | S754_finite s m e => Some (Z.shiftl (cond_Zopp s (Z.pos m)) e)
  | S754_infinity _ | S754_nan => None
  end.

Definition ceilZ (x : float64) : option Z := Z.opp <$> floorZ (SFopp x).

(** Rounded toward zero, as the conversions to integers do. *)
Definition truncZ (x : float64) : option Z :=
  match x with
  | S754_finite true _ _ => ceilZ x
  | _ => floorZ x
  end.

(** [math.Floor] and [math.Ceil]: zeros, infinities and NaN are returned
    as they are; a result of zero keeps the sign of the argument. *)
Definition Floor (x : float64) : float64 :=
  match x with
  | S754_finite s _ _ =>
      match floorZ x with
      | Some 0 => S754_zero s
      | Some n => of_Z n
      | None => x
      end
  | _ => x
  end.

Definition Ceil (x : float64) : float64 :=
  match x with
  | S754_finite s _ _ =>
      match ceilZ x with
      | Some 0 => S754_zero s
      | Some n => of_Z n
      | None => x
      end
  | _ => x
  end.

(** [int(x)] (64 bits). Where the value does not fit, Go leaves the
    result to the implementation; amd64's CVTTSD2SQ answers -2^63. *)
Definition to_int (x : float64) : Z :=
  match truncZ x with
  | Some n => if (- 2 ^ 63 <=? n) && (n <? 2 ^ 63) then n else - 2 ^ 63
  | None => - 2 ^ 63
  end.

(** [uint64(x)]: exact for 0 <= x < 2^64. Outside, implementation
    dependent; the amd64 compiler converts [x] below 2^63 through
    [int64], and [x - 2^63] with the top bit set otherwise. *)
Definition to_uint64 (x : float64) : Z :=
  let two63 := of_Z (2 ^ 63) in
  if ltb x two63 then to_int x mod 2 ^ 64
  else Z.lor (to_int (sub x two63) mod 2 ^ 64) (2 ^ 63).

(** Left-to-right accumulation [t += x] from [0.0]. *)
Definition sum (xs : list float64) : float64 := fold_left add xs zero.

End Float64.

Abbreviation float64 := Float64.float64.

(* ===================================================================== *)
(** ** Results of Go code that can panic or exit *)
(* ===================================================================== *)

Module Go.

Inductive failure : Type :=
| SliceBounds          (** slice bounds out of range *)
| IndexRange           (** index out of range *)
| CloseClosed          (** close of closed channel *)
| NilDeref             (** nil pointer dereference *)
| Fatal (msg : string) (** log.Fatal(err): the process exits *).

Inductive result (A : Type) : Type :=
| Ok (a : A)
| Fail (f : failure).
Arguments Ok {A} a.
Arguments Fail {A} f.

Definition bind {A B} (r : result A) (k : A -> result B) : result B :=
  match r with
  | Ok a => k a
  | Fail f => Fail f
  end.

(** [%d] *)
Definition itoa (n : Z) : string := NilZero.string_of_int (Z.to_int n).

End Go.

Notation "x <-! r ; k" := (Go.bind r (fun x => k))
(at level 100, r at next level, right associativity).

(* ===================================================================== *)
(** ** rapl-daemon *)
(* ===================================================================== *)

Module Rapl.

Definition raplPrefixCPU : string := "intel-rapl".
Definition maxPowerFileLongWindow : string := "constraint_0_max_power_uw".
Definition powerLimitFileLongWindow : string := "constraint_0_power_limit_uw".
Definition powercapDir : string := "/sys/class/powercap/".

(** The part of the file system the daemon touches: the entries of each
    directory (sorted by name, as [ioutil.ReadDir] returns them) and the
    contents of each file. *)
Record FS : Type := mkFS {
  dirs : gmap string (list string);
  files : gmap string string
}.

Inductive error : Type :=
| ErrPercentage (percentage : Z) (** cap percentage must be between (0, 100] *)
| ErrNotExist (path : string)
| ErrSyntax (s : string)         (** strconv: invalid syntax *)
| ErrRange (s : string)          (** strconv: value out of range *).

(** [strings.Split(s, ":")] *)
Fixpoint Split (s : string) : list string :=
  match s with
  | EmptyString => [EmptyString]
  | String c r =>
      if Ascii.eqb c ":" then EmptyString :: Split r
      else match Split r with
           | h :: t => String c h :: t
           | [] => [String c EmptyString]
           end
  end.

(** The ASCII white space of [unicode.IsSpace]. *)
Definition isSpace (c : ascii) : bool :=
  let n := nat_of_ascii c in
  ((9 <=? n) && (n <=? 13))%nat || (n =? 32)%nat.

Fixpoint trimLeft (s : string) : string :=
  match s with
  | String c r => if isSpace c then trimLeft r else s
  | EmptyString => s
  end.

Fixpoint trimRight (s : string) : string :=
  match s with
  | EmptyString => EmptyString
  | String c r =>
      match trimRight r with
      | EmptyString => if isSpace c then EmptyString else String c EmptyString
      | r' => String c r'
      end
  end.

(** [strings.TrimSpace] *)
Definition TrimSpace (s : string) : string := trimRight (trimLeft s).

Definition digit (c : ascii) : option Z :=
  let n := nat_of_ascii c in
  if ((48 <=? n) && (n <=? 57))%nat then Some (Z.of_nat n - 48) else None.

Fixpoint digits (s : string) (acc : Z) : option Z :=
  match s with
  | EmptyString => Some acc
  | String c r =>
      match digit c with
      | Some d => digits r (10 * acc + d)
      | None => None
      end
  end.

(** [strconv.ParseUint(s, 10, 64)] *)
Definition ParseUint (s : string) : error + Z :=
  match s with
  | EmptyString => inl (ErrSyntax s)
  | _ =>
      match digits s 0 with
      | None => inl (ErrSyntax s)
      | Some n => if n <? 2 ^ 64 then inr n else inl (ErrRange s)
      end
  end.

(** [strconv.FormatUint(v, 10)] *)
Definition FormatUint (v : Z) : string := Go.itoa v.

Fixpoint dropTrailingSlash (s : string) : string :=
  match s with
  | EmptyString => EmptyString
  | String c r =>
      match dropTrailingSlash r with
      | EmptyString => if Ascii.eqb c "/" then EmptyString else String c EmptyString
      | r' => String c r'
      end
  end.

(** [filepath.Join(base, name, file)] for a base directory and two plain
    names: the elements joined by a separator, [Clean] dropping the
    separator the base ends with. *)
Definition Join (base name file : string) : string :=
  dropTrailingSlash base +:+ "/" +:+ name +:+ "/" +:+ file.

(** maxPower returns the value of the maximum watts a power zone can use. *)
Definition maxPower (fs : FS) (maxFile : string) : error + Z :=
  match files fs !! maxFile with
  | None => inl (ErrNotExist maxFile)
  | Some content => ParseUint (TrimSpace content)
  end.

(** capZone caps a power zone to the amount given by [value]. A file that
    exists is taken to be writable. *)
Definition capZone (fs : FS) (limitFile : string) (value : Z) : FS * option error :=
  match files fs !! limitFile with
  | None => (fs, Some (ErrNotExist limitFile))
  | Some _ =>
      (mkFS (dirs fs) (<[limitFile := FormatUint value]> (files fs)), None)
  end.

(** [uint64(math.Ceil(float64(maxPower) * (float64(percentage) / 100)))] *)
Definition powercap (maxPower percentage : Z) : Z :=
  Float64.to_uint64
    (Float64.Ceil
       (Float64.mul (Float64.of_Z maxPower)
          (Float64.div (Float64.of_Z percentage) (Float64.of_Z 100)))).

(** One iteration of the loop of capNode over the entries of [base]. *)
Definition capEntry (base : string) (percentage : Z) (fs : FS) (name : string) : FS :=
  match Split name with
  | [prefix; _] =>
      if String.eqb prefix raplPrefixCPU then
        match maxPower fs (Join base name maxPowerFileLongWindow) with
        | inl _ => fs
        | inr m =>
            fst (capZone fs (Join base name powerLimitFileLongWindow)
                   (powercap m percentage))
        end
      else fs
  | _ => fs
  end.

Definition capNode (fs : FS) (base : string) (percentage : Z) : FS * option error :=
  if (percentage <=? 0) || (percentage >? 100) then
    (fs, Some (ErrPercentage percentage))
  else
    match dirs fs !! base with
    | None => (fs, Some (ErrNotExist base))
    | Some entries => (fold_left (capEntry base percentage) entries fs, None)
    end.

(** [err.Error()] *)
Definition Error (e : error) : string :=
  match e with
  | ErrPercentage p => "cap percentage must be between (0, 100]: " +:+ Go.itoa p
  | ErrNotExist p => "open " +:+ p +:+ ": no such file or directory"
  | ErrSyntax s => "strconv.ParseUint: parsing " +:+ s +:+ ": invalid syntax"
  | ErrRange s => "strconv.ParseUint: parsing " +:+ s +:+ ": value out of range"
  end.

(** Cap is the payload expected from Elektron to cap a node. *)
Record Cap : Type := mkCap { Percentage : Z }.

(** The request body as [json.Decoder.Decode] leaves it: an error, or the
    payload. *)
Inductive Body : Type :=
| BadPayload (err : string)
| Payload (c : Cap).

Record Response : Type := mkResponse { status : Z; text : string }.

(** [http.Error(w, msg, code)] *)
Definition httpError (msg : string) (code : Z) : Response :=
  mkResponse code (msg +:+ String (ascii_of_nat 10) EmptyString).

(** Handler for the powercapping HTTP API endpoint. *)
Definition powercapEndpoint (fs : FS) (r : Body) : FS * Response :=
  match r with
  | BadPayload err => (fs, httpError ("error parsing payload: " +:+ err) 400)
  | Payload payload =>
      match capNode fs powercapDir (Percentage payload) with
      | (fs', Some err) => (fs', httpError (Error err) 400)
      | (fs', None) =>
          (fs', mkResponse 200
                  ("capped node at " +:+ Go.itoa (Percentage payload) +:+ " percent"))
      end
  end.

End Rapl.

(* ===================================================================== *)
(** ** Mesos messages and the task definition *)
(* ===================================================================== *)

Module Mesos.

Record Filters : Type := mkFilters { RefuseSeconds : float64 }.

(** [mesosutil.NewScalarResource(name, value)] *)
Record Resource : Type := mkResource { res_Name : string; res_Scalar : float64 }.

Record Attribute : Type := mkAttribute { attr_Name : string; attr_Text : string }.

Record Offer : Type := mkOffer {
  Id : string;
  SlaveId : string;
  Hostname : string;
  Attributes : list Attribute;
  Resources : list Resource
}.

Record TaskInfo : Type := mkTaskInfo {
  ti_Name : string;
  ti_TaskId : string;
  ti_SlaveId : string;
  ti_Resources : list Resource;
  ti_Command : string;
  ti_Image : string
}.

(** The calls a scheduler makes on its driver. *)
Inductive DriverCall : Type :=
| LaunchTasks (offerIds : list string) (tasks : list TaskInfo) (filters : Filters)
| DeclineOffer (offerId : string) (filters : Filters).

(** The scalar resources of a given name, in the order of the message. *)
Definition scalars (name : string) (rs : list Resource) : list float64 :=
  res_Scalar <$> filter (fun r => res_Name r = name) rs.

(** What a list of launched tasks asks for under [name], added up in the
    order of the launch. *)
Definition requested (name : string) (tis : list TaskInfo) : float64 :=
  Float64.sum (tis ≫= fun ti => scalars name (ti_Resources ti)).

End Mesos.

(** utilities/mesosUtils/mesosUtils.go; the schedulers of the older layout
    name the same two filters [defaultFilter] and [longFilter]. *)
Module MesosUtils.

Definition DefaultFilter : Mesos.Filters := Mesos.mkFilters (Float64.of_Z 1).
Definition LongFilter : Mesos.Filters := Mesos.mkFilters (Float64.of_Z 1000).

End MesosUtils.

Module OfferUtils.

(** Modelled from the spec: [OfferAgg] (offerUtils, not among the sources)
    "sums scalar resources by name (unknown names ignored)" into
    (cpu, mem, watts); the names are the ones [newTask] launches with. *)
Definition OfferAgg (offer : Mesos.Offer) : float64 * float64 * float64 :=
  (Float64.sum (Mesos.scalars "cpus" (Mesos.Resources offer)),
   Float64.sum (Mesos.scalars "mem" (Mesos.Resources offer)),
   Float64.sum (Mesos.scalars "watts" (Mesos.Resources offer))).

(** Modelled from the spec: [HostMismatch] (offerUtils, not among the
    sources) "returns true iff task_prefix is non-empty and is not a
    prefix of offer_host". *)
Definition HostMismatch (offerHost taskHost : string) : bool :=
  negb (String.eqb taskHost "") && negb (String.prefix taskHost offerHost).

(** The value of the offer's "class" attribute; the last one wins and the
    empty string stands for none, as in the loop of bpswClassMapWatts.go. *)
Definition PowerClass (offer : Mesos.Offer) : string :=
  fold_left
    (fun nodeClass attr =>
       if String.eqb (Mesos.attr_Name attr) "class" then Mesos.attr_Text attr
       else nodeClass)
    (Mesos.Attributes offer) "".

End OfferUtils.

Module Def.

(** The task of the workload. [Instances] is a pointer ([*int]): copies of
    a task share the counter, which lives in the store of the scheduler
    under this address. *)
Record Task : Type := mkTask {
  Name : string;
  CPU : float64;
  RAM : float64;
  Watts : float64;
  Image : string;
  CMD : string;
  Instances : nat;
  Host : string;
  ClassToWatts : gmap string float64
}.

Inductive error : Type :=
| UnknownPowerClass (task : string) (class : string).

(** Modelled from the spec: [WattsToConsider] (package def, not among the
    sources). "if class-map mode is enabled and the offer carries a
    "class" attribute present in task.class_to_watts, return that value;
    otherwise return task.watts; if class-map is enabled but the class is
    missing from the task, fail with UnknownPowerClass". *)
Definition WattsToConsider (task : Task) (classMapWatts : bool)
    (offer : Mesos.Offer) : error + float64 :=
  if classMapWatts then
    match ClassToWatts task !! OfferUtils.PowerClass offer with
    | Some w => inr w
    | None => inl (UnknownPowerClass (Name task) (OfferUtils.PowerClass offer))
    end
  else inr (Watts task).

(** [task.ClassToWatts[nodeClass]]: a key that is absent reads as the zero
    value. *)
Definition classWatts (task : Task) (nodeClass : string) : float64 :=
  default Float64.zero (ClassToWatts task !! nodeClass).

End Def.

(* ===================================================================== *)
(** ** schedulers/binpacksortedwatts.go, schedulers/bpswClassMapWatts.go *)
(* ===================================================================== *)

(** The two files differ in one expression: the watts a task is charged in
    the fit test, [task.Watts] in the first and
    [task.ClassToWatts[nodeClass]] in the second. The section is over that
    expression; everything else is the text of both. *)
Module BinPack.

Record Scheduler : Type := mkScheduler {
  tasksCreated : Z;
  tasksRunning : Z;
  tasks : list Def.Task;
  insts : gmap nat Z;                       (** the cells [Instances] point to *)
  running : gmap string (gmap string bool);
  ignoreWatts : bool;
  RecordPCP : bool;
  Shutdown : bool;                          (** true once closed *)
  Done : bool
}.

Definition deref (s : Scheduler) (p : nat) : Go.result Z :=
  match insts s !! p with
  | Some n => Go.Ok n
  | None => Go.Fail Go.NilDeref
  end.

Definition newTask (s : Scheduler) (offer : Mesos.Offer) (task : Def.Task)
    : Go.result (Scheduler * Mesos.TaskInfo) :=
  n <-! deref s (Def.Instances task);
  let taskName := Def.Name task +:+ "-" +:+ Go.itoa n in
  let slave := Mesos.SlaveId offer in
  let onSlave := default ∅ (running s !! slave) in
  let resources :=
    [Mesos.mkResource "cpus" (Def.CPU task); Mesos.mkResource "mem" (Def.RAM task)]
    ++ (if ignoreWatts s then [] else [Mesos.mkResource "watts" (Def.Watts task)]) in
  Go.Ok
    (mkScheduler (tasksCreated s + 1) (tasksRunning s) (tasks s) (insts s)
       (<[slave := <[taskName := true]> onSlave]> (running s))
       (ignoreWatts s) true (Shutdown s) (Done s),
     Mesos.mkTaskInfo taskName ("electron-" +:+ taskName) slave resources
       (Def.CMD task) (Def.Image task)).

(** The state of the loop over one offer. [s.tasks] is [tasks (sched l)];
    [stale] is what the backing array still holds behind it, inside the
    bounds the [range] clause fixed when the loop began: removing an
    element moves its successors down and leaves the last slot as it was.
    [charged] records, per launched instance, the watts added to
    [totalWatts]. *)
Record Loop : Type := mkLoop {
  sched : Scheduler;
  stale : list Def.Task;
  taken : bool;
  totalWatts : float64;
  totalCPU : float64;
  totalRAM : float64;
  launch : list Mesos.TaskInfo;
  charged : list float64
}.

Definition withSched (l : Loop) (s : Scheduler) : Loop :=
  mkLoop s (stale l) (taken l) (totalWatts l) (totalCPU l) (totalRAM l)
    (launch l) (charged l).

(** [*task.Instances--] *)
Definition decrement (s : Scheduler) (p : nat) (n : Z) : Scheduler :=
  mkScheduler (tasksCreated s) (tasksRunning s) (tasks s) (<[p := n - 1]> (insts s))
    (running s) (ignoreWatts s) (RecordPCP s) (Shutdown s) (Done s).

(** [s.tasks = append(s.tasks[:i], s.tasks[i+1:]...)] *)
Definition removeAt (i : nat) (l : Loop) : Go.result Loop :=
  let s := sched l in
  let ts := tasks s in
  if (length ts <? i + 1)%nat then Go.Fail Go.SliceBounds
  else
    Go.Ok
      (mkLoop
         (mkScheduler (tasksCreated s) (tasksRunning s) (take i ts ++ drop (S i) ts)
            (insts s) (running s) (ignoreWatts s) (RecordPCP s) (Shutdown s) (Done s))
         (drop (length ts - 1) ts ++ stale l)
         (taken l) (totalWatts l) (totalCPU l) (totalRAM l) (launch l) (charged l)).

(** [close(s.Shutdown)] *)
Definition closeShutdown (l : Loop) : Go.result Loop :=
  let s := sched l in
  if Shutdown s then Go.Fail Go.CloseClosed
  else
    Go.Ok
      (withSched l
         (mkScheduler (tasksCreated s) (tasksRunning s) (tasks s) (insts s)
            (running s) (ignoreWatts s) (RecordPCP s) true (Done s))).

Section Policy.

Variable wattsOf : Mesos.Offer -> Def.Task -> float64.

(** Does the task fit *)
Definition fits (offer : Mesos.Offer) (task : Def.Task) (l : Loop) : bool :=
  let '(offer_cpu, offer_ram, offer_watts) := OfferUtils.OfferAgg offer in
  (ignoreWatts (sched l)
   || Float64.geb offer_watts (Float64.add (totalWatts l) (wattsOf offer task)))
  && Float64.geb offer_cpu (Float64.add (totalCPU l) (Def.CPU task))
  && Float64.geb offer_ram (Float64.add (totalRAM l) (Def.RAM task)).

(** The body of [for *task.Instances > 0] once the task fits. *)
Definition place (offer : Mesos.Offer) (i : nat) (task : Def.Task) (n : Z)
    (l : Loop) : Go.result Loop :=
  r <-! newTask (sched l) offer task;
  let l1 :=
    mkLoop (decrement (fst r) (Def.Instances task) n) (stale l) true
      (Float64.add (totalWatts l) (wattsOf offer task))
      (Float64.add (totalCPU l) (Def.CPU task))
      (Float64.add (totalRAM l) (Def.RAM task))
      (launch l ++ [snd r]) (charged l ++ [wattsOf offer task]) in
  if n - 1 <=? 0 then
    l2 <-! removeAt i l1;
    if (length (tasks (sched l2)) <=? 0)%nat then closeShutdown l2 else Go.Ok l2
  else Go.Ok l1.

(** [for *task.Instances > 0 { ... }]. Every turn that does not leave
    the loop takes one off the counter, so a counter that reads [n] on
    entry allows at most [n] turns: [fuel] is that bound. *)
Fixpoint instancesLoop (fuel : nat) (offer : Mesos.Offer) (i : nat)
    (task : Def.Task) (l : Loop) : Go.result Loop :=
  match fuel with
  | O => Go.Ok l
  | S fuel' =>
      n <-! deref (sched l) (Def.Instances task);
      if n >? 0 then
        if fits offer task l then
          l' <-! place offer i task n l;
          instancesLoop fuel' offer i task l'
        else Go.Ok l
      else Go.Ok l
  end.

(** One turn of [for i, task := range s.tasks]. *)
Definition visit (offer : Mesos.Offer) (i : nat) (l : Loop) : Go.result Loop :=
  match (tasks (sched l) ++ stale l) !! i with
  | None => Go.Fail Go.IndexRange
  | Some task =>
      if negb (String.eqb (Def.Host task) "")
         && negb (String.prefix (Def.Host task) (Mesos.Hostname offer))
      then Go.Ok l
      else
        n <-! deref (sched l) (Def.Instances task);
        instancesLoop (Z.to_nat n) offer i task l
  end.

(** The turns [i], [i+1], ... of the range loop, [k] of them. *)
Fixpoint rangeTasks (k : nat) (offer : Mesos.Offer) (i : nat) (l : Loop)
    : Go.result Loop :=
  match k with
  | O => Go.Ok l
  | S k' =>
      l' <-! visit offer i l;
      rangeTasks k' offer (S i) l'
  end.

Definition enter (s : Scheduler) : Loop :=
  mkLoop s [] false Float64.zero Float64.zero Float64.zero [] [].

(** The loop over the tasks for an offer that is not declined at once. *)
Definition offerLoop (s : Scheduler) (offer : Mesos.Offer) : Go.result Loop :=
  rangeTasks (length (tasks s)) offer 0 (enter s).

(** The body of [for _, offer := range offers]. *)
Definition consumeOffer (s : Scheduler) (offer : Mesos.Offer)
    : Go.result (Scheduler * Mesos.DriverCall) :=
  if Shutdown s then
    Go.Ok (s, Mesos.DeclineOffer (Mesos.Id offer) MesosUtils.LongFilter)
  else
    l <-! offerLoop s offer;
    if taken l then
      Go.Ok (sched l,
             Mesos.LaunchTasks [Mesos.Id offer] (launch l) MesosUtils.DefaultFilter)
    else
      Go.Ok (sched l, Mesos.DeclineOffer (Mesos.Id offer) MesosUtils.DefaultFilter).

Fixpoint ResourceOffers (s : Scheduler) (offers : list Mesos.Offer)
    : Go.result (Scheduler * list Mesos.DriverCall) :=
  match offers with
  | [] => Go.Ok (s, [])
  | offer :: rest =>
      r <-! consumeOffer s offer;
      r' <-! ResourceOffers (fst r) rest;
      Go.Ok (fst r', snd r :: snd r')
  end.

End Policy.

(** binpacksortedwatts.go *)
Definition taskWatts (_ : Mesos.Offer) (task : Def.Task) : float64 := Def.Watts task.

(** bpswClassMapWatts.go *)
Definition classMapWatts (offer : Mesos.Offer) (task : Def.Task) : float64 :=
  Def.classWatts task (OfferUtils.PowerClass offer).

End BinPack.

Module BinPackSortedWatts.
Definition offerLoop := BinPack.offerLoop BinPack.taskWatts.
Definition consumeOffer := BinPack.consumeOffer BinPack.taskWatts.
Definition ResourceOffers := BinPack.ResourceOffers BinPack.taskWatts.
End BinPackSortedWatts.

Module BPSWClassMapWatts.
Definition offerLoop := BinPack.offerLoop BinPack.classMapWatts.
Definition consumeOffer := BinPack.consumeOffer BinPack.classMapWatts.
Definition ResourceOffers := BinPack.ResourceOffers BinPack.classMapWatts.
End BPSWClassMapWatts.

(* ===================================================================== *)
(** ** schedulers/MaxGreedyMins.go *)
(* ===================================================================== *)

Module MaxGreedyMins.

(** The fields of the base scheduler the policy reads and writes. *)
Record baseScheduler : Type := mkBase {
  tasks : list Def.Task;
  insts : gmap nat Z;
  classMapWatts : bool;
  wattsAsAResource : bool;
  Shutdown : bool
}.

(** Modelled from the spec: the text of the [UnknownPowerClass] error,
    of which the spec gives the name only. *)
Definition Error (e : Def.error) : string :=
  match e with
  | Def.UnknownPowerClass task class =>
      "UnknownPowerClass: " +:+ task +:+ " has no watts for class " +:+ class
  end.

(** [wattsConsideration, err := def.WattsToConsider(...)] followed by
    [if err != nil { log.Fatal(err) }]. *)
Definition wattsOrFatal (b : baseScheduler) (task : Def.Task) (offer : Mesos.Offer)
    : Go.result float64 :=
  match Def.WattsToConsider task (classMapWatts b) offer with
  | inr w => Go.Ok w
  | inl err => Go.Fail (Go.Fatal (Error err))
  end.

(** Decides if to take an offer or not *)
Definition takeOffer (b : baseScheduler) (offer : Mesos.Offer) (task : Def.Task)
    (totalCPU totalRAM totalWatts : float64) : Go.result bool :=
  let '(cpus, mem, watts) := OfferUtils.OfferAgg offer in
  wattsConsideration <-! wattsOrFatal b task offer;
  Go.Ok
    (Float64.geb cpus (Float64.add totalCPU (Def.CPU task))
     && Float64.geb mem (Float64.add totalRAM (Def.RAM task))
     && (negb (wattsAsAResource b)
         || Float64.geb watts (Float64.add totalWatts wattsConsideration))).

(** What the policy has put on the offer so far. [placed] pairs every
    launched instance with the watts it was charged. *)
Record Loop : Type := mkLoop {
  base : baseScheduler;
  offerTaken : bool;
  totalWatts : float64;
  totalCPU : float64;
  totalRAM : float64;
  launch : list Mesos.TaskInfo;
  placed : list (Def.Task * float64)
}.

Definition deref (b : baseScheduler) (p : nat) : Go.result Z :=
  match insts b !! p with
  | Some n => Go.Ok n
  | None => Go.Fail Go.NilDeref
  end.

(** [baseSchedRef.tasks = append(baseSchedRef.tasks[:i], baseSchedRef.tasks[i+1:]...)]
    and the close of [Shutdown] that follows an empty queue. *)
Definition removeAt (i : nat) (b : baseScheduler) : Go.result baseScheduler :=
  let ts := tasks b in
  if (length ts <? i + 1)%nat then Go.Fail Go.SliceBounds
  else
    let ts' := take i ts ++ drop (S i) ts in
    if (length ts' <=? 0)%nat then
      if Shutdown b then Go.Fail Go.CloseClosed
      else Go.Ok (mkBase ts' (insts b) (classMapWatts b) (wattsAsAResource b) true)
    else Go.Ok (mkBase ts' (insts b) (classMapWatts b) (wattsAsAResource b) (Shutdown b)).

Section Policy.

(** [baseScheduler.newTask] is not among the sources: the TaskInfo it
    builds for a task on an offer, given the instances left. *)
Variable newTask : Mesos.Offer -> Def.Task -> Z -> Mesos.TaskInfo.

(** [def.SortTasks(tasks, def.SortByWatts)] is not among the sources. *)
Variable SortTasks : list Def.Task -> list Def.Task.

(** Determine if the remaining space inside of the offer is enough for
    the task we need to create. If it is, create a TaskInfo. *)
Definition CheckFit (i : nat) (task : Def.Task) (wattsConsideration : float64)
    (offer : Mesos.Offer) (l : Loop) : Go.result (bool * Loop) :=
  fit <-! takeOffer (base l) offer task (totalCPU l) (totalRAM l) (totalWatts l);
  if fit : bool then
    n <-! deref (base l) (Def.Instances task);
    let b := base l in
    let b1 := mkBase (tasks b) (<[Def.Instances task := n - 1]> (insts b))
                (classMapWatts b) (wattsAsAResource b) (Shutdown b) in
    b2 <-! (if n - 1 <=? 0 then removeAt i b1 else Go.Ok b1);
    Go.Ok (true,
           mkLoop b2 true
             (Float64.add (totalWatts l) wattsConsideration)
             (Float64.add (totalCPU l) (Def.CPU task))
             (Float64.add (totalRAM l) (Def.RAM task))
             (launch l ++ [newTask offer task n])
             (placed l ++ [(task, wattsConsideration)]))
  else Go.Ok (false, l).

(** Attempt to schedule a single instance of the heaviest workload
    available first: [for i := len(tasks) - 1; i >= 0; i--], entered
    with [k = len(tasks)], the turn at hand being [i = k - 1]. *)
Fixpoint heaviest (k : nat) (offer : Mesos.Offer) (l : Loop) : Go.result Loop :=
  match k with
  | O => Go.Ok l
  | S i =>
      match tasks (base l) !! i with
      | None => Go.Fail Go.IndexRange
      | Some task =>
          wattsConsideration <-! wattsOrFatal (base l) task offer;
          if OfferUtils.HostMismatch (Mesos.Hostname offer) (Def.Host task)
          then heaviest i offer l
          else
            r <-! CheckFit i task wattsConsideration offer l;
            if fst r then Go.Ok (snd r) else heaviest i offer (snd r)
      end
  end.

(** [for *task.Instances > 0 { ... }]; [fuel] bounds the turns by the
    counter read on entry. *)
Fixpoint instancesLoop (fuel : nat) (i : nat) (task : Def.Task)
    (wattsConsideration : float64) (offer : Mesos.Offer) (l : Loop)
    : Go.result Loop :=
  match fuel with
  | O => Go.Ok l
  | S fuel' =>
      n <-! deref (base l) (Def.Instances task);
      if n >? 0 then
        r <-! CheckFit i task wattsConsideration offer l;
        if fst r then instancesLoop fuel' i task wattsConsideration offer (snd r)
        else Go.Ok (snd r)
      else Go.Ok l
  end.

(** Pack the rest of the offer with the smallest tasks:
    [for i := 0; i < len(tasks); i++]. The queue never grows, so the
    turns are at most as many as its length on entry: [k]. *)
Fixpoint lightest (k : nat) (i : nat) (offer : Mesos.Offer) (l : Loop)
    : Go.result Loop :=
  match k with
  | O => Go.Ok l
  | S k' =>
      match tasks (base l) !! i with
      | None => Go.Ok l
      | Some task =>
          wattsConsideration <-! wattsOrFatal (base l) task offer;
          if OfferUtils.HostMismatch (Mesos.Hostname offer) (Def.Host task)
          then lightest k' (S i) offer l
          else
            n <-! deref (base l) (Def.Instances task);
            l' <-! instancesLoop (Z.to_nat n) i task wattsConsideration offer l;
            lightest k' (S i) offer l'
      end
  end.

Definition enter (b : baseScheduler) : Loop :=
  mkLoop b false Float64.zero Float64.zero Float64.zero [] [].

Definition offerLoop (b : baseScheduler) (offer : Mesos.Offer) : Go.result Loop :=
  l <-! heaviest (length (tasks b)) offer (enter b);
  lightest (length (tasks (base l))) 0 offer l.

(** The body of [for _, offer := range offers]. *)
Definition consumeOffer (b : baseScheduler) (offer : Mesos.Offer)
    : Go.result (baseScheduler * Mesos.DriverCall) :=
  if Shutdown b then
    Go.Ok (b, Mesos.DeclineOffer (Mesos.Id offer) MesosUtils.LongFilter)
  else
    l <-! offerLoop b offer;
    if offerTaken l then
      Go.Ok (base l,
             Mesos.LaunchTasks [Mesos.Id offer] (launch l) MesosUtils.DefaultFilter)
    else
      Go.Ok (base l, Mesos.DeclineOffer (Mesos.Id offer) MesosUtils.DefaultFilter).

Fixpoint consumeAll (b : baseScheduler) (offers : list Mesos.Offer)
    : Go.result (baseScheduler * list Mesos.DriverCall) :=
  match offers with
  | [] => Go.Ok (b, [])
  | offer :: rest =>
      r <-! consumeOffer b offer;
      r' <-! consumeAll (fst r) rest;
      Go.Ok (fst r', snd r :: snd r')
  end.

(** The queue is sorted by watts, then the offers are consumed. (The
    switch to a random policy that ends the function replaces the
    policy object and touches none of this state.) *)
Definition ConsumeOffers (b : baseScheduler) (offers : list Mesos.Offer)
    : Go.result (baseScheduler * list Mesos.DriverCall) :=
  consumeAll
    (mkBase (SortTasks (tasks b)) (insts b) (classMapWatts b)
       (wattsAsAResource b) (Shutdown b))
    offers.

End Policy.

End MaxGreedyMins.

(* ===================================================================== *)
(** ** schedulers/proactiveclusterwidecappingranked.go *)
(* ===================================================================== *)

Module Ranked.

Inductive TaskState : Type :=
| TASK_STAGING | TASK_STARTING | TASK_RUNNING
| TASK_FINISHED | TASK_FAILED | TASK_KILLED | TASK_LOST | TASK_ERROR.

(** Modelled from the spec: [IsTerminal] (not among the sources); the
    terminal states are "FINISHED | FAILED | KILLED | LOST | ERROR". *)
Definition IsTerminal (st : TaskState) : bool :=
  match st with
  | TASK_FINISHED | TASK_FAILED | TASK_KILLED | TASK_LOST | TASK_ERROR => true
  | _ => false
  end.

Record TaskStatus : Type := mkStatus {
  st_TaskId : string;
  st_State : TaskState;
  st_SlaveId : string
}.

(** [int(math.Floor(x + 0.5))]: "rounding to the nearest int". *)
Definition round (x : float64) : Z :=
  Float64.to_int (Float64.Floor (Float64.add x Float64.half)).

Section Scheduler.

(** The cluster-wide capper (package pcp) is not among the sources: its
    state and the three methods the scheduler calls, each with the
    state it leaves behind. *)
Variable Capper : Type.
Variable FCFSDeterminedCap :
  Capper -> gmap string float64 -> Def.Task -> Capper * (string + float64).
Variable TaskFinished : Capper -> string -> Capper.
Variable CleverRecap :
  Capper -> gmap string float64 -> gmap string (list (string * Def.Task)) ->
  string -> Capper * (string + float64).

(** [constants.Hosts] and [sort.Sort(def.WattsSorter(...))] are not
    among the sources either. *)
Variable Hosts : list string.
Variable sortByWatts : list Def.Task -> list Def.Task.

(** The scheduler, the two package variables [rankedCurrentCapValue]
    and [rankedRecapValue], and whether the goroutines behind the two
    tickers have been started and the tickers stopped. *)
Record Scheduler : Type := mkScheduler {
  tasksCreated : Z;
  tasksRunning : Z;
  tasks : list Def.Task;
  insts : gmap nat Z;
  running : gmap string (gmap string bool);
  taskMonitor : gmap string (list (string * Def.Task));
  availablePower : gmap string float64;
  totalPower : gmap string float64;
  ignoreWatts : bool;
  capper : Capper;
  isCapping : bool;
  isRecapping : bool;
  RecordPCP : bool;
  Shutdown : bool;
  Done : bool;
  rankedCurrentCapValue : float64;
  rankedRecapValue : float64;
  cappingStarted : bool;
  recappingStarted : bool;
  tickerStopped : bool;
  recapTickerStopped : bool
}.

(** Decides if to taken an offer or not *)
Definition takeOffer (offer : Mesos.Offer) (task : Def.Task) : bool :=
  let '(offer_cpu, offer_mem, offer_watts) := OfferUtils.OfferAgg offer in
  Float64.geb offer_cpu (Def.CPU task)
  && Float64.geb offer_mem (Def.RAM task)
  && Float64.geb offer_watts (Def.Watts task).

Definition deref (s : Scheduler) (p : nat) : Go.result Z :=
  match insts s !! p with
  | Some n => Go.Ok n
  | None => Go.Fail Go.NilDeref
  end.

Definition newTask (s : Scheduler) (offer : Mesos.Offer) (task : Def.Task)
    : Go.result (Scheduler * Mesos.TaskInfo) :=
  n <-! deref s (Def.Instances task);
  let taskName := Def.Name task +:+ "-" +:+ Go.itoa n in
  let taskID := "electron-" +:+ taskName in
  let slave := Mesos.SlaveId offer in
  let host := Mesos.Hostname offer in
  let resources :=
    [Mesos.mkResource "cpus" (Def.CPU task); Mesos.mkResource "mem" (Def.RAM task)]
    ++ (if ignoreWatts s then [] else [Mesos.mkResource "watts" (Def.Watts task)]) in
  Go.Ok
    (mkScheduler (tasksCreated s + 1) (tasksRunning s) (tasks s) (insts s)
       (<[slave := <[taskName := true]> (default ∅ (running s !! slave))]> (running s))
       (<[host := default [] (taskMonitor s !! host) ++ [(taskID, task)]]>
          (taskMonitor s))
       (availablePower s) (totalPower s) (ignoreWatts s) (capper s)
       (isCapping s) (isRecapping s) true (Shutdown s) (Done s)
       (rankedCurrentCapValue s) (rankedRecapValue s)
       (cappingStarted s) (recappingStarted s)
       (tickerStopped s) (recapTickerStopped s),
     Mesos.mkTaskInfo taskName taskID slave resources (Def.CMD task) (Def.Image task)).

(** Capping the cluster if haven't yet started *)
Definition beginCapping (s : Scheduler) : Scheduler :=
  if isCapping s then s
  else
    mkScheduler (tasksCreated s) (tasksRunning s) (tasks s) (insts s) (running s)
      (taskMonitor s) (availablePower s) (totalPower s) (ignoreWatts s) (capper s)
      true (isRecapping s) (RecordPCP s) (Shutdown s) (Done s)
      (rankedCurrentCapValue s) (rankedRecapValue s)
      true (recappingStarted s) (tickerStopped s) (recapTickerStopped s).

(** [tempCap, err := s.capper.FCFSDeterminedCap(s.totalPower, &task)] and
    the update of [rankedCurrentCapValue] when there is no error. *)
Definition determineCap (s : Scheduler) (task : Def.Task) : Scheduler :=
  let '(c, r) := FCFSDeterminedCap (capper s) (totalPower s) task in
  mkScheduler (tasksCreated s) (tasksRunning s) (tasks s) (insts s) (running s)
    (taskMonitor s) (availablePower s) (totalPower s) (ignoreWatts s) c
    (isCapping s) (isRecapping s) (RecordPCP s) (Shutdown s) (Done s)
    (match r with inr tempCap => tempCap | inl _ => rankedCurrentCapValue s end)
    (rankedRecapValue s)
    (cappingStarted s) (recappingStarted s) (tickerStopped s) (recapTickerStopped s).

(** Stop cluster wide capping *)
Definition stopCapping (s : Scheduler) : Scheduler :=
  if isCapping s then
    mkScheduler (tasksCreated s) (tasksRunning s) (tasks s) (insts s) (running s)
      (taskMonitor s) (availablePower s) (totalPower s) (ignoreWatts s) (capper s)
      false true (RecordPCP s) (Shutdown s) (Done s)
      (rankedCurrentCapValue s) (rankedRecapValue s)
      (cappingStarted s) (recappingStarted s) true (recapTickerStopped s)
  else s.

Definition startRecapping (s : Scheduler) : Scheduler :=
  mkScheduler (tasksCreated s) (tasksRunning s) (tasks s) (insts s) (running s)
    (taskMonitor s) (availablePower s) (totalPower s) (ignoreWatts s) (capper s)
    (isCapping s) (isRecapping s) (RecordPCP s) (Shutdown s) (Done s)
    (rankedCurrentCapValue s) (rankedRecapValue s)
    (cappingStarted s) true (tickerStopped s) (recapTickerStopped s).

(** Stop cluster wide Recapping *)
Definition stopRecapping (s : Scheduler) : Scheduler :=
  if negb (isCapping s) && isRecapping s then
    mkScheduler (tasksCreated s) (tasksRunning s) (tasks s) (insts s) (running s)
      (taskMonitor s) (availablePower s) (totalPower s) (ignoreWatts s) (capper s)
      (isCapping s) false (RecordPCP s) (Shutdown s) (Done s)
      (rankedCurrentCapValue s) (rankedRecapValue s)
      (cappingStarted s) (recappingStarted s) (tickerStopped s) true
  else s.

Definition withTasks (s : Scheduler) (ts : list Def.Task) (cells : gmap nat Z)
    : Scheduler :=
  mkScheduler (tasksCreated s) (tasksRunning s) ts cells (running s)
    (taskMonitor s) (availablePower s) (totalPower s) (ignoreWatts s) (capper s)
    (isCapping s) (isRecapping s) (RecordPCP s) (Shutdown s) (Done s)
    (rankedCurrentCapValue s) (rankedRecapValue s)
    (cappingStarted s) (recappingStarted s) (tickerStopped s) (recapTickerStopped s).

Definition closeShutdown (s : Scheduler) : Go.result Scheduler :=
  if Shutdown s then Go.Fail Go.CloseClosed
  else
    Go.Ok
      (mkScheduler (tasksCreated s) (tasksRunning s) (tasks s) (insts s) (running s)
         (taskMonitor s) (availablePower s) (totalPower s) (ignoreWatts s) (capper s)
         (isCapping s) (isRecapping s) (RecordPCP s) true (Done s)
         (rankedCurrentCapValue s) (rankedRecapValue s)
         (cappingStarted s) (recappingStarted s)
         (tickerStopped s) (recapTickerStopped s)).

(** The branch of the loop taken by a task that fits: the cap, the
    launch, the counter, and the removal of a task that has no
    instances left ([s.tasks[i] = s.tasks[len(s.tasks)-1]], then
    [s.tasks = s.tasks[:len(s.tasks)-1]]). *)
Definition schedule (s : Scheduler) (offer : Mesos.Offer) (i : nat)
    (task : Def.Task) : Go.result (Scheduler * Mesos.DriverCall) :=
  let s1 := determineCap (beginCapping s) task in
  r <-! newTask s1 offer task;
  let call :=
    Mesos.LaunchTasks [Mesos.Id offer] [snd r] MesosUtils.DefaultFilter in
  n <-! deref (fst r) (Def.Instances task);
  let cells := <[Def.Instances task := n - 1]> (insts (fst r)) in
  if n - 1 <=? 0 then
    let ts := tasks (fst r) in
    match last ts with
    | None => Go.Fail Go.IndexRange
    | Some t =>
        let s2 := withTasks (fst r) (take (length ts - 1) (<[i := t]> ts)) cells in
        if (length (tasks s2) <=? 0)%nat then
          s3 <-! closeShutdown (startRecapping (stopCapping s2));
          Go.Ok (s3, call)
        else Go.Ok (s2, call)
    end
  else Go.Ok (withTasks (fst r) (tasks (fst r)) cells, call).

(** [for i, task := range s.tasks]: the tasks from index [i] on; the
    loop is left at the first task that fits. *)
Fixpoint scan (s : Scheduler) (offer : Mesos.Offer) (i : nat)
    (rest : list Def.Task) : Go.result (Scheduler * option Mesos.DriverCall) :=
  match rest with
  | [] => Go.Ok (s, None)
  | task :: rest' =>
      if negb (String.prefix (Def.Host task) (Mesos.Hostname offer))
      then scan s offer (S i) rest'
      else if takeOffer offer task then
        r <-! schedule s offer i task;
        Go.Ok (fst r, Some (snd r))
      else scan s offer (S i) rest'
  end.

(** The body of the second [for _, offer := range offers]; the calls
    made on the driver, in order. *)
Definition consumeOffer (s : Scheduler) (offer : Mesos.Offer)
    : Go.result (Scheduler * list Mesos.DriverCall) :=
  if Shutdown s then
    Go.Ok (s, [Mesos.DeclineOffer (Mesos.Id offer) MesosUtils.LongFilter])
  else
    r <-! scan s offer 0 (tasks s);
    match snd r with
    | Some call => Go.Ok (fst r, [call])
    | None =>
        Go.Ok (fst r, [Mesos.DeclineOffer (Mesos.Id offer) MesosUtils.DefaultFilter])
    end.

Fixpoint consumeAll (s : Scheduler) (offers : list Mesos.Offer)
    : Go.result (Scheduler * list (list Mesos.DriverCall)) :=
  match offers with
  | [] => Go.Ok (s, [])
  | offer :: rest =>
      r <-! consumeOffer s offer;
      r' <-! consumeAll (fst r) rest;
      Go.Ok (fst r', snd r :: snd r')
  end.

(** retrieving the available power for all the hosts in the offers. *)
Definition observe (s : Scheduler) (offer : Mesos.Offer) : Scheduler :=
  let '(_, _, offer_watts) := OfferUtils.OfferAgg offer in
  let host := Mesos.Hostname offer in
  mkScheduler (tasksCreated s) (tasksRunning s) (tasks s) (insts s) (running s)
    (taskMonitor s) (<[host := offer_watts]> (availablePower s))
    (match totalPower s !! host with
     | Some _ => totalPower s
     | None => <[host := offer_watts]> (totalPower s)
     end)
    (ignoreWatts s) (capper s)
    (isCapping s) (isRecapping s) (RecordPCP s) (Shutdown s) (Done s)
    (rankedCurrentCapValue s) (rankedRecapValue s)
    (cappingStarted s) (recappingStarted s) (tickerStopped s) (recapTickerStopped s).

(** The driver calls of a batch, grouped by offer. *)
Definition ResourceOffers (s : Scheduler) (offers : list Mesos.Offer)
    : Go.result (Scheduler * list (list Mesos.DriverCall)) :=
  let s1 := fold_left observe offers s in
  let s2 :=
    if (0 <? length (tasks s1))%nat
    then withTasks s1 (sortByWatts (tasks s1)) (insts s1)
    else s1 in
  consumeAll s2 offers.

Definition withRecap (s : Scheduler) (c : Capper) (value : float64)
    (recapping : bool) : Scheduler :=
  mkScheduler (tasksCreated s) (tasksRunning s) (tasks s) (insts s) (running s)
    (taskMonitor s) (availablePower s) (totalPower s) (ignoreWatts s) c
    (isCapping s) recapping (RecordPCP s) (Shutdown s) (Done s)
    (rankedCurrentCapValue s) value
    (cappingStarted s) (recappingStarted s) (tickerStopped s) (recapTickerStopped s).

Definition withRunning (s : Scheduler) (n : Z)
    (r : gmap string (gmap string bool)) : Scheduler :=
  mkScheduler (tasksCreated s) n (tasks s) (insts s) r
    (taskMonitor s) (availablePower s) (totalPower s) (ignoreWatts s) (capper s)
    (isCapping s) (isRecapping s) (RecordPCP s) (Shutdown s) (Done s)
    (rankedCurrentCapValue s) (rankedRecapValue s)
    (cappingStarted s) (recappingStarted s) (tickerStopped s) (recapTickerStopped s).

Definition closeDone (s : Scheduler) : Go.result Scheduler :=
  if Done s then Go.Fail Go.CloseClosed
  else
    Go.Ok
      (mkScheduler (tasksCreated s) (tasksRunning s) (tasks s) (insts s) (running s)
         (taskMonitor s) (availablePower s) (totalPower s) (ignoreWatts s) (capper s)
         (isCapping s) (isRecapping s) (RecordPCP s) (Shutdown s) true
         (rankedCurrentCapValue s) (rankedRecapValue s)
         (cappingStarted s) (recappingStarted s)
         (tickerStopped s) (recapTickerStopped s)).

(** The branch of StatusUpdate taken on a terminal status while tasks
    are still running: the finished task leaves the window of the
    capper and the cap is determined anew. *)
Definition recap (s : Scheduler) (taskId : string) : Scheduler :=
  let c1 := TaskFinished (capper s) taskId in
  let '(c2, r) := CleverRecap c1 (totalPower s) (taskMonitor s) taskId in
  match r with
  | inr tempCap =>
      if negb (round tempCap =? round (rankedRecapValue s))
      then withRecap s c2 tempCap true
      else withRecap s c2 (rankedRecapValue s) false
  | inl _ => withRecap s c2 (rankedRecapValue s) (isRecapping s)
  end.

Definition StatusUpdate (s : Scheduler) (status : TaskStatus) : Go.result Scheduler :=
  match st_State status with
  | TASK_RUNNING => Go.Ok (withRunning s (tasksRunning s + 1) (running s))
  | st =>
      if IsTerminal st then
        let slave := st_SlaveId status in
        let r :=
          match running s !! slave with
          | Some onSlave => <[slave := delete (st_TaskId status) onSlave]> (running s)
          | None => running s
          end in
        let s1 := withRunning s (tasksRunning s - 1) r in
        if tasksRunning s1 =? 0 then
          if Shutdown s1 then closeDone (stopRecapping s1) else Go.Ok s1
        else Go.Ok (recap s1 (st_TaskId status))
      else Go.Ok s
  end.

(** One tick of the goroutine of startCapping: the calls of [rapl.Cap],
    host and percentage. *)
Definition capTick (s : Scheduler) : Scheduler * list (string * Z) :=
  if Float64.gtb (rankedCurrentCapValue s) Float64.zero
  then (s, (fun host => (host, round (rankedCurrentCapValue s))) <$> Hosts)
  else (s, []).

(** One tick of the goroutine of startRecapping. *)
Definition recapTick (s : Scheduler) : Scheduler * list (string * Z) :=
  (withRecap s (capper s) (rankedRecapValue s) false,
   if isRecapping s && Float64.gtb (rankedRecapValue s) Float64.zero
   then (fun host => (host, round (rankedRecapValue s))) <$> Hosts
   else []).

End Scheduler.

End Ranked.

(* ===================================================================== *)
(** ** schedulers/schedPolicy.go *)
(* ===================================================================== *)

Module SchedPolicy.

Record baseSchedPolicyState : Type := mkState {
  numTasksScheduled : Z;
  TaskDistribution : float64;
  VarianceCpuSharePerTask : float64
}.

Record info : Type := mkInfo { taskDist : float64; varCpuShare : float64 }.

Definition GetInfo (bsps : baseSchedPolicyState) : info :=
  mkInfo (TaskDistribution bsps) (VarianceCpuSharePerTask bsps).

(** An element of [schedPoliciesToSwitch]. *)
Record entry : Type := mkEntry { spName : string; sp : baseSchedPolicyState }.

Section Registry.

(** The name [bp] and the registry [schedPoliciesToSwitch] are declared
    outside the sources: the registry is the ordered sequence of the
    policies, "sorted ascending by declared task distribution". *)
Variable bp : string.
Variable schedPoliciesToSwitch : list entry.

Definition at_ (i : Z) : Go.result entry :=
  if i <? 0 then Go.Fail Go.IndexRange
  else
    match schedPoliciesToSwitch !! Z.to_nat i with
    | Some e => Go.Ok e
    | None => Go.Fail Go.IndexRange
    end.

Definition dist (e : entry) : float64 := taskDist (GetInfo (sp e)).

(** [for low <= high { ... }]: the name found (empty if none) and the
    bounds on leaving the loop. Every turn that stays in the loop
    shrinks [high - low], so [fuel] need not exceed [high - low + 1]. *)
Fixpoint search (fuel : nat) (d : float64) (low high : Z)
    : Go.result (string * Z * Z) :=
  match fuel with
  | O => Go.Ok ("", low, high)
  | S fuel' =>
      if low <=? high then
        let mid := (low + high) ÷ 2 in
        e <-! at_ mid;
        if Float64.ltb d (dist e) then search fuel' d low (mid - 1)
        else if Float64.gtb d (dist e) then search fuel' d (mid + 1) high
        else Go.Ok (spName e, low, high)
      else Go.Ok ("", low, high)
  end.

(** The closest match once the search has ended without one. *)
Definition closest (d : float64) (low high : Z) : Go.result string :=
  l <-! at_ low;
  h <-! at_ high;
  let lowDiff := Float64.sub (dist l) d in
  let highDiff := Float64.sub d (dist h) in
  if Float64.gtb lowDiff highDiff then Go.Ok (spName h)
  else if Float64.gtb highDiff lowDiff then Go.Ok (spName l)
  else Go.Ok (spName h).

(** nextPolicy, given what [def.GetTaskDistributionInWindow] (not among
    the sources) returned for the window: the distribution and the
    error, if any. *)
Definition nextPolicy (d : float64) (err : option string)
    : Go.result (string * float64) :=
  match err with
  | Some _ => Go.Ok (bp, d)
  | None =>
      first <-! at_ 0;
      last <-! at_ (Z.of_nat (length schedPoliciesToSwitch) - 1);
      if Float64.ltb d (dist first) then Go.Ok (spName first, d)
      else if Float64.gtb d (dist last) then Go.Ok (spName last, d)
      else
        let high := Z.of_nat (length schedPoliciesToSwitch) - 1 in
        r <-! search (length schedPoliciesToSwitch) d 0 high;
        let '(name, low, high) := r in
        if String.eqb name "" then
          name' <-! closest d low high;
          Go.Ok (name', d)
        else Go.Ok (name, d)
  end.

(** The registry is "sorted ascending by declared task distribution". *)
Definition ascending : Prop :=
forall (i j : nat) (a b : entry),
  (i <= j)%nat ->
  schedPoliciesToSwitch !! i = Some a ->
  schedPoliciesToSwitch !! j = Some b ->
  Float64.leb (dist a) (dist b) = true.

End Registry.

End SchedPolicy.

(* ===================================================================== *)
(** ** What the loops over an offer maintain *)
(* ===================================================================== *)

Module Invariant.

(** Amounts of cpu, memory and (where watts are accounted) watts that an
    offer covers, dimension by dimension. *)
Definition within (offer : Mesos.Offer) (cpu mem : float64) (watts : option float64)
    : Prop :=
  let '(offer_cpu, offer_mem, offer_watts) := OfferUtils.OfferAgg offer in
  Float64.leb cpu offer_cpu = true
  /\ Float64.leb mem offer_mem = true
  /\ match watts with
     | Some w => Float64.leb w offer_watts = true
     | None => True
     end.

(** The bin-packing loops: the three totals are the sums, in launch order,
    of what the launched tasks ask for and of the watts they were charged;
    as soon as something is launched the totals are within the offer. *)
Definition binPack (accountWatts : bool) (offer : Mesos.Offer) (l : BinPack.Loop)
    : Prop :=
  BinPack.ignoreWatts (BinPack.sched l) = negb accountWatts
  /\ BinPack.totalCPU l = Mesos.requested "cpus" (BinPack.launch l)
  /\ BinPack.totalRAM l = Mesos.requested "mem" (BinPack.launch l)
  /\ BinPack.totalWatts l = Float64.sum (BinPack.charged l)
  /\ length (BinPack.charged l) = length (BinPack.launch l)
  /\ if BinPack.taken l
     then within offer (BinPack.totalCPU l) (BinPack.totalRAM l)
            (if accountWatts then Some (BinPack.totalWatts l) else None)
     else BinPack.launch l = [].

(** binpacksortedwatts.go charges the watts it launches with. *)
Definition launchesCharged (l : BinPack.Loop) : Prop :=
  BinPack.ignoreWatts (BinPack.sched l) = false ->
  Mesos.requested "watts" (BinPack.launch l) = BinPack.totalWatts l.

(** MaxGreedyMins: the totals are the sums over the placed instances of the
    cpu and memory of their task and of the watts considered for it; as
    soon as something is placed the totals are within the offer. *)
Definition maxGreedyMins (classMap accountWatts : bool) (offer : Mesos.Offer)
    (l : MaxGreedyMins.Loop) : Prop :=
  MaxGreedyMins.classMapWatts (MaxGreedyMins.base l) = classMap
  /\ MaxGreedyMins.wattsAsAResource (MaxGreedyMins.base l) = accountWatts
  /\ MaxGreedyMins.totalCPU l
     = Float64.sum ((fun p => Def.CPU (fst p)) <$> MaxGreedyMins.placed l)
  /\ MaxGreedyMins.totalRAM l
     = Float64.sum ((fun p => Def.RAM (fst p)) <$> MaxGreedyMins.placed l)
  /\ MaxGreedyMins.totalWatts l = Float64.sum (snd <$> MaxGreedyMins.placed l)
  /\ length (MaxGreedyMins.launch l) = length (MaxGreedyMins.placed l)
  /\ Forall
       (fun p => Def.WattsToConsider (fst p) classMap offer = inr (snd p))
       (MaxGreedyMins.placed l)
  /\ if MaxGreedyMins.offerTaken l
     then within offer (MaxGreedyMins.totalCPU l) (MaxGreedyMins.totalRAM l)
            (if accountWatts then Some (MaxGreedyMins.totalWatts l) else None)
     else MaxGreedyMins.placed l = [].

(** A call that launches one instance of [task], with the resources
    [newTask] gives it. *)
Definition launchesOne (ignore : bool) (offer : Mesos.Offer) (task : Def.Task)
    (call : Mesos.DriverCall) : Prop :=
  exists ti : Mesos.TaskInfo,
    call = Mesos.LaunchTasks [Mesos.Id offer] [ti] MesosUtils.DefaultFilter
    /\ Mesos.scalars "cpus" (Mesos.ti_Resources ti) = [Def.CPU task]
    /\ Mesos.scalars "mem" (Mesos.ti_Resources ti) = [Def.RAM task]
    /\ Mesos.scalars "watts" (Mesos.ti_Resources ti)
       = if ignore then [] else [Def.Watts task].

(** The test a task passes in the scan of the ranked scheduler: its host
    is a prefix of the host of the offer, and the offer covers it. *)
Definition eligible (offer : Mesos.Offer) (task : Def.Task) : bool :=
  String.prefix (Def.Host task) (Mesos.Hostname offer) && Ranked.takeOffer offer task.

(** A driver call that launches nothing beyond the offer it answers. *)
Definition callWithin (accountWatts : bool) (offer : Mesos.Offer)
    (call : Mesos.DriverCall) : Prop :=
  match call with
  | Mesos.LaunchTasks _ tis _ =>
      within offer (Mesos.requested "cpus" tis) (Mesos.requested "mem" tis)
        (if accountWatts then Some (Mesos.requested "watts" tis) else None)
  | Mesos.DeclineOffer _ _ => True
  end.

(** A queue that is empty has had [Shutdown] closed. *)
Definition emptyIsShutdown (s : BinPack.Scheduler) : Prop :=
  BinPack.tasks s = [] -> BinPack.Shutdown s = true.

End Invariant.

(* ===================================================================== *)
(** ** Inputs of the scenarios and the limit of the specification *)
(* ===================================================================== *)

Module Scenario.

Import Rapl.

(** The limit the specification asks for: ceil(M * N / 100), in exact
    integer arithmetic. *)
Definition exactLimit (M N : Z) : Z := - ((- (M * N)) / 100).

(** A node with one zone of 100 W (100000000 uW), capped at 5 W for now,
    and the sub-zone the daemon ignores. *)
Definition oneZone : FS :=
  mkFS {[ powercapDir := ["intel-rapl:0"; "intel-rapl:0:0"] ]}
    {[ "/sys/class/powercap/intel-rapl:0/constraint_0_max_power_uw" := "100000000";
       "/sys/class/powercap/intel-rapl:0/constraint_0_power_limit_uw" := "5000000";
       "/sys/class/powercap/intel-rapl:0:0/constraint_0_max_power_uw" := "100000000";
       "/sys/class/powercap/intel-rapl:0:0/constraint_0_power_limit_uw" := "5000000" ]}.

Definition limitOfZone0 (fs : FS) : option string :=
  files fs !! "/sys/class/powercap/intel-rapl:0/constraint_0_power_limit_uw".

(** A registry of two policies declared at the distributions 1 and 3, and
    the distribution 2, as far from the one as from the other. *)
Definition declared (name : string) (d : Z) : SchedPolicy.entry :=
  SchedPolicy.mkEntry name (SchedPolicy.mkState 0 (Float64.of_Z d) Float64.zero).

Definition twoPolicies : list SchedPolicy.entry :=
  [declared "first-fit" 1; declared "max-min" 3].

(** The sentence of the specification on ties: "Ties break to the higher
    index (larger declared distribution)". *)
Definition tiesBreakToHigherIndex : Prop :=
  forall (bp : string) (registry : list SchedPolicy.entry) (d : float64)
         (i : nat) (lo hi : SchedPolicy.entry),
    SchedPolicy.ascending registry ->
    registry !! i = Some lo ->
    registry !! S i = Some hi ->
    Float64.ltb (SchedPolicy.dist lo) d = true ->
    Float64.ltb d (SchedPolicy.dist hi) = true ->
    Float64.eqb (Float64.sub (SchedPolicy.dist hi) d)
                (Float64.sub d (SchedPolicy.dist lo)) = true ->
    SchedPolicy.nextPolicy bp registry d None = Go.Ok (SchedPolicy.spName hi, d).

(** Tasks and offers with whole amounts of cpu, memory and watts. *)
Definition task (name : string) (cpu mem watts : Z) (instances : nat) : Def.Task :=
  Def.mkTask name (Float64.of_Z cpu) (Float64.of_Z mem) (Float64.of_Z watts)
    "image" "command" instances "" ∅.

Definition offerOf (id host : string) (cpu mem watts : Z) : Mesos.Offer :=
  Mesos.mkOffer id "slave-1" host []
    [Mesos.mkResource "cpus" (Float64.of_Z cpu);
     Mesos.mkResource "mem" (Float64.of_Z mem);
     Mesos.mkResource "watts" (Float64.of_Z watts)].

(** A bin-packing scheduler at start-up: the queue, and for every task the
    instances left to launch (the cell of the i-th task is i). *)
Definition pending (queue : list Def.Task) (instances : list Z) : BinPack.Scheduler :=
  BinPack.mkScheduler 0 0 queue (list_to_map (zip (seq 0 (length instances)) instances))
    ∅ false false false false.

(** Scenario 1, "single offer, single task, exact fit". *)
Definition exactFit : BinPack.Scheduler :=
  pending [task "t" 4 8192 80 0] [1].

Definition exactOffer : Mesos.Offer := offerOf "offer-1" "node-a-1" 4 8192 80.
Definition nextOffer : Mesos.Offer := offerOf "offer-2" "node-a-1" 4 8192 80.

(** Scenario 2, "BinPack packs instances". *)
Definition tenInstances : BinPack.Scheduler :=
  pending [task "t" 2 4000 40 0] [10].

Definition roomForFive : Mesos.Offer := offerOf "offer-1" "node-a-1" 10 20000 200.

(** Three tasks of one instance each and an offer with room for all. *)
Definition threeTasks : BinPack.Scheduler :=
  pending [task "A" 1 1000 10 0; task "B" 1 1000 10 1; task "C" 1 1000 10 2] [1; 1; 1].

Definition twoTasks : BinPack.Scheduler :=
  pending [task "A" 1 1000 10 0; task "B" 1 1000 10 1] [1; 1].

(** The names of the launched tasks of a call, or the refusal of a
    decline in seconds. *)
Definition launchedNames (call : Mesos.DriverCall) : list string :=
  match call with
  | Mesos.LaunchTasks _ tis _ => Mesos.ti_Name <$> tis
  | Mesos.DeclineOffer _ _ => []
  end.

Definition declines (filters : Mesos.Filters) (offers : list Mesos.Offer)
    : list Mesos.DriverCall :=
  (fun offer => Mesos.DeclineOffer (Mesos.Id offer) filters) <$> offers.

(** What scenario 1 expects after the offer: "one launch; pending queue
    empty; Shutdown closed". *)
Definition exactFitDone : BinPack.Scheduler :=
  BinPack.mkScheduler 1 0 [] {[ 0%nat := 0 ]} {[ "slave-1" := {[ "t-1" := true ]} ]}
    false true true false.

Definition exactFitCalls : list Mesos.DriverCall :=
  [Mesos.LaunchTasks ["offer-1"]
     [Mesos.mkTaskInfo "t-1" "electron-t-1" "slave-1"
        [Mesos.mkResource "cpus" (Float64.of_Z 4);
         Mesos.mkResource "mem" (Float64.of_Z 8192);
         Mesos.mkResource "watts" (Float64.of_Z 80)]
        "command" "image"]
     MesosUtils.DefaultFilter].

(** The task instances a list of driver calls launches. *)
Definition instancesLaunched (calls : list Mesos.DriverCall) : nat :=
  sum_list ((fun call => length (launchedNames call)) <$> calls).

(** A capper that always answers 50 percent, for the runs of the ranked
    scheduler below. *)
Definition fixedCap (_ : unit) (_ : gmap string float64) (_ : Def.Task)
    : unit * (string + float64) :=
  (tt, inr (Float64.of_Z 50)).

Definition forget (_ : unit) (_ : string) : unit := tt.

Definition fixedRecap (_ : unit) (_ : gmap string float64)
    (_ : gmap string (list (string * Def.Task))) (_ : string)
    : unit * (string + float64) :=
  (tt, inr (Float64.of_Z 50)).

Definition hosts : list string := ["node-a-1"; "node-b-1"].

Definition asQueued (queue : list Def.Task) : list Def.Task := queue.

Definition rankedOffers :=
  Ranked.ResourceOffers unit fixedCap asQueued.

Definition rankedStatusUpdate :=
  Ranked.StatusUpdate unit forget fixedRecap.

(** The ranked scheduler with ten instances of one task pending. *)
Definition rankedTen : Ranked.Scheduler unit :=
  Ranked.mkScheduler unit 0 0 [task "t" 2 4000 40 0] {[ 0%nat := 10 ]} ∅ ∅ ∅ ∅
    false tt false false false false false Float64.zero Float64.zero
    false false false false.

(** The ranked scheduler once its queue is empty, with two tasks running
    and the last recap value at 50 or at 70 percent. *)
Definition rankedDraining (recapValue : Z) : Ranked.Scheduler unit :=
  Ranked.mkScheduler unit 2 2 [] {[ 0%nat := 0 ]} ∅ ∅ ∅ ∅
    false tt false true true true false (Float64.of_Z 50) (Float64.of_Z recapValue)
    true true true false.

Definition finished (taskId : string) : Ranked.TaskStatus :=
  Ranked.mkStatus taskId Ranked.TASK_FINISHED "slave-1".

(** The state and the output of a run that ended without a failure ([d]
    and the empty output otherwise). *)
Definition stateOf {A B : Type} (d : A) (r : Go.result (A * B)) : A :=
  match r with Go.Ok (a, _) => a | Go.Fail _ => d end.

Definition outputOf {A B : Type} (d : B) (r : Go.result (A * B)) : B :=
  match r with Go.Ok (_, b) => b | Go.Fail _ => d end.

(** A task of the class-map workload: 100 W declared, 40 W on nodes of
    class A, nothing said of any other class. *)
Definition classTask : Def.Task :=
  Def.mkTask "t" (Float64.of_Z 1) (Float64.of_Z 1000) (Float64.of_Z 100)
    "image" "command" 0 "" {[ "A" := Float64.of_Z 40 ]}.

Definition classOffer (class : string) (watts : Z) : Mesos.Offer :=
  Mesos.mkOffer "offer-1" "slave-1" "node-b-1" [Mesos.mkAttribute "class" class]
    [Mesos.mkResource "cpus" (Float64.of_Z 10);
     Mesos.mkResource "mem" (Float64.of_Z 20000);
     Mesos.mkResource "watts" (Float64.of_Z watts)].

Definition classQueue : BinPack.Scheduler := pending [classTask] [1].

(** The base scheduler of MaxGreedyMins with the same queue, class-map
    watts on or off, and a [newTask] that names the instance. *)
Definition baseQueue (classMap : bool) (queue : list Def.Task) (instances : list Z)
    : MaxGreedyMins.baseScheduler :=
  MaxGreedyMins.mkBase queue (list_to_map (zip (seq 0 (length instances)) instances))
    classMap true false.

Definition namedTask (offer : Mesos.Offer) (t : Def.Task) (n : Z) : Mesos.TaskInfo :=
  Mesos.mkTaskInfo (Def.Name t +:+ "-" +:+ Go.itoa n) "" (Mesos.SlaveId offer) []
    (Def.CMD t) (Def.Image t).

Definition tasksOf (call : Mesos.DriverCall) : list Mesos.TaskInfo :=
  match call with
  | Mesos.LaunchTasks _ tis _ => tis
  | Mesos.DeclineOffer _ _ => []
  end.

Definition noCall : Mesos.DriverCall := Mesos.DeclineOffer "" MesosUtils.DefaultFilter.

(** The runs the properties below are exercised on. *)
Definition binPackRun : Go.result (BinPack.Scheduler * Mesos.DriverCall) :=
  BinPackSortedWatts.consumeOffer tenInstances roomForFive.

Definition classMapLoop : BinPack.Loop :=
  match BPSWClassMapWatts.offerLoop classQueue (classOffer "A" 50) with
  | Go.Ok l => l
  | Go.Fail _ => BinPack.enter classQueue
  end.

Definition greedyQueue : MaxGreedyMins.baseScheduler :=
  baseQueue false [task "l" 1 1000 10 0; task "h" 2 4000 40 1] [3; 2].

Definition greedyLoop : MaxGreedyMins.Loop :=
  match MaxGreedyMins.offerLoop namedTask greedyQueue roomForFive with
  | Go.Ok l => l
  | Go.Fail _ => MaxGreedyMins.enter greedyQueue
  end.

Definition rankedRun
    : Go.result (Ranked.Scheduler unit * list (list Mesos.DriverCall)) :=
  rankedOffers rankedTen [roomForFive].

Definition rankedOne
    : Go.result (Ranked.Scheduler unit * list Mesos.DriverCall) :=
  Ranked.consumeOffer unit fixedCap rankedTen roomForFive.

(** The loop of BinPackSortedWatts over the offer with room for five, on
    the queue of three tasks. *)
Definition threeTasksLoop : BinPack.Loop :=
  match BinPackSortedWatts.offerLoop threeTasks roomForFive with
  | Go.Ok l => l
  | Go.Fail _ => BinPack.enter threeTasks
  end.

End Scenario.

(* ===================================================================== *)
(** ** The zones capNode writes *)
(* ===================================================================== *)

Module RaplView.

Import Rapl.

Definition maxFile (base name : string) : string :=
  Join base name maxPowerFileLongWindow.

Definition limitFile (base name : string) : string :=
  Join base name powerLimitFileLongWindow.

(** The max power capNode reads for a directory entry, when it goes on to
    write the limit of that entry: the name has the two fields of a zone,
    the first field is the RAPL prefix, the max-power file parses, and the
    power-limit file exists. *)
Definition zoneMax (fs : FS) (base name : string) : option Z :=
  match Split name with
  | [prefix; _] =>
      if String.eqb prefix raplPrefixCPU then
        match maxPower fs (maxFile base name) with
        | inr m =>
            match files fs !! limitFile base name with
            | Some _ => Some m
            | None => None
            end
        | inl _ => None
        end
      else None
  | _ => None
  end.

(** What a path holds after the entries of a directory have been gone
    through, read off the file system capNode started from: the limit of
    the last entry that names a zone with this power-limit file, or what
    the path held before. *)
Definition after (fs : FS) (base : string) (percentage : Z) (p : string)
    (held : option string) (name : string) : option string :=
  match zoneMax fs base name with
  | Some m =>
      if String.eqb (limitFile base name) p
      then Some (FormatUint (powercap m percentage)) else held
  | None => held
  end.

Definition expected (fs : FS) (base : string) (percentage : Z)
    (entries : list string) (p : string) : option string :=
  fold_left (after fs base percentage p) entries (files fs !! p).

End RaplView.

(* ===================================================================== *)
(** ** schedPolicy.go: SwitchIfNecessary *)
(* ===================================================================== *)

Module SchedSwitch.

Import SchedPolicy.

(** The fields of [BaseScheduler] that SwitchIfNecessary reads and
    writes. *)
Record BaseScheduler : Type := mkBase {
  schedPolSwitchEnabled : bool;
  toFixSchedWindow : bool;
  schedWindowSize : Z;
  numTasksInSchedWindow : Z;
  hasReceivedResourceOffers : bool;
  nameOfFstSchedPolToDeploy : string;
  tasks : list Def.Task
}.

Definition withWindow (b : BaseScheduler) (w : Z * Z) : BaseScheduler :=
  mkBase (schedPolSwitchEnabled b) (toFixSchedWindow b) (fst w) (snd w)
    (hasReceivedResourceOffers b) (nameOfFstSchedPolToDeploy b) (tasks b).

Definition withScheduled (bsps : baseSchedPolicyState) (n : Z) : baseSchedPolicyState :=
  mkState n (TaskDistribution bsps) (VarianceCpuSharePerTask bsps).

Section Switch.

Variable bp : string.
Variable schedPoliciesToSwitch : list entry.

(** [schedWindowResStrategy.Apply] and [def.GetTaskDistributionInWindow]
    are declared outside the sources: the first answers with the size of
    the window and the number of tasks in it, the second with the
    distribution and the error, if any. *)
Variable Apply : list Def.Task -> Z * Z.
Variable GetTaskDistributionInWindow : Z -> list Def.Task -> float64 * option string.

(** [bsps.nextPolicy(baseSchedRef)] *)
Definition next (b : BaseScheduler) : Go.result (string * float64) :=
  let r := GetTaskDistributionInWindow (schedWindowSize b) (tasks b) in
  nextPolicy bp schedPoliciesToSwitch (fst r) (snd r).

(** SwitchIfNecessary: the policy state, the scheduler, and the switch
    made, if any: the name looked up in [SchedPolicies] and handed to
    [SwitchSchedPol], with the distribution that is logged. *)
Definition SwitchIfNecessary (bsps : baseSchedPolicyState) (b : BaseScheduler)
    : Go.result (baseSchedPolicyState * BaseScheduler * option (string * float64)) :=
  if schedPolSwitchEnabled b then
    let b1 := if toFixSchedWindow b then b else withWindow b (Apply (tasks b)) in
    if schedWindowSize b1 >? 0 then
      if negb (hasReceivedResourceOffers b1) then
        if negb (String.eqb (nameOfFstSchedPolToDeploy b1) "") then
          Go.Ok (withScheduled bsps 0, b1,
                 Some (nameOfFstSchedPolToDeploy b1, Float64.zero))
        else
          r <-! next b1;
          Go.Ok (withScheduled bsps 0, b1, Some r)
      else if numTasksScheduled bsps >=? schedWindowSize b1 then
        r <-! next b1;
        Go.Ok (withScheduled bsps 0, b1, Some r)
      else Go.Ok (bsps, b1, None)
    else Go.Ok (bsps, b1, None)
  else Go.Ok (bsps, b, None).

End Switch.

End SchedSwitch.

Module SwitchScenario.

(** A window as long as the queue, two clusters at distribution 2, and a
    scheduler that has received offers, with a fixed window of 2. *)
Definition wholeQueue (ts : list Def.Task) : Z * Z :=
  (Z.of_nat (length ts), Z.of_nat (length ts)).

Definition twoClusters (_ : Z) (_ : list Def.Task) : float64 * option string :=
  (Float64.of_Z 2, None).

Definition scheduled (n : Z) : SchedPolicy.baseSchedPolicyState :=
  SchedPolicy.mkState n Float64.zero Float64.zero.

Definition fixedWindow : SchedSwitch.BaseScheduler :=
  SchedSwitch.mkBase true true 2 2 true "" [].

End SwitchScenario.

(* ===================================================================== *)
(** ** Bin packing: what is left of binpacksortedwatts.go and
       bpswClassMapWatts.go *)
(* ===================================================================== *)

Module BinPackStatus.

Import BinPack.

(** Decides if to take an offer or not (the same text in both files). *)
Definition takeOffer (offer : Mesos.Offer) (task : Def.Task) : bool :=
  let '(cpus, mem, watts) := OfferUtils.OfferAgg offer in
  Float64.geb cpus (Def.CPU task)
  && Float64.geb mem (Def.RAM task)
  && Float64.geb watts (Def.Watts task).

Definition withRunning (s : Scheduler) (n : Z) (r : gmap string (gmap string bool))
    : Scheduler :=
  mkScheduler (tasksCreated s) n (tasks s) (insts s) r (ignoreWatts s) (RecordPCP s)
    (Shutdown s) (Done s).

(** [close(s.Done)] *)
Definition closeDone (s : Scheduler) : Go.result Scheduler :=
  if Done s then Go.Fail Go.CloseClosed
  else
    Go.Ok
      (mkScheduler (tasksCreated s) (tasksRunning s) (tasks s) (insts s) (running s)
         (ignoreWatts s) (RecordPCP s) (Shutdown s) true).

(** StatusUpdate (the same text in both files). [delete] on the map of
    an agent that has none is a no-op. *)
Definition StatusUpdate (s : Scheduler) (status : Ranked.TaskStatus)
    : Go.result Scheduler :=
  match Ranked.st_State status with
  | Ranked.TASK_RUNNING => Go.Ok (withRunning s (tasksRunning s + 1) (running s))
  | st =>
      if Ranked.IsTerminal st then
        let slave := Ranked.st_SlaveId status in
        let r :=
          match running s !! slave with
          | Some onSlave =>
              <[slave := delete (Ranked.st_TaskId status) onSlave]> (running s)
          | None => running s
          end in
        let s1 := withRunning s (tasksRunning s - 1) r in
        if tasksRunning s1 =? 0 then
          if Shutdown s1 then closeDone s1 else Go.Ok s1
        else Go.Ok s1
      else Go.Ok s
  end.

(** What reaches a scheduler: a batch of offers or a status update. *)
Inductive Event : Type :=
| Offers (offers : list Mesos.Offer)
| Status (status : Ranked.TaskStatus).

Section Run.

Variable wattsOf : Mesos.Offer -> Def.Task -> float64.

Definition step (s : Scheduler) (ev : Event)
    : Go.result (Scheduler * list Mesos.DriverCall) :=
  match ev with
  | Offers offers => ResourceOffers wattsOf s offers
  | Status status => s' <-! StatusUpdate s status; Go.Ok (s', [])
  end.

(** The callbacks in the order the driver makes them. *)
Fixpoint run (s : Scheduler) (evs : list Event)
    : Go.result (Scheduler * list Mesos.DriverCall) :=
  match evs with
  | [] => Go.Ok (s, [])
  | ev :: rest =>
      r <-! step s ev;
      r' <-! run (fst r) rest;
      Go.Ok (fst r', snd r ++ snd r')
  end.

End Run.

(** The TaskInfos a driver call launches. *)
Definition launched (call : Mesos.DriverCall) : list Mesos.TaskInfo :=
  match call with
  | Mesos.LaunchTasks _ tis _ => tis
  | Mesos.DeclineOffer _ _ => []
  end.

(** The instances still to be launched: the sum of the counters. *)
Definition total (cells : gmap nat Z) : Z :=
  map_fold (fun _ n acc => n + acc) 0 cells.

(** The host of the task, if it names one, begins the host name of the
    offer. *)
Definition hostOK (offer : Mesos.Offer) (task : Def.Task) : bool :=
  String.eqb (Def.Host task) "" || String.prefix (Def.Host task) (Mesos.Hostname offer).

End BinPackStatus.

Module BinPackInvariant.

Import BinPack BinPackStatus.

(** A counter is where it was, or lower and not below zero. *)
Definition cellStep (before after : option Z) : Prop :=
  match before, after with
  | Some n, Some n' => n' = n \/ 0 <= n' < n
  | None, None => True
  | _, _ => False
  end.

(** A TaskInfo that is instance [n] of [task] on [offer]. *)
Definition instanceOf (offer : Mesos.Offer) (task : Def.Task) (n : Z)
    (ti : Mesos.TaskInfo) : Prop :=
  Mesos.ti_Name ti = Def.Name task +:+ "-" +:+ Go.itoa n
  /\ Mesos.ti_TaskId ti = "electron-" +:+ Mesos.ti_Name ti
  /\ Mesos.ti_SlaveId ti = Mesos.SlaveId offer
  /\ Mesos.ti_Command ti = Def.CMD task
  /\ Mesos.ti_Image ti = Def.Image task.

(** A TaskInfo that is an instance of a task of the queue of [s] whose
    host the offer has, numbered within the instances [s] has left of
    it. *)
Definition launchable (s : Scheduler) (offer : Mesos.Offer) (ti : Mesos.TaskInfo)
    : Prop :=
  exists (task : Def.Task) (n n0 : Z),
    task ∈ tasks s
    /\ hostOK offer task = true
    /\ insts s !! Def.Instances task = Some n0
    /\ 0 < n <= n0
    /\ instanceOf offer task n ti.

(** What the loop over one offer, entered with the scheduler [s],
    maintains. *)
Definition queue (s : Scheduler) (offer : Mesos.Offer) (l : Loop) : Prop :=
  tasksCreated (sched l) = tasksCreated s + Z.of_nat (length (launch l))
  /\ tasksRunning (sched l) = tasksRunning s
  /\ Done (sched l) = Done s
  /\ (if taken l then launch l <> [] /\ RecordPCP (sched l) = true
      else sched l = s /\ launch l = [])
  /\ total (insts (sched l)) + Z.of_nat (length (launch l)) = total (insts s)
  /\ (forall p, cellStep (insts s !! p) (insts (sched l) !! p))
  /\ tasks (sched l) `sublist_of` tasks s
  /\ (forall t, t ∈ tasks (sched l) ++ stale l -> t ∈ tasks s)
  /\ (forall t, t ∈ tasks s ->
        t ∈ tasks (sched l) \/ insts (sched l) !! Def.Instances t = Some 0)
  /\ Forall (launchable s offer) (launch l).

End BinPackInvariant.

Module QueueScenario.

Import Scenario.

(** Two offers, with room for five instances and for two, on the queue
    of ten instances of one task. *)
Definition batchRun : Go.result (BinPack.Scheduler * list Mesos.DriverCall) :=
  BinPackSortedWatts.ResourceOffers tenInstances [roomForFive; nextOffer].

Definition afterBatch : BinPack.Scheduler := stateOf tenInstances batchRun.

Definition batchCalls : list Mesos.DriverCall := outputOf [] batchRun.

Definition afterOffer : BinPack.Scheduler := stateOf tenInstances binPackRun.

Definition offerCall : Mesos.DriverCall := outputOf noCall binPackRun.

End QueueScenario.

Module StatusScenario.

Import Scenario.

(** The exact fit is launched, reported running and then finished. *)
Definition lifeOfOneTask : list BinPackStatus.Event :=
  [BinPackStatus.Offers [exactOffer];
   BinPackStatus.Status (Ranked.mkStatus "electron-t-1" Ranked.TASK_RUNNING "slave-1");
   BinPackStatus.Status (finished "electron-t-1")].

Definition lifeRun : Go.result (BinPack.Scheduler * list Mesos.DriverCall) :=
  BinPackStatus.run BinPack.taskWatts exactFit lifeOfOneTask.

Definition afterLife : BinPack.Scheduler := stateOf exactFit lifeRun.

(** One task running, the queue empty, both channels closed. *)
Definition allClosed : BinPack.Scheduler :=
  BinPack.mkScheduler 1 1 [] {[ 0%nat := 0 ]} {[ "slave-1" := {[ "t-1" := true ]} ]}
    false true true true.

(** The first instance of the exact fit, as newTask makes it, and the
    scheduler after the status that reports it finished. *)
Definition created : Go.result (BinPack.Scheduler * Mesos.TaskInfo) :=
  BinPack.newTask exactFit exactOffer (task "t" 4 8192 80 0).

Definition afterCreated : BinPack.Scheduler := stateOf exactFit created.

Definition createdInfo : Mesos.TaskInfo :=
  outputOf (Mesos.mkTaskInfo "" "" "" [] "" "") created.

Definition afterFinished : BinPack.Scheduler :=
  match BinPackStatus.StatusUpdate afterCreated
          (Ranked.mkStatus (Mesos.ti_TaskId createdInfo) Ranked.TASK_FINISHED
             (Mesos.ti_SlaveId createdInfo)) with
  | Go.Ok s => s
  | Go.Fail _ => afterCreated
  end.

End StatusScenario.

Module FitScenario.

Import Scenario.

(** An offer too small for the task of the queue of ten instances. *)
Definition tooSmall : Mesos.Offer := offerOf "offer-3" "node-a-1" 1 20000 200.

End FitScenario.

(* ===================================================================== *)
(** ** MaxGreedyMins.go: how the policy can fail, and its first phase *)
(* ===================================================================== *)

Module MaxGreedyMinsView.

Import MaxGreedyMins.

(** The failures that do not come from an index or a channel: a task
    without a counter, and the exit on an unknown power class. *)
Definition benign (f : Go.failure) : Prop :=
  f = Go.NilDeref \/ exists msg : string, f = Go.Fatal msg.

(** A result that satisfies [P], or a benign failure. *)
Definition safe {A : Type} (P : A -> Prop) (r : Go.result A) : Prop :=
  match r with
  | Go.Ok a => P a
  | Go.Fail f => benign f
  end.

(** [Shutdown] is closed on an empty queue only. *)
Definition closedIsEmpty (l : Loop) : Prop :=
  Shutdown (base l) = true -> tasks (base l) = [].

(** The task is passed over: its host does not suit the offer, or the
    fit test against the totals of [l] says no. *)
Definition refused (offer : Mesos.Offer) (l : Loop) (task : Def.Task) : Prop :=
  OfferUtils.HostMismatch (Mesos.Hostname offer) (Def.Host task) = true
  \/ takeOffer (base l) offer task (totalCPU l) (totalRAM l) (totalWatts l)
     = Go.Ok false.

(** What the two phases maintain on an offer entered with the base
    scheduler [b]. *)
Definition accounts (b : baseScheduler) (l : Loop) : Prop :=
  closedIsEmpty l
  /\ (if offerTaken l then launch l <> [] else base l = b /\ launch l = [])
  /\ BinPackStatus.total (insts (base l)) + Z.of_nat (length (launch l))
     = BinPackStatus.total (insts b)
  /\ tasks (base l) `sublist_of` tasks b.

End MaxGreedyMinsView.

Module GreedyScenario.

Import Scenario.

(** The class-map task offered a node of a class it does not list. *)
Definition unknownClassRun
    : Go.result (MaxGreedyMins.baseScheduler * list Mesos.DriverCall) :=
  MaxGreedyMins.ConsumeOffers namedTask asQueued (baseQueue true [classTask] [1])
    [classOffer "B" 50].

Definition failureOf {A : Type} (r : Go.result A) : Go.failure :=
  match r with
  | Go.Fail f => f
  | Go.Ok _ => Go.SliceBounds
  end.

(** The first phase on the queue of a light and a heavy task. *)
Definition heavyFirst : MaxGreedyMins.Loop :=
  match MaxGreedyMins.heaviest namedTask 2 roomForFive
          (MaxGreedyMins.enter greedyQueue) with
  | Go.Ok l => l
  | Go.Fail _ => MaxGreedyMins.enter greedyQueue
  end.

End GreedyScenario.

(* ===================================================================== *)
(** ** proactiveclusterwidecappingranked.go: power maps, queue, channels *)
(* ===================================================================== *)

Module RankedView.

(** The watts an offer carries, as ResourceOffers reads them. *)
Definition watts (offer : Mesos.Offer) : float64 := snd (OfferUtils.OfferAgg offer).

(** The watts of the offers of a batch that come from [host], in the
    order of the batch. *)
Definition fromHost (host : string) (offers : list Mesos.Offer) : list float64 :=
  watts <$> filter (fun offer => Mesos.Hostname offer = host) offers.

End RankedView.

Module RankedScenario.

Import Scenario.

Definition afterRun : Ranked.Scheduler unit := stateOf rankedTen rankedRun.

Definition afterOne : Ranked.Scheduler unit := stateOf rankedTen rankedOne.

(** The ranked scheduler with one task running, its queue empty and
    [Shutdown] closed, and after the status that reports the task
    finished. *)
Definition lastRunning : Ranked.Scheduler unit :=
  Ranked.mkScheduler unit 1 1 [] {[ 0%nat := 0 ]} ∅ ∅ ∅ ∅
    false tt false true true true false (Float64.of_Z 50) (Float64.of_Z 50)
    true true true false.

Definition afterLast : Ranked.Scheduler unit :=
  match rankedStatusUpdate lastRunning (finished "electron-t-1") with
  | Go.Ok s => s
  | Go.Fail _ => lastRunning
  end.

End RankedScenario.

(* ===================================================================== *)
(** ** The power class of a host (schedulers) *)
(* ===================================================================== *)

Module PowerClasses.

(** [hosts[hostName]]: a host that is not in the map reads as false. *)
Definition member (hosts : gmap string bool) (hostName : string) : bool :=
  default false (hosts !! hostName).

(** Get the powerClass of the given hostname. [constants.PowerClasses]
    is declared outside the sources, and [range] yields the entries of a
    map in an order of its own choosing: [order] is that order. *)
Fixpoint hostToPowerClass (order : list (string * gmap string bool))
    (hostName : string) : string :=
  match order with
  | [] => ""
  | (powerClass, hosts) :: rest =>
      if member hosts hostName then powerClass else hostToPowerClass rest hostName
  end.

(** The orders in which the entries of the map can come. *)
Definition yields (classes : gmap string (gmap string bool))
    (order : list (string * gmap string bool)) : Prop :=
  order ≡ₚ map_to_list classes.

End PowerClasses.

Module PowerClassScenario.

Definition twoClasses : gmap string (gmap string bool) :=
  {[ "A" := {[ "node-a-1" := true; "node-a-2" := true ]};
     "B" := {[ "node-b-1" := true; "node-a-1" := false ]} ]}.

End PowerClassScenario.

(* ===================================================================== *)
(** ** The task classifier (package def) *)
(* ===================================================================== *)

Module TaskClassifier.

(** Information about a cluster of tasks *)
Record TaskCluster : Type := mkCluster {
  ClusterIndex : Z;
  Tasks : list Def.Task;
  SizeScore : Z  (** How many other clusters is this cluster bigger than *)
}.

(** [sizedClusters[k].SizeScore++] *)
Definition bump (k : nat) (sized : list TaskCluster) : Go.result (list TaskCluster) :=
  match sized !! k with
  | Some c => Go.Ok (<[k := mkCluster (ClusterIndex c) (Tasks c) (SizeScore c + 1)]> sized)
  | None => Go.Fail Go.IndexRange
  end.

(** [clusters[i]]: an index without an entry reads as nil. *)
Definition clusterAt (clusters : gmap Z (list Def.Task)) (i : nat) : list Def.Task :=
  default [] (clusters !! Z.of_nat i).

Section Classifier.

Variable taskObservation : Def.Task -> list float64.

(** record observations *)
Definition getObservations (tasks : list Def.Task) : list (list float64) :=
  taskObservation <$> tasks.

(** Size tasks based on the power consumption *)
Definition clusterSize (tasks : list Def.Task) : float64 :=
  fold_left (fun size task => fold_left Float64.add (taskObservation task) size)
    tasks Float64.zero.

(** Comparing with the other clusters:
    [for j := i + 1; j < numberOfClusters; j++], with [count] turns to
    go. *)
Fixpoint compare (clusters : gmap Z (list Def.Task)) (sizeI : float64)
    (i j count : nat) (sized : list TaskCluster) : Go.result (list TaskCluster) :=
  match count with
  | O => Go.Ok sized
  | S count' =>
      let sizeJ := clusterSize (clusterAt clusters j) in
      sized' <-! (if Float64.gtb sizeI sizeJ then bump i sized else bump j sized);
      compare clusters sizeI i (S j) count' sized'
  end.

(** [for i := 0; i < numberOfClusters-1; i++], with [count] turns to
    go. *)
Fixpoint sizing (clusters : gmap Z (list Def.Task)) (n i count : nat)
    (sized : list TaskCluster) : Go.result (list TaskCluster) :=
  match count with
  | O => Go.Ok sized
  | S count' =>
      let sizeI := clusterSize (clusterAt clusters i) in
      sized' <-! compare clusters sizeI i (S i) (n - S i) sized;
      sizing clusters n (S i) count' sized'
  end.

(** Initializing *)
Definition initial (clusters : gmap Z (list Def.Task)) (n : nat) : list TaskCluster :=
  (fun i => mkCluster (Z.of_nat i) (clusterAt clusters i) 0) <$> seq 0 n.

(** The clusters with their scores, before they are sorted. *)
Definition scored (clusters : gmap Z (list Def.Task)) (numberOfClusters : Z)
    : Go.result (list TaskCluster) :=
  let n := Z.to_nat numberOfClusters in
  sizing clusters n 0 (n - 1) (initial clusters n).

(** [sort.SliceStable] is outside the sources; it is handed the
    comparison of two elements. *)
Variable SliceStable :
  (TaskCluster -> TaskCluster -> bool) -> list TaskCluster -> list TaskCluster.

(** Order clusters in increasing order of task heaviness *)
Definition labelAndOrder (clusters : gmap Z (list Def.Task)) (numberOfClusters : Z)
    : Go.result (list TaskCluster) :=
  sizedClusters <-! scored clusters numberOfClusters;
  Go.Ok (SliceStable (fun a b => SizeScore a <=? SizeScore b) sizedClusters).

(** [gokmeans.Train] and [gokmeans.Nearest] are outside the sources. *)
Variable Centroids : Type.
Variable Train : list (list float64) -> Z -> Z -> bool * Centroids.
Variable Nearest : list float64 -> Centroids -> Z.

(** The body of the loop over the observations: [observations[i]] and
    [tc[i]]. *)
Definition assign (centroids : Centroids) (clusters : gmap Z (list Def.Task))
    (at_i : list float64 * Def.Task) : gmap Z (list Def.Task) :=
  let classIndex := Nearest (fst at_i) centroids in
  match clusters !! classIndex with
  | Some ts => <[classIndex := ts ++ [snd at_i]]> clusters
  | None => <[classIndex := [snd at_i]]> clusters
  end.

Definition classify (tc : list Def.Task) (numberOfClusters : Z)
    : gmap Z (list Def.Task) :=
  let observations := getObservations tc in
  let '(trained, centroids) := Train observations numberOfClusters 100 in
  if trained then fold_left (assign centroids) (zip observations tc) ∅ else ∅.

(** Classification of Tasks using KMeans clustering using the watts
    consumption observations *)
Definition ClassifyTasks (tc : list Def.Task) (numberOfClusters : Z)
    : Go.result (list TaskCluster) :=
  labelAndOrder (classify tc numberOfClusters) numberOfClusters.

(** Cluster [k] is strictly bigger than cluster [j]. *)
Definition bigger (clusters : gmap Z (list Def.Task)) (k j : nat) : bool :=
  Float64.gtb (clusterSize (clusterAt clusters k)) (clusterSize (clusterAt clusters j)).

End Classifier.

(** How many of the [len] numbers from [lo] on satisfy [P]. *)
Definition count (P : nat -> bool) (lo len : nat) : Z :=
  Z.of_nat (length (filter (fun x => P x = true) (seq lo len))).

(** The score of cluster [k] among [n]: the clusters after it that it
    is bigger than, and the clusters before it that are not bigger than
    it. *)
Definition sizeScore (beats : nat -> nat -> bool) (n k : nat) : Z :=
  count (beats k) (S k) (n - S k) + count (fun i => negb (beats i k)) 0 k.

(** The sum of the scores of a list of clusters. *)
Definition scoreSum (sized : list TaskCluster) : Z :=
  foldr Z.add 0 (SizeScore <$> sized).

(** The list of [n] clusters in which cluster [k] has the score
    [score k]. *)
Definition render (clusters : gmap Z (list Def.Task)) (n : nat) (score : nat -> Z)
    : list TaskCluster :=
  (fun k => mkCluster (Z.of_nat k) (clusterAt clusters k) (score k)) <$> seq 0 n.

End TaskClassifier.

Module ClassifierScenario.

Import Scenario.

(** The watts of a task as its one observation, and two clusters: a task
    of 10 W in the first, a task of 40 W in the second. *)
Definition wattsObserved (t : Def.Task) : list float64 := [Def.Watts t].

Definition lightAndHeavy : gmap Z (list Def.Task) :=
  {[ 0 := [task "l" 1 1000 10 0]; 1 := [task "h" 2 4000 40 1] ]}.

End ClassifierScenario.

Module PanicScenario.

Import Scenario.

(** The ranked scheduler with a task whose [Instances] points nowhere. *)
Definition noCounter : Ranked.Scheduler unit :=
  Ranked.mkScheduler unit 0 0 [task "t" 2 4000 40 0] ∅ ∅ ∅ ∅ ∅
    false tt false false false false false Float64.zero Float64.zero
    false false false false.

End PanicScenario.
(* ===================================================================== *)
(** * Properties *)
(* ===================================================================== *)

(** ** Order and addition of float64 *)

Section Float64Facts.

Ltac order :=
  unfold Float64.ltb, Float64.leb, Float64.gtb, Float64.geb, Float64.eqb,
    SFltb, SFleb, SFeqb, SFcompare;
  repeat match goal with
         | x : float64 |- _ => destruct x as [[]|[]| |[] ? ?]
         | x : spec_float |- _ => destruct x as [[]|[]| |[] ? ?]
         end;
  simpl; try congruence;
  rewrite ?Pos.compare_cont_spec; simpl;
  repeat match goal with
         | |- context [(?x ?= ?y)%Z] => destruct (Z.compare_spec x y)
         | |- context [(?x ?= ?y)%positive] => destruct (Pos.compare_spec x y)
         end;
  simpl; try congruence; try lia.

Lemma ltb_asym (x y : float64) :
  Float64.ltb x y = true -> Float64.ltb y x = false.
Proof. order. Qed.

Lemma leb_ltb_trans (x y z : float64) :
  Float64.leb x y = true -> Float64.ltb y z = true -> Float64.ltb x z = true.
Proof. order. Qed.

Lemma ltb_leb_trans (x y z : float64) :
  Float64.ltb x y = true -> Float64.leb y z = true -> Float64.ltb x z = true.
Proof. order. Qed.

Lemma eqb_not_gtb (x y : float64) :
  Float64.eqb x y = true -> Float64.gtb x y = false /\ Float64.gtb y x = false.
Proof. order; split; congruence. Qed.

(** [0.0 + x] compares as [x] does (the sum turns [-0] into [+0]). *)
Lemma leb_add_zero (x y : float64) :
  Float64.leb (Float64.add Float64.zero x) y = Float64.leb x y.
Proof. destruct x as [[]|[]| |[] ? ?], y as [[]|[]| |[] ? ?]; reflexivity. Qed.

Lemma sum_snoc (xs : list float64) (x : float64) :
  Float64.sum (xs ++ [x]) = Float64.add (Float64.sum xs) x.
Proof. unfold Float64.sum. rewrite fold_left_app. reflexivity. Qed.

End Float64Facts.

(** ** The RAPL daemon *)

Section RaplDaemon.

Import Rapl Scenario.

(** The helpers of the daemon on the names and contents it meets: a zone
    and a sub-zone, a value followed by a newline, a value that is not a
    number and one beyond 64 bits. *)
Lemma rapl_helpers :
  Split "intel-rapl:0" = ["intel-rapl"; "0"]
  /\ length (Split "intel-rapl:0:0") = 3%nat
  /\ Split "dtpm" = ["dtpm"]
  /\ maxPower
       (mkFS ∅ {[ "max" := "100000000" +:+ String (ascii_of_nat 10) EmptyString ]}) "max"
     = inr 100000000
  /\ ParseUint "12a" = inl (ErrSyntax "12a")
  /\ ParseUint "" = inl (ErrSyntax "")
  /\ ParseUint "18446744073709551616" = inl (ErrRange "18446744073709551616")
  /\ Join powercapDir "intel-rapl:0" maxPowerFileLongWindow
     = "/sys/class/powercap/intel-rapl:0/constraint_0_max_power_uw".
Proof. vm_compute. repeat split. Qed.

(** Where the float64 product is exact the daemon writes the limit of the
    specification: 95 percent of 1.5 W, half of 100 W, all of it. *)
Lemma powercap_exact_cases :
  powercap 1500000 95 = exactLimit 1500000 95
  /\ powercap 100000000 50 = exactLimit 100000000 50
  /\ powercap 100000000 100 = exactLimit 100000000 100.
Proof. vm_compute. repeat split. Qed.

(** C5 (as the code has it): on a zone whose max-power file holds
    M = 100000000 and for N = 7, capNode returns no error and writes
    7000001 to the power-limit file, one above ceil(M * N / 100) = 7000000:
    7/100 is not a binary64 value, and the product with M falls just
    above the integer before [math.Ceil] is taken. *)
Theorem capNode_limit_off_by_one :
  snd (capNode oneZone powercapDir 7) = None
  /\ limitOfZone0 (fst (capNode oneZone powercapDir 7)) = Some "7000001"
  /\ FormatUint (exactLimit 100000000 7) = "7000000"
  /\ powercap 100000000 7 = exactLimit 100000000 7 + 1.
Proof. vm_compute. repeat split. Qed.

(** C6: a percentage outside (0, 100] makes capNode return its error
    before any directory is read, for every base directory, and the
    endpoint answer 400 with the file system as it was; so the endpoint
    succeeds only for 0 < N <= 100. *)
Theorem powercap_rejects_percentage (fs : FS) (N : Z) :
  ~ (0 < N <= 100) ->
  (forall base, capNode fs base N = (fs, Some (ErrPercentage N)))
  /\ powercapEndpoint fs (Payload (mkCap N))
     = (fs, httpError (Error (ErrPercentage N)) 400)
  /\ status (snd (powercapEndpoint fs (Payload (mkCap N)))) <> 200.
Proof.
  intros Hout.
  assert (Hguard : (N <=? 0) || (N >? 100) = true).
  { apply orb_true_iff. destruct (Z.leb_spec N 0); [now left|right]. lia. }
  assert (Hcap : forall base, capNode fs base N = (fs, Some (ErrPercentage N))).
  { intros base. unfold capNode. now rewrite Hguard. }
  split; [exact Hcap|].
  unfold powercapEndpoint. simpl. rewrite Hcap. simpl. split; [reflexivity|lia].
Qed.

Lemma powercap_rejects_percentage_witness :
  (forall base, capNode oneZone base 101 = (oneZone, Some (ErrPercentage 101)))
  /\ powercapEndpoint oneZone (Payload (mkCap 101))
     = (oneZone, httpError (Error (ErrPercentage 101)) 400)
  /\ status (snd (powercapEndpoint oneZone (Payload (mkCap 101)))) <> 200.
Proof. apply (powercap_rejects_percentage oneZone 101). lia. Defined.

(** Inside the range the same request is answered with 200. *)
Lemma powercap_accepts_percentage :
  status (snd (powercapEndpoint oneZone (Payload (mkCap 50)))) = 200
  /\ limitOfZone0 (fst (powercapEndpoint oneZone (Payload (mkCap 50))))
     = Some "50000000".
Proof. vm_compute. split; reflexivity. Qed.

End RaplDaemon.

(** ** The policy-switch controller *)

Section NextPolicy.

Import SchedPolicy Scenario.

Variable bp : string.
Variable registry : list entry.

Lemma at_lookup (i : nat) (e : entry) :
  registry !! i = Some e -> at_ registry (Z.of_nat i) = Go.Ok e.
Proof.
  intros H. unfold at_.
  destruct (Z.ltb_spec (Z.of_nat i) 0); [lia|].
  now rewrite Nat2Z.id, H.
Qed.

(** C7: when the classifier reports an error (all the tasks of the window
    in one cluster), nextPolicy returns the name [bp] of the bin-packing
    policy, whatever the registry holds, together with the distribution
    it was handed. *)
Theorem nextPolicy_single_cluster (d : float64) (err : string) :
  nextPolicy bp registry d (Some err) = Go.Ok (bp, d).
Proof. reflexivity. Qed.

(** The search leaves its loop by the loop's own test or by a match, not
    for want of fuel: with [fuel] at least [high - low + 1], either the
    bounds have crossed, or the name is that of an entry the distribution
    is neither below nor above. *)
Lemma search_ends (d : float64) (fuel : nat) :
  forall (low high low' high' : Z) (name : string),
    0 <= low ->
    high - low + 1 <= Z.of_nat fuel ->
    search registry fuel d low high = Go.Ok (name, low', high') ->
    (name = "" /\ high' < low')
    \/ (exists e : entry,
           at_ registry ((low' + high') ÷ 2) = Go.Ok e /\ name = spName e
           /\ Float64.ltb d (dist e) = false /\ Float64.gtb d (dist e) = false).
Proof.
  induction fuel as [|fuel IH]; intros low high low' high' name Hlow Hfuel; simpl.
  - intros [= <- <- <-]. left. split; [reflexivity|lia].
  - destruct (Z.leb_spec low high) as [Hle|Hgt].
    + assert (Hmid : low <= (low + high) ÷ 2 <= high).
      { rewrite Z.quot_div_nonneg by lia.
        split; [apply Z.div_le_lower_bound|apply Z.div_le_upper_bound]; lia. }
      destruct (at_ registry ((low + high) ÷ 2)) as [e|] eqn:Hat; simpl; [|discriminate].
      destruct (Float64.ltb d (dist e)) eqn:Hlt;
        [intros H; eapply IH; [| |exact H]; lia|].
      destruct (Float64.gtb d (dist e)) eqn:Hgt';
        [intros H; eapply IH; [| |exact H]; lia|].
      intros [= <- <- <-]. right. exists e. auto.
    + intros [= <- <- <-]. left. split; [reflexivity|lia].
Qed.

Hypothesis Hasc : ascending registry.

(** The search between two neighbours ends on them: [high] on the lower
    index, [low] one above, and no name found. *)
Lemma search_between (d : float64) (i : nat) (lo hi : entry) :
  registry !! i = Some lo ->
  registry !! S i = Some hi ->
  Float64.ltb (dist lo) d = true ->
  Float64.ltb d (dist hi) = true ->
  forall (fuel : nat) (low high : Z),
    0 <= low <= Z.of_nat i + 1 ->
    Z.of_nat i <= high < Z.of_nat (length registry) ->
    high - low + 1 <= Z.of_nat fuel ->
    search registry fuel d low high = Go.Ok ("", Z.of_nat i + 1, Z.of_nat i).
Proof.
  intros Hlo Hhi Hbelow Habove.
  induction fuel as [|fuel IH]; intros low high Hlow Hhigh Hfuel; simpl.
  - replace low with (Z.of_nat i + 1) by lia. replace high with (Z.of_nat i) by lia.
    reflexivity.
  - destruct (Z.leb_spec low high) as [Hle|Hgt].
    + set (mid := (low + high) ÷ 2).
      assert (Hmid : low <= mid <= high).
      { unfold mid. rewrite Z.quot_div_nonneg by lia.
        split; [apply Z.div_le_lower_bound|apply Z.div_le_upper_bound]; lia. }
      destruct (lookup_lt_is_Some_2 registry (Z.to_nat mid)) as [e He]; [lia|].
      assert (Hat : at_ registry mid = Go.Ok e).
      { rewrite <- (Z2Nat.id mid) by lia. now apply at_lookup. }
      rewrite Hat. simpl.
      destruct (Z.le_gt_cases mid (Z.of_nat i)) as [Hleft|Hright].
      * (* the middle is at or below the lower neighbour: it is below d *)
        assert (Hlt : Float64.ltb (dist e) d = true).
        { apply leb_ltb_trans with (dist lo); [|exact Hbelow].
          apply (Hasc (Z.to_nat mid) i e lo); [lia|exact He|exact Hlo]. }
        rewrite (ltb_asym _ _ Hlt). unfold Float64.gtb. fold (Float64.ltb (dist e) d).
        rewrite Hlt. apply IH; lia.
      * (* the middle is at or above the higher neighbour: d is below it *)
        assert (Hlt : Float64.ltb d (dist e) = true).
        { apply ltb_leb_trans with (dist hi); [exact Habove|].
          apply (Hasc (S i) (Z.to_nat mid) hi e); [lia|exact Hhi|exact He]. }
        rewrite Hlt. apply IH; lia.
    + replace low with (Z.of_nat i + 1) by lia. replace high with (Z.of_nat i) by lia.
      reflexivity.
Qed.

Lemma at_first_last (first final : entry) :
  registry !! 0%nat = Some first ->
  last registry = Some final ->
  at_ registry 0 = Go.Ok first
  /\ at_ registry (Z.of_nat (length registry) - 1) = Go.Ok final.
Proof.
  intros Hfirst Hfinal. split; [exact (at_lookup 0 first Hfirst)|].
  rewrite last_lookup in Hfinal.
  assert (0 < length registry)%nat.
  { destruct registry; [discriminate|simpl; lia]. }
  replace (Z.of_nat (length registry) - 1) with (Z.of_nat (pred (length registry))) by lia.
  now apply at_lookup.
Qed.

(** C2 (as the code has it): a distribution below the first declared one
    selects the first policy and one above the last declared one selects
    the last; a distribution strictly between two neighbours of the
    registry and as far from the one as from the other (the two float64
    differences compare equal) selects the policy at the LOWER index, the
    smaller declared distribution. *)
Theorem nextPolicy_clamps_and_ties_low (d : float64) :
  (forall first : entry,
     registry !! 0%nat = Some first ->
     Float64.ltb d (dist first) = true ->
     nextPolicy bp registry d None = Go.Ok (spName first, d))
  /\ (forall final : entry,
        last registry = Some final ->
        Float64.gtb d (dist final) = true ->
        nextPolicy bp registry d None = Go.Ok (spName final, d))
  /\ (forall (i : nat) (lo hi : entry),
        registry !! i = Some lo ->
        registry !! S i = Some hi ->
        Float64.ltb (dist lo) d = true ->
        Float64.ltb d (dist hi) = true ->
        Float64.eqb (Float64.sub (dist hi) d) (Float64.sub d (dist lo)) = true ->
        nextPolicy bp registry d None = Go.Ok (spName lo, d)).
Proof.
  split; [|split].
  - intros first Hfirst Hlt.
    destruct (lookup_lt_is_Some_2 registry (pred (length registry))) as [final Hfinal].
    { apply lookup_lt_Some in Hfirst. lia. }
    rewrite <- last_lookup in Hfinal.
    destruct (at_first_last first final Hfirst Hfinal) as [H0 Hn].
    unfold nextPolicy. rewrite H0. simpl. rewrite Hn. simpl. now rewrite Hlt.
  - intros final Hfinal Hgt.
    destruct (lookup_lt_is_Some_2 registry 0%nat) as [first Hfirst].
    { destruct registry; [discriminate|simpl; lia]. }
    destruct (at_first_last first final Hfirst Hfinal) as [H0 Hn].
    unfold nextPolicy. rewrite H0. simpl. rewrite Hn. simpl.
    assert (Hord : Float64.leb (dist first) (dist final) = true).
    { rewrite last_lookup in Hfinal.
      apply (Hasc 0%nat (pred (length registry)) first final); [lia|exact Hfirst|exact Hfinal]. }
    rewrite (ltb_asym _ _ (leb_ltb_trans _ _ _ Hord Hgt)). now rewrite Hgt.
  - intros i lo hi Hlo Hhi Hbelow Habove Htie.
    destruct (lookup_lt_is_Some_2 registry 0%nat) as [first Hfirst].
    { apply lookup_lt_Some in Hlo. lia. }
    destruct (lookup_lt_is_Some_2 registry (pred (length registry))) as [final Hfinal].
    { apply lookup_lt_Some in Hlo. lia. }
    pose proof (lookup_lt_Some _ _ _ Hhi) as Hlen.
    assert (Hf : Float64.ltb d (dist first) = false).
    { apply ltb_asym, leb_ltb_trans with (dist lo); [|exact Hbelow].
      apply (Hasc 0%nat i first lo); [lia|exact Hfirst|exact Hlo]. }
    assert (Hl : Float64.gtb d (dist final) = false).
    { apply ltb_asym, ltb_leb_trans with (dist hi); [exact Habove|].
      apply (Hasc (S i) (pred (length registry)) hi final); [lia|exact Hhi|exact Hfinal]. }
    rewrite <- last_lookup in Hfinal.
    destruct (at_first_last first final Hfirst Hfinal) as [H0 Hn].
    unfold nextPolicy. rewrite H0. simpl. rewrite Hn. simpl. rewrite Hf, Hl.
    rewrite (search_between d i lo hi Hlo Hhi Hbelow Habove) by lia.
    simpl. unfold closest.
    replace (Z.of_nat i + 1) with (Z.of_nat (S i)) by lia.
    rewrite (at_lookup _ _ Hhi), (at_lookup _ _ Hlo). simpl.
    destruct (eqb_not_gtb _ _ Htie) as [H1 H2]. now rewrite H1, H2.
Qed.

End NextPolicy.

Lemma twoPolicies_ascending : SchedPolicy.ascending Scenario.twoPolicies.
Proof.
  intros i j a b Hij Ha Hb.
  destruct i as [|[|i]], j as [|[|j]]; simpl in Ha, Hb; try discriminate; try lia;
    injection Ha as <-; injection Hb as <-; reflexivity.
Qed.

Lemma nextPolicy_clamps_and_ties_low_witness :
  SchedPolicy.nextPolicy "bin-packing" Scenario.twoPolicies (Float64.of_Z 0) None
    = Go.Ok ("first-fit", Float64.of_Z 0)
  /\ SchedPolicy.nextPolicy "bin-packing" Scenario.twoPolicies (Float64.of_Z 9) None
     = Go.Ok ("max-min", Float64.of_Z 9)
  /\ SchedPolicy.nextPolicy "bin-packing" Scenario.twoPolicies (Float64.of_Z 2) None
     = Go.Ok ("first-fit", Float64.of_Z 2).
Proof.
  split; [|split].
  - apply (proj1 (nextPolicy_clamps_and_ties_low "bin-packing" Scenario.twoPolicies
                    twoPolicies_ascending (Float64.of_Z 0))
             (Scenario.declared "first-fit" 1)); reflexivity.
  - apply (proj1 (proj2 (nextPolicy_clamps_and_ties_low "bin-packing" Scenario.twoPolicies
                    twoPolicies_ascending (Float64.of_Z 9)))
             (Scenario.declared "max-min" 3)); reflexivity.
  - apply (proj2 (proj2 (nextPolicy_clamps_and_ties_low "bin-packing" Scenario.twoPolicies
                    twoPolicies_ascending (Float64.of_Z 2)))
             0%nat (Scenario.declared "first-fit" 1) (Scenario.declared "max-min" 3));
      reflexivity.
Defined.

(** C2 (as the specification has it) fails: between the declared
    distributions 1 and 3 the distribution 2 is a tie, and nextPolicy
    answers with the policy declared at 1, not with the one at the higher
    index. *)
Lemma ties_do_not_break_to_higher_index : ~ Scenario.tiesBreakToHigherIndex.
Proof.
  intros H.
  specialize (H "bin-packing" Scenario.twoPolicies (Float64.of_Z 2) 0%nat
                (Scenario.declared "first-fit" 1) (Scenario.declared "max-min" 3)
                twoPolicies_ascending eq_refl eq_refl eq_refl eq_refl eq_refl).
  vm_compute in H. discriminate H.
Qed.

(** ** Bin packing: binpacksortedwatts.go and bpswClassMapWatts.go *)

Section BinPackLoops.

Import BinPack.

Variable wattsOf : Mesos.Offer -> Def.Task -> float64.
Variable offer : Mesos.Offer.

Lemma newTask_shape (s s' : Scheduler) (task : Def.Task) (ti : Mesos.TaskInfo) :
  newTask s offer task = Go.Ok (s', ti) ->
  ignoreWatts s' = ignoreWatts s /\ tasks s' = tasks s /\ Shutdown s' = Shutdown s
  /\ Mesos.scalars "cpus" (Mesos.ti_Resources ti) = [Def.CPU task]
  /\ Mesos.scalars "mem" (Mesos.ti_Resources ti) = [Def.RAM task]
  /\ Mesos.scalars "watts" (Mesos.ti_Resources ti)
     = if ignoreWatts s then [] else [Def.Watts task].
Proof.
  unfold newTask, deref. destruct (insts s !! Def.Instances task); simpl; [|discriminate].
  intros [= <- <-]. simpl. repeat split; destruct (ignoreWatts s); reflexivity.
Qed.

(** What one placement does to the loop. *)
Lemma place_spec (i : nat) (task : Def.Task) (n : Z) (l l' : Loop) :
  place wattsOf offer i task n l = Go.Ok l' ->
  exists (s1 : Scheduler) (ti : Mesos.TaskInfo),
    newTask (sched l) offer task = Go.Ok (s1, ti)
    /\ taken l' = true
    /\ totalWatts l' = Float64.add (totalWatts l) (wattsOf offer task)
    /\ totalCPU l' = Float64.add (totalCPU l) (Def.CPU task)
    /\ totalRAM l' = Float64.add (totalRAM l) (Def.RAM task)
    /\ launch l' = launch l ++ [ti]
    /\ charged l' = charged l ++ [wattsOf offer task]
    /\ ignoreWatts (sched l') = ignoreWatts (sched l)
    /\ (tasks (sched l') = tasks (sched l) /\ Shutdown (sched l') = Shutdown (sched l)
        \/ tasks (sched l') <> []
        \/ Shutdown (sched l') = true).
Proof.
  unfold place. destruct (newTask (sched l) offer task) as [[s1 ti]|] eqn:Hnew;
    simpl; [|discriminate].
  destruct (newTask_shape _ _ _ _ Hnew) as (Hiw & Hts & Hsh & _).
  intros H. exists s1, ti. split; [reflexivity|].
  destruct (n - 1 <=? 0).
  - unfold removeAt in H. simpl in H.
    destruct (length (tasks s1) <? i + 1)%nat; simpl in H; [discriminate|].
    match type of H with
    | (if (length ?ts <=? 0)%nat then _ else _) = _ =>
        destruct (Nat.leb_spec (length ts) 0) as [Hnil|Hcons]
    end.
    + unfold closeShutdown in H. simpl in H.
      destruct (Shutdown s1); [discriminate|]. injection H as <-. simpl.
      repeat split; auto.
    + injection H as <-. simpl. repeat split; auto.
      right; left. intros Heq. rewrite Heq in Hcons. simpl in Hcons. lia.
  - injection H as <-. simpl. repeat split; auto.
Qed.

(** A property that every placement keeps is kept by the three loops. *)
Section Preserved.

Variable P : Loop -> Prop.

Hypothesis P_place :
  forall (i : nat) (task : Def.Task) (n : Z) (l l' : Loop),
    P l -> fits wattsOf offer task l = true ->
    place wattsOf offer i task n l = Go.Ok l' -> P l'.

Lemma instancesLoop_preserves (fuel i : nat) (task : Def.Task) :
  forall l l' : Loop,
    P l -> instancesLoop wattsOf fuel offer i task l = Go.Ok l' -> P l'.
Proof.
  induction fuel as [|fuel IH]; intros l l' HP; simpl.
  - now intros [= <-].
  - destruct (deref (sched l) (Def.Instances task)) as [n|]; simpl; [|discriminate].
    destruct (n >? 0); [|now intros [= <-]].
    destruct (fits wattsOf offer task l) eqn:Hfit; [|now intros [= <-]].
    destruct (place wattsOf offer i task n l) as [l1|] eqn:Hplace; simpl; [|discriminate].
    apply IH. exact (P_place i task n l l1 HP Hfit Hplace).
Qed.

Lemma visit_preserves (i : nat) (l l' : Loop) :
  P l -> visit wattsOf offer i l = Go.Ok l' -> P l'.
Proof.
  intros HP. unfold visit.
  destruct ((tasks (sched l) ++ stale l) !! i) as [task|]; [|discriminate].
  destruct (negb (Def.Host task =? "")%string && _); [now intros [= <-]|].
  destruct (deref (sched l) (Def.Instances task)) as [n|]; simpl; [|discriminate].
  now apply instancesLoop_preserves.
Qed.

Lemma rangeTasks_preserves (k : nat) :
  forall (i : nat) (l l' : Loop),
    P l -> rangeTasks wattsOf k offer i l = Go.Ok l' -> P l'.
Proof.
  induction k as [|k IH]; intros i l l' HP; simpl.
  - now intros [= <-].
  - destruct (visit wattsOf offer i l) as [l1|] eqn:Hvisit; simpl; [|discriminate].
    apply IH. exact (visit_preserves i l l1 HP Hvisit).
Qed.

End Preserved.

Lemma requested_snoc (name : string) (tis : list Mesos.TaskInfo) (ti : Mesos.TaskInfo)
    (x : float64) :
  Mesos.scalars name (Mesos.ti_Resources ti) = [x] ->
  Mesos.requested name (tis ++ [ti]) = Float64.add (Mesos.requested name tis) x.
Proof.
  intros Hx. unfold Mesos.requested. rewrite bind_app. simpl.
  rewrite Hx, app_nil_r. apply sum_snoc.
Qed.

Lemma requested_snoc_none (name : string) (tis : list Mesos.TaskInfo)
    (ti : Mesos.TaskInfo) :
  Mesos.scalars name (Mesos.ti_Resources ti) = [] ->
  Mesos.requested name (tis ++ [ti]) = Mesos.requested name tis.
Proof.
  intros Hx. unfold Mesos.requested. rewrite bind_app. simpl.
  now rewrite Hx, !app_nil_r.
Qed.

(** The fit test is what puts the next totals within the offer. *)
Lemma fits_within (accountWatts : bool) (task : Def.Task) (l : Loop) :
  ignoreWatts (sched l) = negb accountWatts ->
  fits wattsOf offer task l = true ->
  Invariant.within offer
    (Float64.add (totalCPU l) (Def.CPU task))
    (Float64.add (totalRAM l) (Def.RAM task))
    (if accountWatts
     then Some (Float64.add (totalWatts l) (wattsOf offer task)) else None).
Proof.
  intros Hiw. unfold fits, Invariant.within.
  destruct (OfferUtils.OfferAgg offer) as [[offer_cpu offer_ram] offer_watts].
  rewrite Hiw. unfold Float64.geb, Float64.leb.
  intros H. apply andb_true_iff in H as [H Hram]. apply andb_true_iff in H as [Hw Hcpu].
  repeat split; try assumption.
  destruct accountWatts; [exact Hw|exact I].
Qed.

Lemma place_binPack (accountWatts : bool) (i : nat) (task : Def.Task) (n : Z)
    (l l' : Loop) :
  Invariant.binPack accountWatts offer l ->
  fits wattsOf offer task l = true ->
  place wattsOf offer i task n l = Go.Ok l' ->
  Invariant.binPack accountWatts offer l'.
Proof.
  intros (Hiw & Hcpu & Hram & Hw & Hlen & _) Hfit Hplace.
  destruct (place_spec _ _ _ _ _ Hplace)
    as (s1 & ti & Hnew & Htaken & Hw' & Hcpu' & Hram' & Hlaunch & Hcharged & Hiw' & _).
  destruct (newTask_shape _ _ _ _ Hnew) as (_ & _ & _ & Hc & Hm & _).
  unfold Invariant.binPack.
  rewrite Htaken, Hw', Hcpu', Hram', Hlaunch, Hcharged, Hiw'.
  rewrite (requested_snoc "cpus" _ _ _ Hc), (requested_snoc "mem" _ _ _ Hm), sum_snoc.
  rewrite !length_app. simpl.
  do 5 (split; [congruence|]).
  now apply fits_within.
Qed.

Lemma enter_binPack (s : Scheduler) :
  Invariant.binPack (negb (ignoreWatts s)) offer (enter s).
Proof.
  unfold Invariant.binPack. simpl. rewrite negb_involutive.
  do 5 (split; [reflexivity|]). reflexivity.
Qed.

(** The loop over an offer keeps the totals within the offer. *)
Lemma offerLoop_binPack (s : Scheduler) (l : Loop) :
  offerLoop wattsOf s offer = Go.Ok l ->
  Invariant.binPack (negb (ignoreWatts s)) offer l.
Proof.
  unfold offerLoop.
  apply (rangeTasks_preserves (Invariant.binPack (negb (ignoreWatts s)) offer)).
  - intros i task n l0 l1. apply place_binPack.
  - apply enter_binPack.
Qed.

(** The slots the range loop reads stay as many as they were: the loop
    never indexes outside them. *)
Lemma place_slots (i : nat) (task : Def.Task) (n : Z) (l l' : Loop) :
  place wattsOf offer i task n l = Go.Ok l' ->
  length (tasks (sched l') ++ stale l') = length (tasks (sched l) ++ stale l).
Proof.
  unfold place. destruct (newTask (sched l) offer task) as [[s1 ti]|] eqn:Hnew;
    simpl; [|discriminate].
  destruct (newTask_shape _ _ _ _ Hnew) as (_ & Hts & _).
  destruct (n - 1 <=? 0); [|intros [= <-]; simpl; now rewrite Hts].
  unfold removeAt. simpl.
  destruct (Nat.ltb_spec (length (tasks s1)) (i + 1)) as [|Hi]; simpl; [discriminate|].
  assert (Hlen : length ((take i (tasks s1) ++ drop (S i) (tasks s1))
                         ++ drop (length (tasks s1) - 1) (tasks s1) ++ stale l)
                 = length (tasks (sched l) ++ stale l)).
  { rewrite !length_app, length_take, !length_drop. rewrite Hts in *. lia. }
  match goal with
  | |- (if ?c then _ else _) = _ -> _ => destruct c
  end.
  - unfold closeShutdown. simpl. destruct (Shutdown s1); [discriminate|].
    intros [= <-]. exact Hlen.
  - intros [= <-]. exact Hlen.
Qed.

Lemma instancesLoop_in_bounds (fuel i : nat) (task : Def.Task) :
  forall l : Loop,
    instancesLoop wattsOf fuel offer i task l <> Go.Fail Go.IndexRange.
Proof.
  induction fuel as [|fuel IH]; intros l; simpl; [discriminate|].
  unfold deref. destruct (insts (sched l) !! Def.Instances task) as [n|]; simpl;
    [|discriminate].
  destruct (n >? 0); [|discriminate].
  destruct (fits wattsOf offer task l); [|discriminate].
  destruct (place wattsOf offer i task n l) as [l1|f] eqn:Hplace; simpl; [apply IH|].
  intros [= ->]. revert Hplace. unfold place, newTask, deref.
  destruct (insts (sched l) !! Def.Instances task); simpl; [|discriminate].
  destruct (n - 1 <=? 0); [|discriminate].
  unfold removeAt. simpl.
  match goal with
  | |- context [(?a <? ?b)%nat] => destruct (a <? b)%nat; simpl; [discriminate|]
  end.
  match goal with
  | |- (if ?c then _ else _) = _ -> _ => destruct c; [|discriminate]
  end.
  unfold closeShutdown. simpl. destruct (Shutdown (sched l)); discriminate.
Qed.

Lemma rangeTasks_in_bounds (k : nat) :
  forall (i : nat) (l : Loop),
    (i + k <= length (tasks (sched l) ++ stale l))%nat ->
    rangeTasks wattsOf k offer i l <> Go.Fail Go.IndexRange.
Proof.
  induction k as [|k IH]; intros i l Hk; simpl; [discriminate|].
  destruct (visit wattsOf offer i l) as [l1|f] eqn:Hvisit; simpl.
  - apply IH.
    assert (Hsame : length (tasks (sched l1) ++ stale l1)
                    = length (tasks (sched l) ++ stale l)); [|lia].
    apply (visit_preserves
             (fun l' => length (tasks (sched l') ++ stale l')
                        = length (tasks (sched l) ++ stale l)))
      with (3 := Hvisit); [|reflexivity].
    intros j task n l0 l2 H0 _ Hplace. rewrite <- H0. now apply place_slots with j task n.
  - intros [= ->]. revert Hvisit. unfold visit.
    destruct (lookup_lt_is_Some_2 (tasks (sched l) ++ stale l) i) as [task ->]; [lia|].
    destruct (negb _ && _); [discriminate|].
    unfold deref. destruct (insts (sched l) !! Def.Instances task); simpl; [|discriminate].
    apply instancesLoop_in_bounds.
Qed.

Lemma offerLoop_in_bounds (s : Scheduler) :
  offerLoop wattsOf s offer <> Go.Fail Go.IndexRange.
Proof.
  unfold offerLoop. apply rangeTasks_in_bounds. simpl. rewrite app_nil_r. lia.
Qed.

Lemma place_emptyIsShutdown (i : nat) (task : Def.Task) (n : Z) (l l' : Loop) :
  Invariant.emptyIsShutdown (sched l) ->
  place wattsOf offer i task n l = Go.Ok l' ->
  Invariant.emptyIsShutdown (sched l').
Proof.
  intros HJ Hplace.
  destruct (place_spec _ _ _ _ _ Hplace)
    as (_ & _ & _ & _ & _ & _ & _ & _ & _ & _ & [[Hts Hsh]|[Hne|Hsh]]);
    unfold Invariant.emptyIsShutdown in *.
  - rewrite Hts, Hsh. exact HJ.
  - intros Hnil. contradiction.
  - intros _. exact Hsh.
Qed.

Lemma consumeOffer_emptyIsShutdown (s s' : Scheduler) (call : Mesos.DriverCall) :
  Invariant.emptyIsShutdown s ->
  consumeOffer wattsOf s offer = Go.Ok (s', call) ->
  Invariant.emptyIsShutdown s'.
Proof.
  intros HJ. unfold consumeOffer.
  destruct (Shutdown s); [now intros [= <- _]|].
  destruct (offerLoop wattsOf s offer) as [l|] eqn:Hloop; simpl; [|discriminate].
  assert (HJl : Invariant.emptyIsShutdown (sched l)).
  { unfold offerLoop in Hloop.
    apply (rangeTasks_preserves (fun l => Invariant.emptyIsShutdown (sched l)))
      with (3 := Hloop); [|exact HJ].
    intros i task n l0 l1 H0 _. now apply place_emptyIsShutdown. }
  destruct (taken l); now intros [= <- _].
Qed.

End BinPackLoops.

Section BinPackBatches.

Import BinPack Scenario.

Variable wattsOf : Mesos.Offer -> Def.Task -> float64.

Lemma ResourceOffers_emptyIsShutdown (offers : list Mesos.Offer) :
  forall (s s' : Scheduler) (calls : list Mesos.DriverCall),
    Invariant.emptyIsShutdown s ->
    ResourceOffers wattsOf s offers = Go.Ok (s', calls) ->
    Invariant.emptyIsShutdown s'.
Proof.
  induction offers as [|offer rest IH]; intros s s' calls HJ; simpl.
  - now intros [= <- _].
  - destruct (consumeOffer wattsOf s offer) as [[s1 call]|] eqn:Hone; simpl; [|discriminate].
    destruct (ResourceOffers wattsOf s1 rest) as [[s2 calls2]|] eqn:Hrest; simpl;
      [|discriminate].
    intros [= <- _]. apply (IH s1 s2 calls2); [|exact Hrest].
    exact (consumeOffer_emptyIsShutdown wattsOf offer s s1 call HJ Hone).
Qed.

(** After the close every offer is declined with the long filter and the
    scheduler stays as it is. *)
Lemma ResourceOffers_after_shutdown (s : Scheduler) (offers : list Mesos.Offer) :
  Shutdown s = true ->
  ResourceOffers wattsOf s offers = Go.Ok (s, declines MesosUtils.LongFilter offers).
Proof.
  intros Hsh. induction offers as [|offer rest IH]; simpl; [reflexivity|].
  unfold consumeOffer. rewrite Hsh. simpl. rewrite IH. reflexivity.
Qed.

Lemma ResourceOffers_app (s : Scheduler) (offers later : list Mesos.Offer) :
  ResourceOffers wattsOf s (offers ++ later)
  = Go.bind (ResourceOffers wattsOf s offers)
      (fun r =>
         Go.bind (ResourceOffers wattsOf (fst r) later)
           (fun r' => Go.Ok (fst r', snd r ++ snd r'))).
Proof.
  revert s. induction offers as [|offer rest IH]; intros s; simpl.
  - destruct (ResourceOffers wattsOf s later) as [[s1 calls]|]; reflexivity.
  - destruct (consumeOffer wattsOf s offer) as [[s1 call]|]; simpl; [|reflexivity].
    rewrite IH.
    destruct (ResourceOffers wattsOf s1 rest) as [[s2 calls2]|]; simpl; [|reflexivity].
    destruct (ResourceOffers wattsOf s2 later) as [[s3 calls3]|]; reflexivity.
Qed.

End BinPackBatches.

(** C8: when a batch of offers leaves the pending queue of
    BinPackSortedWatts empty, [Shutdown] is closed; every offer that follows,
    in the same batch or in a later one, is declined with LongFilter, the
    refusal of 1000 seconds, and no task is considered for it. *)
Theorem shutdown_then_long_filter (s s' : BinPack.Scheduler)
    (offers : list Mesos.Offer) (calls : list Mesos.DriverCall) :
  BinPack.tasks s <> [] ->
  BinPackSortedWatts.ResourceOffers s offers = Go.Ok (s', calls) ->
  BinPack.tasks s' = [] ->
  BinPack.Shutdown s' = true
  /\ Mesos.RefuseSeconds MesosUtils.LongFilter = Float64.of_Z 1000
  /\ forall later : list Mesos.Offer,
       BinPackSortedWatts.ResourceOffers s' later
         = Go.Ok (s', Scenario.declines MesosUtils.LongFilter later)
       /\ BinPackSortedWatts.ResourceOffers s (offers ++ later)
          = Go.Ok (s', calls ++ Scenario.declines MesosUtils.LongFilter later).
Proof.
  intros Hpending Hbatch Hempty. unfold BinPackSortedWatts.ResourceOffers in *.
  assert (Hclosed : BinPack.Shutdown s' = true).
  { apply (ResourceOffers_emptyIsShutdown BinPack.taskWatts offers s s' calls);
      [|exact Hbatch|exact Hempty].
    intros Hnil. contradiction. }
  split; [exact Hclosed|]. split; [reflexivity|].
  intros later.
  pose proof (ResourceOffers_after_shutdown BinPack.taskWatts s' later Hclosed) as Hlater.
  split; [exact Hlater|].
  rewrite ResourceOffers_app, Hbatch. simpl. rewrite Hlater. reflexivity.
Qed.

Lemma shutdown_then_long_filter_witness :
  BinPack.Shutdown Scenario.exactFitDone = true
  /\ Mesos.RefuseSeconds MesosUtils.LongFilter = Float64.of_Z 1000
  /\ forall later : list Mesos.Offer,
       BinPackSortedWatts.ResourceOffers Scenario.exactFitDone later
         = Go.Ok (Scenario.exactFitDone, Scenario.declines MesosUtils.LongFilter later)
       /\ BinPackSortedWatts.ResourceOffers Scenario.exactFit
            ([Scenario.exactOffer] ++ later)
          = Go.Ok (Scenario.exactFitDone,
                   Scenario.exactFitCalls
                   ++ Scenario.declines MesosUtils.LongFilter later).
Proof.
  apply (shutdown_then_long_filter Scenario.exactFit Scenario.exactFitDone
           [Scenario.exactOffer] Scenario.exactFitCalls).
  - discriminate.
  - vm_compute. reflexivity.
  - reflexivity.
Defined.

(** Scenario 1 of the specification, end to end: the exact fit is
    launched, the queue is empty, [Shutdown] is closed, and the offer that
    follows is declined for 1000 seconds. *)
Lemma scenario_exact_fit :
  BinPackSortedWatts.ResourceOffers Scenario.exactFit
    [Scenario.exactOffer; Scenario.nextOffer]
  = Go.Ok (Scenario.exactFitDone,
           Scenario.exactFitCalls
           ++ [Mesos.DeclineOffer "offer-2" (Mesos.mkFilters (Float64.of_Z 1000))]).
Proof. vm_compute. reflexivity. Qed.

Section BinPackWithin.

Import BinPack.

Variable offer : Mesos.Offer.

Lemma place_launchesCharged (i : nat) (task : Def.Task) (n : Z) (l l' : Loop) :
  Invariant.launchesCharged l ->
  place taskWatts offer i task n l = Go.Ok l' ->
  Invariant.launchesCharged l'.
Proof.
  intros HI Hplace.
  destruct (place_spec _ _ _ _ _ _ _ Hplace)
    as (s1 & ti & Hnew & _ & Hw' & _ & _ & Hlaunch & _ & Hiw' & _).
  destruct (newTask_shape _ _ _ _ _ Hnew) as (_ & _ & _ & _ & _ & Hw).
  unfold Invariant.launchesCharged in *. rewrite Hiw', Hw', Hlaunch.
  intros Hon. rewrite Hon in Hw.
  rewrite (requested_snoc "watts" _ _ _ Hw), (HI Hon). reflexivity.
Qed.

(** binpacksortedwatts.go: the tasks launched on an offer ask, in each
    dimension, for no more than the offer holds. *)
Lemma BinPackSortedWatts_within (s s' : Scheduler) (ids : list string)
    (tis : list Mesos.TaskInfo) (filters : Mesos.Filters) :
  BinPackSortedWatts.consumeOffer s offer = Go.Ok (s', Mesos.LaunchTasks ids tis filters) ->
  Invariant.within offer (Mesos.requested "cpus" tis) (Mesos.requested "mem" tis)
    (if ignoreWatts s then None else Some (Mesos.requested "watts" tis)).
Proof.
  unfold BinPackSortedWatts.consumeOffer, consumeOffer.
  destruct (Shutdown s); [discriminate|].
  destruct (offerLoop taskWatts s offer) as [l|] eqn:Hloop; simpl; [|discriminate].
  pose proof (offerLoop_binPack _ _ _ _ Hloop) as (Hiw & Hcpu & Hram & _ & _ & Hin).
  assert (Hw : Invariant.launchesCharged l).
  { unfold offerLoop in Hloop.
    apply (rangeTasks_preserves taskWatts offer Invariant.launchesCharged)
      with (3 := Hloop); [|intros _; reflexivity].
    intros i task n l0 l1 H0 _. now apply place_launchesCharged. }
  destruct (taken l); [|discriminate].
  intros [= _ _ <- _]. rewrite <- Hcpu, <- Hram.
  destruct (ignoreWatts s) eqn:Hs; simpl in Hin; [exact Hin|].
  rewrite (Hw Hiw). exact Hin.
Qed.

Lemma consumeOffer_ignoreWatts (wattsOf : Mesos.Offer -> Def.Task -> float64)
    (s s' : Scheduler) (call : Mesos.DriverCall) :
  consumeOffer wattsOf s offer = Go.Ok (s', call) -> ignoreWatts s' = ignoreWatts s.
Proof.
  unfold consumeOffer. destruct (Shutdown s); [now intros [= <- _]|].
  destruct (offerLoop wattsOf s offer) as [l|] eqn:Hloop; simpl; [|discriminate].
  assert (Hiw : ignoreWatts (sched l) = ignoreWatts s).
  { unfold offerLoop in Hloop.
    apply (rangeTasks_preserves wattsOf offer
             (fun l => ignoreWatts (sched l) = ignoreWatts s))
      with (3 := Hloop); [|reflexivity].
    intros i task n l0 l1 H0 _ Hplace.
    destruct (place_spec _ _ _ _ _ _ _ Hplace) as (_ & _ & _ & _ & _ & _ & _ & _ & _ & Hiw & _).
    congruence. }
  destruct (taken l); now intros [= <- _].
Qed.

(** bpswClassMapWatts.go: the same for cpu and memory; the watts within
    the offer are the ones charged for the class of the node. *)
Lemma BPSWClassMapWatts_within (s : Scheduler) (l : Loop) :
  Shutdown s = false ->
  BPSWClassMapWatts.offerLoop s offer = Go.Ok l ->
  taken l = true ->
  BPSWClassMapWatts.consumeOffer s offer
    = Go.Ok (sched l,
             Mesos.LaunchTasks [Mesos.Id offer] (launch l) MesosUtils.DefaultFilter)
  /\ length (charged l) = length (launch l)
  /\ Invariant.within offer
       (Mesos.requested "cpus" (launch l)) (Mesos.requested "mem" (launch l))
       (if ignoreWatts s then None else Some (Float64.sum (charged l))).
Proof.
  unfold BPSWClassMapWatts.offerLoop, BPSWClassMapWatts.consumeOffer, consumeOffer.
  intros Hsh Hloop Htaken. rewrite Hsh, Hloop. simpl. rewrite Htaken.
  split; [reflexivity|].
  pose proof (offerLoop_binPack _ _ _ _ Hloop) as (_ & Hcpu & Hram & Hw & Hlen & Hin).
  split; [exact Hlen|].
  rewrite Htaken in Hin. rewrite <- Hcpu, <- Hram, <- Hw.
  destruct (ignoreWatts s); exact Hin.
Qed.

End BinPackWithin.

(** Over a batch: every call BinPackSortedWatts makes stays within the
    offer it answers. *)
Lemma BinPackSortedWatts_batch_within (offers : list Mesos.Offer) :
  forall (s s' : BinPack.Scheduler) (calls : list Mesos.DriverCall),
    BinPackSortedWatts.ResourceOffers s offers = Go.Ok (s', calls) ->
    Forall2 (Invariant.callWithin (negb (BinPack.ignoreWatts s))) offers calls.
Proof.
  unfold BinPackSortedWatts.ResourceOffers.
  induction offers as [|offer rest IH]; intros s s' calls; simpl.
  - intros [= _ <-]. constructor.
  - destruct (BinPack.consumeOffer BinPack.taskWatts s offer) as [[s1 call]|] eqn:Hone;
      simpl; [|discriminate].
    destruct (BinPack.ResourceOffers BinPack.taskWatts s1 rest) as [[s2 calls2]|] eqn:Hrest;
      simpl; [|discriminate].
    intros [= _ <-]. constructor.
    + destruct call as [ids tis filters|]; simpl; [|exact I].
      pose proof (BinPackSortedWatts_within offer s s1 ids tis filters Hone) as H.
      destruct (BinPack.ignoreWatts s); exact H.
    + rewrite <- (consumeOffer_ignoreWatts offer BinPack.taskWatts s s1 call Hone).
      exact (IH s1 s2 calls2 Hrest).
Qed.

(** ** Max-GreedyMins *)

Section MaxGreedyMinsLoops.

Import MaxGreedyMins.

Variable newTask : Mesos.Offer -> Def.Task -> Z -> Mesos.TaskInfo.
Variable offer : Mesos.Offer.
Variable classMap accountWatts : bool.

Abbreviation Inv := (Invariant.maxGreedyMins classMap accountWatts offer).

Lemma removeAt_flags (i : nat) (b b' : baseScheduler) :
  removeAt i b = Go.Ok b' ->
  classMapWatts b' = classMapWatts b /\ wattsAsAResource b' = wattsAsAResource b.
Proof.
  unfold removeAt. destruct (length (tasks b) <? i + 1)%nat; [discriminate|].
  destruct (length _ <=? 0)%nat; [destruct (Shutdown b); [discriminate|]|];
    intros [= <-]; split; reflexivity.
Qed.

Lemma CheckFit_keeps (i : nat) (task : Def.Task) (w : float64) (l l' : Loop)
    (fit : bool) :
  Def.WattsToConsider task classMap offer = inr w ->
  Inv l ->
  CheckFit newTask i task w offer l = Go.Ok (fit, l') ->
  Inv l'.
Proof.
  intros Hw (Hcm & Haw & Hcpu & Hram & Hwatts & Hlen & Hall & Hin).
  unfold CheckFit, takeOffer, wattsOrFatal.
  destruct (OfferUtils.OfferAgg offer) as [[cpus mem] watts] eqn:Hagg.
  rewrite Hcm, Hw. simpl.
  match goal with |- context [if ?c then _ else _] => destruct c eqn:Hfit end;
    [|intros [= _ <-]; repeat split; assumption].
  destruct (deref (base l) (Def.Instances task)) as [n|]; simpl; [|discriminate].
  match goal with
  | |- context [Go.bind ?r _] => destruct r as [b2|] eqn:Hb2; simpl; [|discriminate]
  end.
  intros [= _ <-]. unfold Invariant.maxGreedyMins. simpl.
  assert (Hflags : classMapWatts b2 = classMap
                   /\ wattsAsAResource b2 = wattsAsAResource (base l)).
  { destruct (n - 1 <=? 0).
    - apply removeAt_flags in Hb2. simpl in Hb2. exact Hb2.
    - injection Hb2 as <-. split; reflexivity. }
  destruct Hflags as [-> ->].
  rewrite !fmap_app. cbn [fmap list_fmap]. rewrite !sum_snoc, !length_app. simpl.
  do 6 (split; [congruence|]).
  split; [apply Forall_app; split; [exact Hall|constructor; [exact Hw|constructor]]|].
  unfold Invariant.within. rewrite Hagg.
  apply andb_true_iff in Hfit as [Hfit Hwfit]. apply andb_true_iff in Hfit as [Hc Hm].
  rewrite Haw in Hwfit.
  split; [exact Hc|]. split; [exact Hm|].
  destruct accountWatts; [exact Hwfit|exact I].
Qed.

Lemma wattsOrFatal_Ok (l : Loop) (task : Def.Task) (w : float64) :
  Inv l ->
  wattsOrFatal (base l) task offer = Go.Ok w ->
  Def.WattsToConsider task classMap offer = inr w.
Proof.
  intros (Hcm & _). unfold wattsOrFatal. rewrite Hcm.
  destruct (Def.WattsToConsider task classMap offer); [discriminate|].
  now intros [= ->].
Qed.

Lemma heaviest_keeps (k : nat) :
  forall l l' : Loop, Inv l -> heaviest newTask k offer l = Go.Ok l' -> Inv l'.
Proof.
  induction k as [|k IH]; intros l l' HI; simpl; [now intros [= <-]|].
  destruct (tasks (base l) !! k) as [task|]; [|discriminate].
  destruct (wattsOrFatal (base l) task offer) as [w|] eqn:Hw; simpl; [|discriminate].
  destruct (OfferUtils.HostMismatch _ _); [now apply IH|].
  destruct (CheckFit newTask k task w offer l) as [[fit l1]|] eqn:Hfit; simpl;
    [|discriminate].
  pose proof (CheckFit_keeps _ _ _ _ _ _ (wattsOrFatal_Ok _ _ _ HI Hw) HI Hfit) as H1.
  destruct fit; [now intros [= <-]|now apply IH].
Qed.

Lemma instancesLoop_keeps (fuel i : nat) (task : Def.Task) (w : float64) :
  Def.WattsToConsider task classMap offer = inr w ->
  forall l l' : Loop,
    Inv l -> instancesLoop newTask fuel i task w offer l = Go.Ok l' -> Inv l'.
Proof.
  intros Hw. induction fuel as [|fuel IH]; intros l l' HI; simpl; [now intros [= <-]|].
  destruct (deref (base l) (Def.Instances task)) as [n|]; simpl; [|discriminate].
  destruct (n >? 0); [|now intros [= <-]].
  destruct (CheckFit newTask i task w offer l) as [[fit l1]|] eqn:Hfit; simpl;
    [|discriminate].
  pose proof (CheckFit_keeps _ _ _ _ _ _ Hw HI Hfit) as H1.
  destruct fit; [now apply IH|now intros [= <-]].
Qed.

Lemma lightest_keeps (k : nat) :
  forall (i : nat) (l l' : Loop),
    Inv l -> lightest newTask k i offer l = Go.Ok l' -> Inv l'.
Proof.
  induction k as [|k IH]; intros i l l' HI; simpl; [now intros [= <-]|].
  destruct (tasks (base l) !! i) as [task|]; [|now intros [= <-]].
  destruct (wattsOrFatal (base l) task offer) as [w|] eqn:Hw; simpl; [|discriminate].
  destruct (OfferUtils.HostMismatch _ _); [now apply IH|].
  destruct (deref (base l) (Def.Instances task)) as [n|]; simpl; [|discriminate].
  destruct (instancesLoop newTask (Z.to_nat n) i task w offer l) as [l1|] eqn:Hloop;
    simpl; [|discriminate].
  apply IH.
  exact (instancesLoop_keeps _ _ _ _ (wattsOrFatal_Ok _ _ _ HI Hw) _ _ HI Hloop).
Qed.

End MaxGreedyMinsLoops.

(** MaxGreedyMins: what is placed on an offer is charged, in each
    dimension, no more than the offer holds, and is what is launched. *)
Lemma MaxGreedyMins_within
    (newTask : Mesos.Offer -> Def.Task -> Z -> Mesos.TaskInfo)
    (b : MaxGreedyMins.baseScheduler) (offer : Mesos.Offer) (l : MaxGreedyMins.Loop) :
  MaxGreedyMins.Shutdown b = false ->
  MaxGreedyMins.offerLoop newTask b offer = Go.Ok l ->
  MaxGreedyMins.offerTaken l = true ->
  MaxGreedyMins.consumeOffer newTask b offer
    = Go.Ok (MaxGreedyMins.base l,
             Mesos.LaunchTasks [Mesos.Id offer] (MaxGreedyMins.launch l)
               MesosUtils.DefaultFilter)
  /\ length (MaxGreedyMins.launch l) = length (MaxGreedyMins.placed l)
  /\ Invariant.within offer
       (Float64.sum ((fun p => Def.CPU (fst p)) <$> MaxGreedyMins.placed l))
       (Float64.sum ((fun p => Def.RAM (fst p)) <$> MaxGreedyMins.placed l))
       (if MaxGreedyMins.wattsAsAResource b
        then Some (Float64.sum (snd <$> MaxGreedyMins.placed l)) else None).
Proof.
  intros Hsh Hloop Htaken. unfold MaxGreedyMins.consumeOffer.
  rewrite Hsh, Hloop. simpl. rewrite Htaken. split; [reflexivity|].
  unfold MaxGreedyMins.offerLoop in Hloop.
  destruct (MaxGreedyMins.heaviest newTask _ offer _) as [l1|] eqn:Hheavy;
    simpl in Hloop; [|discriminate].
  assert (H0 : Invariant.maxGreedyMins (MaxGreedyMins.classMapWatts b)
                 (MaxGreedyMins.wattsAsAResource b) offer (MaxGreedyMins.enter b)).
  { unfold Invariant.maxGreedyMins. simpl.
    do 6 (split; [reflexivity|]). split; [constructor|reflexivity]. }
  pose proof (heaviest_keeps _ _ _ _ _ _ _ H0 Hheavy) as H1.
  pose proof (lightest_keeps _ _ _ _ _ _ _ _ H1 Hloop)
    as (_ & _ & Hcpu & Hram & Hw & Hlen & _ & Hin).
  split; [exact Hlen|].
  rewrite Htaken in Hin. rewrite <- Hcpu, <- Hram, <- Hw. exact Hin.
Qed.

(** ** Ranked cluster-wide capping *)

Section RankedScheduler.

Import Ranked Invariant.

Variable Capper : Type.
Variable FCFSDeterminedCap :
  Capper -> gmap string float64 -> Def.Task -> Capper * (string + float64).
Variable TaskFinished : Capper -> string -> Capper.
Variable CleverRecap :
  Capper -> gmap string float64 -> gmap string (list (string * Def.Task)) ->
  string -> Capper * (string + float64).
Variable Hosts : list string.
Variable sortByWatts : list Def.Task -> list Def.Task.

Abbreviation State := (Scheduler Capper).

Lemma schedule_launches_one (s s' : State) (offer : Mesos.Offer) (i : nat)
    (task : Def.Task) (call : Mesos.DriverCall) :
  schedule Capper FCFSDeterminedCap s offer i task = Go.Ok (s', call) ->
  launchesOne (ignoreWatts Capper s) offer task call.
Proof.
  unfold schedule.
  set (s1 := determineCap Capper FCFSDeterminedCap (beginCapping Capper s) task).
  assert (Hiw : ignoreWatts Capper s1 = ignoreWatts Capper s).
  { unfold s1, determineCap, beginCapping.
    destruct (isCapping Capper s);
      destruct (FCFSDeterminedCap _ _ _) as [c [e|tempCap]]; reflexivity. }
  unfold newTask, deref.
  destruct (insts Capper s1 !! Def.Instances task) as [n|]; simpl; [|discriminate].
  match goal with
  | |- context [Mesos.LaunchTasks _ [?t] _] =>
      assert (Hone : launchesOne (ignoreWatts Capper s) offer task
                       (Mesos.LaunchTasks [Mesos.Id offer] [t] MesosUtils.DefaultFilter))
  end.
  { eexists. split; [reflexivity|]. simpl. rewrite Hiw.
    repeat split; destruct (ignoreWatts Capper s); reflexivity. }
  match goal with
  | |- context [Go.bind ?r _] => destruct r as [m|]; simpl; [|discriminate]
  end.
  destruct (m - 1 <=? 0); [|now intros [= _ <-]].
  match goal with |- context [last ?ts] => destruct (last ts); [|discriminate] end.
  match goal with
  | |- context [if ?c then _ else _] => destruct c; [|now intros [= _ <-]]
  end.
  match goal with
  | |- context [Go.bind ?r _] => destruct r; simpl; [|discriminate]
  end.
  now intros [= _ <-].
Qed.

(** The scan leaves the loop with the first task of the queue that passes
    the test, or with none when no task does. *)
Lemma scan_first_fit (offer : Mesos.Offer) (rest : list Def.Task) :
  forall (s s' : State) (i : nat) (found : option Mesos.DriverCall),
    scan Capper FCFSDeterminedCap s offer i rest = Go.Ok (s', found) ->
    match found with
    | None => s' = s /\ Forall (fun t => eligible offer t = false) rest
    | Some call =>
        exists (before : list Def.Task) (task : Def.Task) (after : list Def.Task),
          rest = before ++ task :: after
          /\ Forall (fun t => eligible offer t = false) before
          /\ eligible offer task = true
          /\ launchesOne (ignoreWatts Capper s) offer task call
    end.
Proof.
  induction rest as [|task rest IH]; intros s s' i found; simpl.
  - intros [= <- <-]. split; [reflexivity|constructor].
  - unfold eligible at 1 3.
    destruct (String.prefix (Def.Host task) (Mesos.Hostname offer)) eqn:Hhost; simpl.
    + destruct (takeOffer offer task) eqn:Hfit.
      * destruct (schedule Capper FCFSDeterminedCap s offer i task) as [[s1 call]|] eqn:Hs;
          simpl; [|discriminate].
        intros [= <- <-]. exists [], task, rest.
        split; [reflexivity|]. split; [constructor|].
        split; [unfold eligible; now rewrite Hhost, Hfit|].
        exact (schedule_launches_one _ _ _ _ _ _ Hs).
      * intros H. apply IH in H. destruct found as [call|].
        -- destruct H as (before & t & after & -> & Hnone & Hrest).
           exists (task :: before), t, after. split; [reflexivity|].
           split; [|exact Hrest]. constructor; [|exact Hnone].
           unfold eligible. now rewrite Hhost, Hfit.
        -- destruct H as [-> Hnone]. split; [reflexivity|].
           constructor; [|exact Hnone]. unfold eligible. now rewrite Hhost, Hfit.
    + intros H. apply IH in H. destruct found as [call|].
      * destruct H as (before & t & after & -> & Hnone & Hrest).
        exists (task :: before), t, after. split; [reflexivity|].
        split; [|exact Hrest]. constructor; [|exact Hnone].
        unfold eligible. now rewrite Hhost.
      * destruct H as [-> Hnone]. split; [reflexivity|].
        constructor; [|exact Hnone]. unfold eligible. now rewrite Hhost.
Qed.

(** An offer is answered by one call: a decline, or the launch of one
    instance of the first task of the queue that passes the test. *)
Lemma consumeOffer_one_call (s s' : State) (offer : Mesos.Offer)
    (calls : list Mesos.DriverCall) :
  consumeOffer Capper FCFSDeterminedCap s offer = Go.Ok (s', calls) ->
  (exists filters, calls = [Mesos.DeclineOffer (Mesos.Id offer) filters])
  \/ (exists (before : list Def.Task) (task : Def.Task) (after : list Def.Task)
             (call : Mesos.DriverCall),
        calls = [call]
        /\ tasks Capper s = before ++ task :: after
        /\ Forall (fun t => eligible offer t = false) before
        /\ eligible offer task = true
        /\ launchesOne (ignoreWatts Capper s) offer task call).
Proof.
  unfold consumeOffer. destruct (Shutdown Capper s).
  { intros [= _ <-]. left. eexists. reflexivity. }
  destruct (scan Capper FCFSDeterminedCap s offer 0 (tasks Capper s))
    as [[s1 [call|]]|] eqn:Hscan; simpl; [| |discriminate].
  - intros [= _ <-]. right. apply scan_first_fit in Hscan.
    destruct Hscan as (before & task & after & Hq & Hnone & Hfit & Hone).
    exists before, task, after, call. auto.
  - intros [= _ <-]. left. eexists. reflexivity.
Qed.

Lemma launchesOne_count (ignore : bool) (offer : Mesos.Offer) (task : Def.Task)
    (call : Mesos.DriverCall) :
  launchesOne ignore offer task call -> Scenario.instancesLaunched [call] = 1%nat.
Proof. intros (ti & -> & _). reflexivity. Qed.

Lemma consumeAll_one_each (offers : list Mesos.Offer) :
  forall (s s' : State) (groups : list (list Mesos.DriverCall)),
    consumeAll Capper FCFSDeterminedCap s offers = Go.Ok (s', groups) ->
    Forall2 (fun (_ : Mesos.Offer) calls =>
               length calls = 1%nat /\ (Scenario.instancesLaunched calls <= 1)%nat)
      offers groups.
Proof.
  induction offers as [|offer rest IH]; intros s s' groups; simpl.
  - intros [= _ <-]. constructor.
  - destruct (consumeOffer Capper FCFSDeterminedCap s offer) as [[s1 calls]|] eqn:Hone;
      simpl; [|discriminate].
    destruct (consumeAll Capper FCFSDeterminedCap s1 rest) as [[s2 groups2]|] eqn:Hrest;
      simpl; [|discriminate].
    intros [= _ <-]. constructor; [|exact (IH _ _ _ Hrest)].
    destruct (consumeOffer_one_call _ _ _ _ Hone)
      as [[filters ->]|(before & task & after & call & -> & _ & _ & _ & Hcall)].
    + split; [reflexivity|]. unfold Scenario.instancesLaunched. simpl. lia.
    + split; [reflexivity|]. rewrite (launchesOne_count _ _ _ _ Hcall). lia.
Qed.

(** The ranked scheduler launches, on an offer, one task that the offer
    covers in every dimension. *)
Lemma Ranked_within (s s' : State) (offer : Mesos.Offer) (ids : list string)
    (tis : list Mesos.TaskInfo) (filters : Mesos.Filters) :
  consumeOffer Capper FCFSDeterminedCap s offer
    = Go.Ok (s', [Mesos.LaunchTasks ids tis filters]) ->
  Invariant.within offer (Mesos.requested "cpus" tis) (Mesos.requested "mem" tis)
    (if ignoreWatts Capper s then None else Some (Mesos.requested "watts" tis)).
Proof.
  intros H. destruct (consumeOffer_one_call _ _ _ _ H)
    as [[f [=]]|(before & task & after & call & [= <-] & _ & _ & Hfit
                 & ti & [= -> -> ->] & Hc & Hm & Hw)].
  apply andb_true_iff in Hfit as [_ Hfit].
  unfold Invariant.within, takeOffer in *.
  destruct (OfferUtils.OfferAgg offer) as [[offer_cpu offer_mem] offer_watts].
  apply andb_true_iff in Hfit as [Hfit Hwatts]. apply andb_true_iff in Hfit as [Hcpu Hmem].
  unfold Mesos.requested. simpl. rewrite Hc, Hm, Hw, !app_nil_r.
  unfold Float64.sum. cbn [fold_left]. rewrite !leb_add_zero.
  split; [exact Hcpu|]. split; [exact Hmem|].
  destruct (ignoreWatts Capper s); [exact I|].
  cbn [fold_left]. rewrite leb_add_zero. exact Hwatts.
Qed.

(** A terminal status while tasks are still running, with a recap value
    determined without error. *)
Lemma StatusUpdate_recaps (s : State) (status : TaskStatus) (c : Capper)
    (tempCap : float64) :
  IsTerminal (st_State status) = true ->
  tasksRunning Capper s - 1 <> 0 ->
  CleverRecap (TaskFinished (capper Capper s) (st_TaskId status))
    (totalPower Capper s) (taskMonitor Capper s) (st_TaskId status)
    = (c, inr tempCap) ->
  exists s' : State,
    StatusUpdate Capper TaskFinished CleverRecap s status = Go.Ok s'
    /\ isRecapping Capper s'
       = negb (round tempCap =? round (rankedRecapValue Capper s))
    /\ rankedRecapValue Capper s'
       = if round tempCap =? round (rankedRecapValue Capper s)
         then rankedRecapValue Capper s else tempCap.
Proof.
  intros Hterm Hrunning Hrecap.
  unfold StatusUpdate.
  destruct (st_State status) eqn:Hstate; try discriminate Hterm; simpl;
    (destruct (Z.eqb_spec (tasksRunning Capper s - 1) 0) as [Hz|_]; [contradiction|]);
    unfold recap; simpl; rewrite Hrecap;
    destruct (round tempCap =? round (rankedRecapValue Capper s)); simpl;
    eexists; repeat split.
Qed.

End RankedScheduler.



(** An offer with room for five instances of the task gets one: the
    instance is launched, nine are left pending, and the task would pass
    the test of the scan again. *)
Lemma ranked_leaves_room :
  Scenario.launchedNames <$> Scenario.outputOf [] Scenario.rankedOne = [["t-10"]]
  /\ Ranked.insts unit (Scenario.stateOf Scenario.rankedTen Scenario.rankedOne) !! 0%nat
     = Some 9
  /\ Invariant.eligible Scenario.roomForFive (Scenario.task "t" 2 4000 40 0) = true.
Proof. vm_compute. repeat split. Qed.

(** C10: on a terminal status with tasks still running and a recap value
    determined without error, [isRecapping] is set to true if and only if
    the new value and the previous one differ once rounded
    ([int(math.Floor(x + 0.5))]); when they round to the same integer it is
    set to false, the previous value is kept, and the tick of the recap
    ticker that follows calls [rapl.Cap] for no host. *)
Theorem recapping_iff_rounded_cap_differs
    (Capper : Type)
    (TaskFinished : Capper -> string -> Capper)
    (CleverRecap :
       Capper -> gmap string float64 -> gmap string (list (string * Def.Task)) ->
       string -> Capper * (string + float64))
    (Hosts : list string)
    (s : Ranked.Scheduler Capper) (status : Ranked.TaskStatus) (c : Capper)
    (tempCap : float64) :
  Ranked.IsTerminal (Ranked.st_State status) = true ->
  Ranked.tasksRunning Capper s - 1 <> 0 ->
  CleverRecap (TaskFinished (Ranked.capper Capper s) (Ranked.st_TaskId status))
    (Ranked.totalPower Capper s) (Ranked.taskMonitor Capper s)
    (Ranked.st_TaskId status)
    = (c, inr tempCap) ->
  exists s' : Ranked.Scheduler Capper,
    Ranked.StatusUpdate Capper TaskFinished CleverRecap s status = Go.Ok s'
    /\ (Ranked.isRecapping Capper s' = true
        <-> Ranked.round tempCap <> Ranked.round (Ranked.rankedRecapValue Capper s))
    /\ (Ranked.round tempCap = Ranked.round (Ranked.rankedRecapValue Capper s) ->
        Ranked.isRecapping Capper s' = false
        /\ Ranked.rankedRecapValue Capper s' = Ranked.rankedRecapValue Capper s
        /\ snd (Ranked.recapTick Capper Hosts s') = []).
Proof.
  intros Hterm Hrunning Hrecap.
  destruct (StatusUpdate_recaps Capper TaskFinished CleverRecap s status c tempCap
              Hterm Hrunning Hrecap) as (s' & Hs' & Hflag & Hvalue).
  exists s'. split; [exact Hs'|]. rewrite Hflag, Hvalue.
  destruct (Z.eqb_spec (Ranked.round tempCap)
              (Ranked.round (Ranked.rankedRecapValue Capper s))) as [Heq|Hne]; simpl.
  - split; [split; [discriminate|contradiction]|].
    intros _. split; [reflexivity|]. split; [reflexivity|].
    unfold Ranked.recapTick. cbn [snd]. now rewrite Hflag.
  - split; [split; [intros _; exact Hne|reflexivity]|]. contradiction.
Qed.

Lemma recapping_iff_rounded_cap_differs_witness :
  exists s' : Ranked.Scheduler unit,
    Scenario.rankedStatusUpdate (Scenario.rankedDraining 70)
      (Scenario.finished "electron-t-1") = Go.Ok s'
    /\ (Ranked.isRecapping unit s' = true
        <-> Ranked.round (Float64.of_Z 50)
            <> Ranked.round (Ranked.rankedRecapValue unit (Scenario.rankedDraining 70)))
    /\ (Ranked.round (Float64.of_Z 50)
        = Ranked.round (Ranked.rankedRecapValue unit (Scenario.rankedDraining 70)) ->
        Ranked.isRecapping unit s' = false
        /\ Ranked.rankedRecapValue unit s'
           = Ranked.rankedRecapValue unit (Scenario.rankedDraining 70)
        /\ snd (Ranked.recapTick unit Scenario.hosts s') = []).
Proof.
  apply (recapping_iff_rounded_cap_differs unit Scenario.forget Scenario.fixedRecap
           Scenario.hosts (Scenario.rankedDraining 70) (Scenario.finished "electron-t-1")
           tt (Float64.of_Z 50)).
  - reflexivity.
  - simpl. lia.
  - reflexivity.
Defined.

(** The two cases on the scheduler that is draining: from 70 the recap
    value moves to 50 and the next tick caps both hosts at 50; from 50 it
    stays and the next tick caps none. *)
Lemma recap_ticks :
  (let s' := Scenario.stateOf (Scenario.rankedDraining 70)
               (Go.bind (Scenario.rankedStatusUpdate (Scenario.rankedDraining 70)
                           (Scenario.finished "electron-t-1"))
                  (fun s' => Go.Ok (s', tt))) in
   Ranked.isRecapping unit s' = true
   /\ snd (Ranked.recapTick unit Scenario.hosts s') = [("node-a-1", 50); ("node-b-1", 50)])
  /\ (let s' := Scenario.stateOf (Scenario.rankedDraining 50)
                  (Go.bind (Scenario.rankedStatusUpdate (Scenario.rankedDraining 50)
                              (Scenario.finished "electron-t-1"))
                     (fun s' => Go.Ok (s', tt))) in
      Ranked.isRecapping unit s' = false
      /\ snd (Ranked.recapTick unit Scenario.hosts s') = []).
Proof. vm_compute. repeat split. Qed.

(** ** Offers are never exceeded *)



(** ** Bin packing, instance by instance *)

(** Scenario 2 of the specification: of the ten instances of the task the
    offer takes five, which are launched on it in one call, and five stay
    pending in the queue. *)
Lemma scenario_binpack_packs_instances :
  Scenario.launchedNames <$>
    Scenario.outputOf [] (BinPackSortedWatts.ResourceOffers Scenario.tenInstances
                            [Scenario.roomForFive])
  = [["t-10"; "t-9"; "t-8"; "t-7"; "t-6"]]
  /\ (let s' := Scenario.stateOf Scenario.tenInstances
                  (BinPackSortedWatts.ResourceOffers Scenario.tenInstances
                     [Scenario.roomForFive]) in
      BinPack.tasks s' = [Scenario.task "t" 2 4000 40 0]
      /\ BinPack.insts s' !! 0%nat = Some 5
      /\ BinPack.Shutdown s' = false).
Proof. vm_compute. repeat split. Qed.

(** Within the loop over the instances of one task the packing is greedy:
    the loop is left with no instance of the task pending, or with a task
    that no longer fits. *)
Lemma instancesLoop_greedy (wattsOf : Mesos.Offer -> Def.Task -> float64)
    (offer : Mesos.Offer) (i : nat) (task : Def.Task) (fuel : nat) :
  forall (l l' : BinPack.Loop) (n : Z),
    BinPack.deref (BinPack.sched l) (Def.Instances task) = Go.Ok n ->
    (Z.to_nat n <= fuel)%nat ->
    BinPack.instancesLoop wattsOf fuel offer i task l = Go.Ok l' ->
    (exists n', BinPack.deref (BinPack.sched l') (Def.Instances task) = Go.Ok n'
                /\ n' <= 0)
    \/ BinPack.fits wattsOf offer task l' = false.
Proof.
  induction fuel as [|fuel IH]; intros l l' n Hn Hfuel; simpl.
  - intros [= <-]. left. exists n. split; [exact Hn|lia].
  - rewrite Hn. simpl. destruct (Z.gtb_spec n 0) as [Hpos|Hzero].
    + destruct (BinPack.fits wattsOf offer task l) eqn:Hfit.
      * destruct (BinPack.place wattsOf offer i task n l) as [l1|] eqn:Hplace; simpl;
          [|discriminate].
        apply (IH l1 l' (n - 1)); [|lia].
        unfold BinPack.place in Hplace.
        destruct (BinPack.newTask (BinPack.sched l) offer task) as [[s1 ti]|] eqn:Hnew;
          simpl in Hplace; [|discriminate].
        assert (Hst : BinPack.insts s1 = BinPack.insts (BinPack.sched l)).
        { unfold BinPack.newTask in Hnew. rewrite Hn in Hnew. simpl in Hnew.
          now injection Hnew as <- _. }
        assert (Hcell : forall l2, BinPack.insts (BinPack.sched l2)
                                   = <[Def.Instances task := n - 1]> (BinPack.insts s1) ->
                        BinPack.deref (BinPack.sched l2) (Def.Instances task)
                        = Go.Ok (n - 1)).
        { intros l2 H2. unfold BinPack.deref. rewrite H2. now rewrite lookup_insert_eq. }
        destruct (n - 1 <=? 0).
        -- unfold BinPack.removeAt in Hplace. simpl in Hplace.
           destruct (length (BinPack.tasks s1) <? i + 1)%nat; simpl in Hplace;
             [discriminate|].
           match type of Hplace with
           | (if ?c then _ else _) = _ => destruct c
           end.
           ++ unfold BinPack.closeShutdown in Hplace. simpl in Hplace.
              destruct (BinPack.Shutdown s1); [discriminate|].
              injection Hplace as <-. now apply Hcell.
           ++ injection Hplace as <-. now apply Hcell.
        -- injection Hplace as <-. now apply Hcell.
      * intros [= <-]. right. exact Hfit.
    + intros [= <-]. left. exists n. split; [exact Hn|lia].
Qed.

(** C4 (as the code has it): across the queue the packing is not greedy.
    With three tasks of one instance each and an offer with room for all
    three, A is launched and removed, which moves B into the slot the
    range loop has just left; the loop goes on with C. B stays pending
    with its instance although it still fits what is left of the offer.
    With two such tasks the removal of the second panics on the slice
    bounds before anything is launched. *)
Theorem binpack_skips_task_after_removal :
  Scenario.launchedNames
    (Scenario.outputOf Scenario.noCall
       (BinPackSortedWatts.consumeOffer Scenario.threeTasks Scenario.roomForFive))
  = ["A-1"; "C-1"]
  /\ BinPack.tasks (BinPack.sched Scenario.threeTasksLoop)
     = [Scenario.task "B" 1 1000 10 1]
  /\ BinPack.insts (BinPack.sched Scenario.threeTasksLoop) !! 1%nat = Some 1
  /\ BinPack.fits BinPack.taskWatts Scenario.roomForFive
       (Scenario.task "B" 1 1000 10 1) Scenario.threeTasksLoop = true
  /\ BinPackSortedWatts.consumeOffer Scenario.twoTasks Scenario.roomForFive
     = Go.Fail Go.SliceBounds.
Proof. vm_compute. repeat split. Qed.

(** ** Class-map watts *)

(** MaxGreedyMins: with class-map watts on, a task without watts for the
    class of the offer makes [takeOffer] and [CheckFit] end in
    [log.Fatal] with the error of [WattsToConsider]; the task is not
    placed. *)
Lemma MaxGreedyMins_unknown_class_is_fatal
    (newTask : Mesos.Offer -> Def.Task -> Z -> Mesos.TaskInfo)
    (offer : Mesos.Offer) (task : Def.Task) (l : MaxGreedyMins.Loop)
    (i : nat) (w : float64) :
  MaxGreedyMins.classMapWatts (MaxGreedyMins.base l) = true ->
  Def.ClassToWatts task !! OfferUtils.PowerClass offer = None ->
  let fatal :=
    Go.Fatal (MaxGreedyMins.Error
                (Def.UnknownPowerClass (Def.Name task) (OfferUtils.PowerClass offer))) in
  MaxGreedyMins.takeOffer (MaxGreedyMins.base l) offer task
    (MaxGreedyMins.totalCPU l) (MaxGreedyMins.totalRAM l) (MaxGreedyMins.totalWatts l)
    = Go.Fail fatal
  /\ MaxGreedyMins.CheckFit newTask i task w offer l = Go.Fail fatal.
Proof.
  intros Hcm Hclass fatal.
  assert (Htake : MaxGreedyMins.takeOffer (MaxGreedyMins.base l) offer task
                    (MaxGreedyMins.totalCPU l) (MaxGreedyMins.totalRAM l)
                    (MaxGreedyMins.totalWatts l) = Go.Fail fatal).
  { unfold MaxGreedyMins.takeOffer, MaxGreedyMins.wattsOrFatal, Def.WattsToConsider.
    destruct (OfferUtils.OfferAgg offer) as [[cpus mem] watts].
    now rewrite Hcm, Hclass. }
  split; [exact Htake|]. unfold MaxGreedyMins.CheckFit. now rewrite Htake.
Qed.

(** C3 (as the code has it): BPSWClassMapWatts reads the watts of a class
    the task does not list as 0. A task that says 40 W for class A and
    nothing for class B, 100 W declared, is launched on an offer of class B
    with 50 W: no watts are charged and the launch asks for 100. Where
    [WattsToConsider] is asked, the same task and offer give
    UnknownPowerClass, and MaxGreedyMins exits on it. *)
Theorem classmap_missing_class_is_scheduled :
  OfferUtils.PowerClass (Scenario.classOffer "B" 50) = "B"
  /\ Def.ClassToWatts Scenario.classTask !! "B" = None
  /\ Scenario.launchedNames
       (Scenario.outputOf Scenario.noCall
          (BPSWClassMapWatts.consumeOffer Scenario.classQueue
             (Scenario.classOffer "B" 50)))
     = ["t-1"]
  /\ BinPack.charged
       (match BPSWClassMapWatts.offerLoop Scenario.classQueue
                (Scenario.classOffer "B" 50) with
        | Go.Ok l => l
        | Go.Fail _ => BinPack.enter Scenario.classQueue
        end)
     = [Float64.zero]
  /\ Def.WattsToConsider Scenario.classTask true (Scenario.classOffer "B" 50)
     = inl (Def.UnknownPowerClass "t" "B")
  /\ MaxGreedyMins.consumeOffer Scenario.namedTask
       (Scenario.baseQueue true [Scenario.classTask] [1]) (Scenario.classOffer "B" 50)
     = Go.Fail (Go.Fatal (MaxGreedyMins.Error (Def.UnknownPowerClass "t" "B"))).
Proof. vm_compute. repeat split. Qed.

(* ===================================================================== *)
(** * Further properties of the code *)
(* ===================================================================== *)

(** ** rapl-daemon: what capNode writes, and reads back *)

Section StringFacts.

Lemma list_of_append (s t : string) :
  list_ascii_of_string (s +:+ t) = list_ascii_of_string s ++ list_ascii_of_string t.
Proof. induction s as [|c s IH]; simpl; [reflexivity|now rewrite IH]. Qed.

Lemma append_assoc (s t u : string) : (s +:+ t) +:+ u = s +:+ (t +:+ u).
Proof.
  induction s as [|c s IH]; [reflexivity|].
  change (String c ((s +:+ t) +:+ u) = String c (s +:+ (t +:+ u))). now rewrite IH.
Qed.

(** Two strings that end in tails of one length and are equal have equal
    tails. *)
Lemma append_tail_eq (s s' t t' : string) :
  String.length t = String.length t' -> s +:+ t = s' +:+ t' -> t = t'.
Proof.
  intros Hlen Heq.
  apply (f_equal list_ascii_of_string) in Heq. rewrite !list_of_append in Heq.
  assert (Hl : forall x, length (list_ascii_of_string x) = String.length x).
  { induction x as [|c x IH]; simpl; [reflexivity|now rewrite IH]. }
  apply app_inj_2 in Heq as [_ Heq]; [|now rewrite !Hl].
  rewrite <- (string_of_list_ascii_of_string t), <- (string_of_list_ascii_of_string t').
  now rewrite Heq.
Qed.

Lemma length_append (s t : string) :
  String.length (s +:+ t) = (String.length s + String.length t)%nat.
Proof.
  induction s as [|c s IH]; [reflexivity|].
  change (S (String.length (s +:+ t)) = S (String.length s + String.length t)).
  now rewrite IH.
Qed.

End StringFacts.

Section RaplFiles.

Import Rapl RaplView.

(** A max-power file is never the power-limit file of an entry. *)
Lemma maxFile_not_limitFile (base name name' : string) :
  maxFile base name <> limitFile base name'.
Proof.
  unfold maxFile, limitFile, Join, maxPowerFileLongWindow, powerLimitFileLongWindow.
  change "constraint_0_max_power_uw" with ("constraint_0_max_powe" +:+ "r_uw").
  change "constraint_0_power_limit_uw" with ("constraint_0_power_limi" +:+ "t_uw").
  rewrite <- !append_assoc. intros H.
  apply append_tail_eq in H; [discriminate H|reflexivity].
Qed.

Lemma capEntry_zoneMax (base : string) (N : Z) (fs : FS) (name : string) :
  capEntry base N fs name
  = match zoneMax fs base name with
    | Some m =>
        mkFS (dirs fs)
          (<[limitFile base name := FormatUint (powercap m N)]> (files fs))
    | None => fs
    end.
Proof.
  unfold capEntry, zoneMax, capZone, limitFile, maxFile.
  destruct (Split name) as [|a [|b [|c l]]]; try reflexivity.
  destruct (String.eqb a raplPrefixCPU); [|reflexivity].
  destruct (maxPower fs _) as [e|m]; [reflexivity|].
  destruct (files fs !! _); reflexivity.
Qed.

(** Going through an entry keeps the directories, the files that exist
    and what every max-power file holds: the zones and their max power are
    read the same before and after. *)
Lemma capEntry_stable (base : string) (N : Z) (fs : FS) (name : string) :
  dirs (capEntry base N fs name) = dirs fs
  /\ (forall p, is_Some (files (capEntry base N fs name) !! p)
                <-> is_Some (files fs !! p))
  /\ (forall n, zoneMax (capEntry base N fs name) base n = zoneMax fs base n).
Proof.
  rewrite capEntry_zoneMax.
  destruct (zoneMax fs base name) as [m|] eqn:Hz; [|repeat split; auto].
  assert (Hex : is_Some (files fs !! limitFile base name)).
  { unfold zoneMax in Hz. destruct (Split name) as [|a [|b [|c l]]]; try discriminate.
    destruct (String.eqb a raplPrefixCPU); [|discriminate].
    destruct (maxPower fs _); [discriminate|].
    destruct (files fs !! limitFile base name); [eauto|discriminate]. }
  assert (Hsome : forall p,
             is_Some (<[limitFile base name := FormatUint (powercap m N)]> (files fs) !! p)
             <-> is_Some (files fs !! p)).
  { intros p. destruct (decide (limitFile base name = p)) as [<-|Hne].
    - rewrite lookup_insert_eq. split; [intros _; exact Hex|eauto].
    - now rewrite lookup_insert_ne. }
  split; [reflexivity|]. split; [exact Hsome|].
  intros n. unfold zoneMax, maxPower. simpl.
  rewrite lookup_insert_ne by (intros H; symmetry in H; revert H; apply maxFile_not_limitFile).
  destruct (Split n) as [|a [|b [|c l]]]; try reflexivity.
  destruct (String.eqb a raplPrefixCPU); [|reflexivity].
  destruct (files fs !! maxFile base n) as [content|]; [|reflexivity].
  destruct (ParseUint (TrimSpace content)); [reflexivity|].
  specialize (Hsome (limitFile base n)).
  destruct (files fs !! limitFile base n) as [x|],
           (<[limitFile base name := FormatUint (powercap m N)]> (files fs)
              !! limitFile base n) as [y|]; try reflexivity.
  - destruct Hsome as [_ Hs]. destruct (Hs (mk_is_Some _ _ eq_refl)); discriminate.
  - destruct Hsome as [Hs _]. destruct (Hs (mk_is_Some _ _ eq_refl)); discriminate.
Qed.

Lemma fold_capEntry_stable (base : string) (N : Z) (entries : list string) :
  forall fs : FS,
    dirs (fold_left (capEntry base N) entries fs) = dirs fs
    /\ (forall p, is_Some (files (fold_left (capEntry base N) entries fs) !! p)
                  <-> is_Some (files fs !! p))
    /\ (forall n, zoneMax (fold_left (capEntry base N) entries fs) base n
                  = zoneMax fs base n).
Proof.
  induction entries as [|name rest IH]; intros fs; simpl; [repeat split; auto|].
  destruct (IH (capEntry base N fs name)) as (Hd & Hs & Hz).
  destruct (capEntry_stable base N fs name) as (Hd1 & Hs1 & Hz1).
  split; [congruence|]. split.
  - intros p. rewrite Hs. apply Hs1.
  - intros n. rewrite Hz. apply Hz1.
Qed.

Lemma fold_after_ext (fs fs' : FS) (base : string) (N : Z) (p : string)
    (entries : list string) :
  (forall n, zoneMax fs' base n = zoneMax fs base n) ->
  forall held, fold_left (after fs' base N p) entries held
               = fold_left (after fs base N p) entries held.
Proof.
  intros Hz. induction entries as [|name rest IH]; intros held; simpl; [reflexivity|].
  rewrite IH. unfold after. now rewrite Hz.
Qed.

(** What every path holds once the entries have been gone through. *)
Lemma fold_capEntry_lookup (base : string) (N : Z) (p : string)
    (entries : list string) :
  forall fs : FS,
    files (fold_left (capEntry base N) entries fs) !! p = expected fs base N entries p.
Proof.
  unfold expected.
  induction entries as [|name rest IH]; intros fs; simpl; [reflexivity|].
  rewrite IH.
  destruct (capEntry_stable base N fs name) as (_ & _ & Hz).
  rewrite (fold_after_ext fs (capEntry base N fs name) base N p rest Hz).
  f_equal. rewrite capEntry_zoneMax. unfold after.
  destruct (zoneMax fs base name) as [m|]; [|reflexivity]. simpl.
  destruct (String.eqb_spec (limitFile base name) p) as [<-|Hne].
  - now rewrite lookup_insert_eq.
  - now rewrite lookup_insert_ne.
Qed.

Lemma after_cases (fs : FS) (base p name : string) :
  (exists m, forall N held,
      after fs base N p held name = Some (FormatUint (powercap m N)))
  \/ (forall N held, after fs base N p held name = held).
Proof.
  unfold after. destruct (zoneMax fs base name) as [m|]; [|now right].
  destruct (String.eqb (limitFile base name) p); [left; now exists m|now right].
Qed.

(** A second pass decides what the paths it writes hold, whatever the
    first pass left there; the paths it does not write were not written by
    the first pass either. *)
Lemma fold_after_twice (fs : FS) (base : string) (N1 N2 : Z) (p : string)
    (entries : list string) (held : option string) :
  fold_left (after fs base N2 p) entries (fold_left (after fs base N1 p) entries held)
  = fold_left (after fs base N2 p) entries held.
Proof.
  induction entries as [|name rest IH] using rev_ind; [reflexivity|].
  rewrite !fold_left_app. cbn [fold_left].
  destruct (after_cases fs base p name) as [[m Hset]|Hkeep].
  - now rewrite !Hset.
  - rewrite !Hkeep. exact IH.
Qed.

End RaplFiles.

Section RaplProperties.

Import Rapl RaplView Scenario.

Lemma zoneMax_Some (fs : FS) (base name : string) (m : Z) :
  zoneMax fs base name = Some m ->
  (exists zone, Split name = [raplPrefixCPU; zone])
  /\ maxPower fs (maxFile base name) = inr m
  /\ is_Some (files fs !! limitFile base name).
Proof.
  unfold zoneMax. destruct (Split name) as [|a [|b [|c l]]]; try discriminate.
  destruct (String.eqb_spec a raplPrefixCPU) as [->|]; [|discriminate].
  destruct (maxPower fs _) as [e|m']; [discriminate|].
  destruct (files fs !! limitFile base name) as [x|]; [|discriminate].
  intros [= ->]. split; [now exists b|]. split; [reflexivity|eauto].
Qed.

Lemma fold_after_changed (fs : FS) (base : string) (N : Z) (p : string)
    (entries : list string) :
  forall held,
    fold_left (after fs base N p) entries held <> held ->
    exists name m, name ∈ entries /\ zoneMax fs base name = Some m
                   /\ limitFile base name = p.
Proof.
  induction entries as [|name rest IH]; intros held; simpl; [congruence|].
  intros Hne.
  destruct (decide (after fs base N p held name = held)) as [Hsame|Hdiff].
  - rewrite Hsame in Hne. destruct (IH held Hne) as (n & m & Hin & Hrest).
    exists n, m. split; [now right|exact Hrest].
  - unfold after in Hdiff. destruct (zoneMax fs base name) as [m|] eqn:Hz; [|congruence].
    destruct (String.eqb_spec (limitFile base name) p) as [Hp|]; [|congruence].
    exists name, m. split; [now left|auto].
Qed.

(** X1: capNode changes nothing but power-limit files that exist, of
    entries of the base directory that name a zone ([intel-rapl:X], two
    fields): no directory, no max-power file, no file of a sub-zone or of
    another entry is touched, and nothing at all when the percentage is
    out of range. *)
Theorem capNode_writes_only_zone_limits (fs : FS) (base : string) (N : Z)
    (p : string) :
  files (fst (capNode fs base N)) !! p <> files fs !! p ->
  0 < N <= 100
  /\ exists (entries : list string) (name zone : string),
       dirs fs !! base = Some entries /\ name ∈ entries
       /\ Split name = [raplPrefixCPU; zone]
       /\ p = limitFile base name
       /\ is_Some (files fs !! p).
Proof.
  unfold capNode.
  destruct (Z.leb_spec N 0); simpl; [congruence|].
  destruct (Z.gtb_spec N 100); simpl; [congruence|].
  destruct (dirs fs !! base) as [entries|] eqn:Hdir; simpl; [|congruence].
  rewrite fold_capEntry_lookup. unfold expected. intros Hne.
  split; [lia|].
  destruct (fold_after_changed _ _ _ _ _ _ Hne) as (name & m & Hin & Hz & <-).
  destruct (zoneMax_Some _ _ _ _ Hz) as ([zone Hsplit] & _ & Hex).
  exists entries, name, zone. auto.
Qed.

Lemma capNode_writes_only_zone_limits_witness :
  0 < 7 <= 100
  /\ exists (entries : list string) (name zone : string),
       dirs oneZone !! powercapDir = Some entries /\ name ∈ entries
       /\ Split name = [raplPrefixCPU; zone]
       /\ "/sys/class/powercap/intel-rapl:0/constraint_0_power_limit_uw"
          = limitFile powercapDir name
       /\ is_Some (files oneZone
                     !! "/sys/class/powercap/intel-rapl:0/constraint_0_power_limit_uw").
Proof.
  apply (capNode_writes_only_zone_limits oneZone powercapDir 7).
  vm_compute. discriminate.
Defined.

Lemma FS_eq (fs fs' : FS) :
  dirs fs = dirs fs' -> (forall p, files fs !! p = files fs' !! p) -> fs = fs'.
Proof.
  destruct fs as [d f], fs' as [d' f']. simpl. intros -> H.
  f_equal. now apply map_eq.
Qed.

(** X2: the last cap wins. Capping at N2 after capping at any N1 leaves
    the file system exactly as capping at N2 alone does; in particular
    capping twice at one percentage is capping once. *)
Theorem capNode_last_write_wins (fs : FS) (base : string) (N1 N2 : Z) :
  0 < N2 <= 100 ->
  fst (capNode (fst (capNode fs base N1)) base N2) = fst (capNode fs base N2).
Proof.
  intros H2.
  assert (Hg2 : (N2 <=? 0) || (N2 >? 100) = false).
  { apply orb_false_iff. split; [apply Z.leb_gt|rewrite Z.gtb_ltb; apply Z.ltb_ge]; lia. }
  unfold capNode at 2.
  destruct ((N1 <=? 0) || (N1 >? 100)); [reflexivity|].
  destruct (dirs fs !! base) as [entries|] eqn:Hdir; [|reflexivity].
  cbn [fst]. unfold capNode. rewrite Hg2.
  destruct (fold_capEntry_stable base N1 entries fs) as (Hd1 & _ & Hz1).
  rewrite Hd1, Hdir. cbn [fst].
  apply FS_eq.
  - destruct (fold_capEntry_stable base N2 entries
                (fold_left (capEntry base N1) entries fs)) as (-> & _).
    destruct (fold_capEntry_stable base N2 entries fs) as (-> & _). exact Hd1.
  - intros p. rewrite !fold_capEntry_lookup. unfold expected.
    rewrite (fold_after_ext fs _ base N2 p entries Hz1).
    rewrite fold_capEntry_lookup. unfold expected. apply fold_after_twice.
Qed.

Lemma capNode_last_write_wins_witness :
  fst (capNode (fst (capNode oneZone powercapDir 7)) powercapDir 50)
  = fst (capNode oneZone powercapDir 50).
Proof. apply (capNode_last_write_wins oneZone powercapDir 7 50). lia. Defined.

(** The digits [FormatUint] writes are read back by [ParseUint]. *)
Lemma digits_of_uint_acc (u : Decimal.uint) :
  forall acc : positive,
    digits (NilEmpty.string_of_uint u) (Z.pos acc) = Some (Z.pos (Pos.of_uint_acc u acc)).
Proof.
  induction u; intros acc; simpl; try reflexivity;
    rewrite <- IHu; f_equal;
    repeat match goal with
    | |- context [Z.of_nat (nat_of_ascii ?c)] =>
        let v := eval vm_compute in (Z.of_nat (nat_of_ascii c)) in
        change (Z.of_nat (nat_of_ascii c)) with v
    end; lia.
Qed.

Lemma digits_of_uint (u : Decimal.uint) :
  digits (NilEmpty.string_of_uint u) 0 = Some (Z.of_N (Pos.of_uint u)).
Proof.
  induction u; simpl; try reflexivity; try exact IHu;
    match goal with
    | |- digits _ ?k = _ =>
        let v := eval vm_compute in k in
        change k with v; now rewrite digits_of_uint_acc
    end.
Qed.

Lemma digit_not_space (c : ascii) (d : Z) : digit c = Some d -> isSpace c = false.
Proof.
  unfold digit, isSpace.
  destruct (Nat.leb_spec 48 (nat_of_ascii c)); simpl; [|discriminate].
  intros _.
  destruct (Nat.leb_spec 9 (nat_of_ascii c)), (Nat.leb_spec (nat_of_ascii c) 13),
           (Nat.eqb_spec (nat_of_ascii c) 32); simpl; try reflexivity; lia.
Qed.

Lemma digits_TrimSpace (s : string) :
  forall acc n, digits s acc = Some n -> TrimSpace s = s.
Proof.
  assert (Hright : forall s acc n, digits s acc = Some n -> trimRight s = s).
  { induction s0 as [|c r IH]; intros acc n; simpl; [reflexivity|].
    destruct (digit c) as [d|] eqn:Hd; [|discriminate].
    intros Hr. rewrite (IH _ _ Hr). rewrite (digit_not_space c d Hd).
    destruct r; reflexivity. }
  intros acc n H. unfold TrimSpace.
  destruct s as [|c r]; [reflexivity|].
  simpl in H. destruct (digit c) as [d|] eqn:Hd; [|discriminate].
  cbn [trimLeft]. rewrite (digit_not_space c d Hd).
  apply (Hright (String c r) acc n). simpl. now rewrite Hd.
Qed.

Lemma ParseUint_FormatUint (v : Z) :
  0 <= v < 2 ^ 64 ->
  ParseUint (FormatUint v) = inr v
  /\ TrimSpace (FormatUint v) = FormatUint v.
Proof.
  intros Hv. destruct v as [|p|p]; [split; reflexivity| |lia].
  unfold FormatUint, Go.itoa. cbn [Z.to_int NilZero.string_of_int].
  pose proof (DecimalPos.Unsigned.of_to p) as Hof.
  pose proof (digits_of_uint (Pos.to_uint p)) as Hd. rewrite Hof in Hd. simpl in Hd.
  assert (Hne : NilZero.string_of_uint (Pos.to_uint p)
                = NilEmpty.string_of_uint (Pos.to_uint p)).
  { pose proof (DecimalPos.Unsigned.to_uint_nonnil p).
    destruct (Pos.to_uint p); [contradiction|reflexivity..]. }
  rewrite Hne. split; [|exact (digits_TrimSpace _ _ _ Hd)].
  unfold ParseUint. rewrite Hd.
  destruct (NilEmpty.string_of_uint (Pos.to_uint p)) eqn:Hs.
  - pose proof (DecimalPos.Unsigned.to_uint_nonnil p).
    destruct (Pos.to_uint p); [contradiction|discriminate..].
  - destruct (Z.ltb_spec (Z.pos p) (2 ^ 64)); [reflexivity|lia].
Qed.

(** X3: what capZone writes, maxPower reads. On a file that exists,
    capZone of a value of 64 bits returns no error and maxPower of the same
    file then returns that value. *)
Theorem capZone_then_maxPower (fs : FS) (file : string) (v : Z) :
  0 <= v < 2 ^ 64 ->
  is_Some (files fs !! file) ->
  snd (capZone fs file v) = None
  /\ maxPower (fst (capZone fs file v)) file = inr v.
Proof.
  intros Hv [old Hold]. unfold capZone. rewrite Hold. simpl.
  split; [reflexivity|]. unfold maxPower. simpl. rewrite lookup_insert_eq.
  destruct (ParseUint_FormatUint v Hv) as [Hparse ->]. exact Hparse.
Qed.

Lemma capZone_then_maxPower_witness :
  snd (capZone oneZone
         "/sys/class/powercap/intel-rapl:0/constraint_0_power_limit_uw" 7000000) = None
  /\ maxPower
       (fst (capZone oneZone
               "/sys/class/powercap/intel-rapl:0/constraint_0_power_limit_uw" 7000000))
       "/sys/class/powercap/intel-rapl:0/constraint_0_power_limit_uw"
     = inr 7000000.
Proof.
  apply (capZone_then_maxPower oneZone
           "/sys/class/powercap/intel-rapl:0/constraint_0_power_limit_uw" 7000000).
  - lia.
  - vm_compute. eauto.
Defined.

(** X4: the endpoint answers 200 exactly when the percentage is in
    (0, 100] and the powercap directory can be read; a zone that fails
    does not turn the answer into an error. A payload that does not
    decode is answered with 400 and nothing is written. *)
Theorem powercapEndpoint_ok_iff (fs : FS) (N : Z) :
  (status (snd (powercapEndpoint fs (Payload (mkCap N)))) = 200
   <-> 0 < N <= 100 /\ is_Some (dirs fs !! powercapDir))
  /\ forall err, powercapEndpoint fs (BadPayload err)
                 = (fs, httpError ("error parsing payload: " +:+ err) 400).
Proof.
  split; [|reflexivity].
  unfold powercapEndpoint, capNode. cbn [Percentage].
  destruct (Z.leb_spec N 0); simpl.
  { split; [discriminate|intros [? _]; lia]. }
  destruct (Z.gtb_spec N 100); simpl.
  { split; [discriminate|intros [? _]; lia]. }
  destruct (dirs fs !! powercapDir) as [entries|]; simpl.
  - split; [intros _; split; [lia|eauto]|reflexivity].
  - split; [discriminate|intros [_ [x Hx]]; discriminate].
Qed.

End RaplProperties.

(** ** schedPolicy.go *)

Section NextPolicyMore.

Import SchedPolicy Scenario.

Variable bp : string.
Variable registry : list entry.

Lemma at_in_range (i : Z) :
  0 <= i < Z.of_nat (length registry) ->
  exists e, at_ registry i = Go.Ok e /\ registry !! Z.to_nat i = Some e.
Proof.
  intros Hi. destruct (lookup_lt_is_Some_2 registry (Z.to_nat i)) as [e He]; [lia|].
  exists e. split; [|exact He]. unfold at_.
  destruct (Z.ltb_spec i 0); [lia|]. now rewrite He.
Qed.

Lemma mid_between (low high : Z) :
  0 <= low -> low <= high -> low <= (low + high) ÷ 2 <= high.
Proof.
  intros. rewrite Z.quot_div_nonneg by lia.
  split; [apply Z.div_le_lower_bound|apply Z.div_le_upper_bound]; lia.
Qed.

(** The two tests made before the search keep it inside the registry:
    the bounds never leave it. *)
Lemma search_in_range (d : float64) (first final : entry) :
  registry !! 0%nat = Some first ->
  last registry = Some final ->
  Float64.ltb d (dist first) = false ->
  Float64.gtb d (dist final) = false ->
  forall (fuel : nat) (low high : Z),
    0 <= low < Z.of_nat (length registry) ->
    0 <= high < Z.of_nat (length registry) ->
    exists (name : string) (low' high' : Z),
      search registry fuel d low high = Go.Ok (name, low', high')
      /\ 0 <= low' < Z.of_nat (length registry)
      /\ 0 <= high' < Z.of_nat (length registry)
      /\ (name = "" \/ exists e, e ∈ registry /\ name = spName e).
Proof.
  intros Hfirst Hfinal Hf Hl. rewrite last_lookup in Hfinal.
  induction fuel as [|fuel IH]; intros low high Hlow Hhigh; simpl.
  - exists "", low, high. auto.
  - destruct (Z.leb_spec low high) as [Hle|Hgt]; [|exists "", low, high; auto].
    pose proof (mid_between low high (proj1 Hlow) Hle) as Hmid.
    destruct (at_in_range ((low + high) ÷ 2)) as (e & Hat & He); [lia|].
    rewrite Hat. simpl.
    destruct (Float64.ltb d (dist e)) eqn:Hlt.
    { apply IH; [lia|]. split; [|lia].
      destruct (Z.eq_dec ((low + high) ÷ 2) 0) as [H0|]; [|lia].
      rewrite H0 in He. change (Z.to_nat 0) with 0%nat in He.
      assert (e = first) by congruence. subst e. congruence. }
    destruct (Float64.gtb d (dist e)) eqn:Hgt'.
    { apply IH; [|lia]. split; [lia|].
      destruct (Z.eq_dec ((low + high) ÷ 2) (Z.of_nat (length registry) - 1)) as [H0|];
        [|lia].
      rewrite H0 in He.
      replace (Z.to_nat (Z.of_nat (length registry) - 1)) with (pred (length registry))
        in He by lia.
      assert (e = final) by congruence. subst e. congruence. }
    exists (spName e), low, high. repeat split; try lia.
    right. exists e. split; [now apply list_elem_of_lookup_2 in He|reflexivity].
Qed.

(** With two clusters in the window and a registry that is not empty,
    nextPolicy returns the name of a policy of the registry. *)
Lemma nextPolicy_two_clusters (d : float64) :
  registry <> [] ->
  exists name : string,
    nextPolicy bp registry d None = Go.Ok (name, d)
    /\ exists e, e ∈ registry /\ name = spName e.
Proof.
  intros Hne.
  destruct (lookup_lt_is_Some_2 registry 0%nat) as [first Hfirst].
  { destruct registry; [contradiction|simpl; lia]. }
  destruct (lookup_lt_is_Some_2 registry (pred (length registry))) as [final Hfinal].
  { apply lookup_lt_Some in Hfirst. lia. }
  pose proof Hfinal as Hlast. rewrite <- last_lookup in Hlast.
  pose proof (lookup_lt_Some _ _ _ Hfirst) as Hlen.
  assert (H0 : at_ registry 0 = Go.Ok first) by exact (at_lookup registry 0 first Hfirst).
  assert (Hn : at_ registry (Z.of_nat (length registry) - 1) = Go.Ok final).
  { replace (Z.of_nat (length registry) - 1) with (Z.of_nat (pred (length registry)))
      by lia.
    now apply at_lookup. }
  unfold nextPolicy. rewrite H0. simpl. rewrite Hn. simpl.
  destruct (Float64.ltb d (dist first)) eqn:Hlt.
  { exists (spName first). split; [reflexivity|]. exists first.
    split; [now apply list_elem_of_lookup_2 in Hfirst|reflexivity]. }
  destruct (Float64.gtb d (dist final)) eqn:Hgt.
  { exists (spName final). split; [reflexivity|]. exists final.
    split; [now apply list_elem_of_lookup_2 in Hfinal|reflexivity]. }
  destruct (search_in_range d first final Hfirst Hlast Hlt Hgt (length registry) 0
              (Z.of_nat (length registry) - 1))
    as (name & low & high & -> & Hlow & Hhigh & Hname); [lia|lia|].
  simpl. destruct (String.eqb_spec name "") as [->|Hnm].
  - unfold closest.
    destruct (at_in_range low Hlow) as (l & -> & Hl).
    destruct (at_in_range high Hhigh) as (h & -> & Hh). simpl.
    apply list_elem_of_lookup_2 in Hl, Hh.
    destruct (Float64.gtb (Float64.sub (dist l) d) _);
      [|destruct (Float64.gtb (Float64.sub d (dist h)) _)]; simpl;
      eexists; (split; [reflexivity|]); eauto.
  - exists name. split; [reflexivity|]. destruct Hname as [?|Hname]; [contradiction|].
    exact Hname.
Qed.

(** X5: on a registry that is not empty nextPolicy does not panic,
    whatever the order of the declared distributions and whatever the
    distribution (NaN included): it hands the distribution back with the
    name [bp] or the name of a policy of the registry. On an empty
    registry it panics as soon as the window holds two clusters. *)
Theorem nextPolicy_returns_declared (d : float64) (err : option string) :
  (registry <> [] ->
   exists name : string,
     nextPolicy bp registry d err = Go.Ok (name, d)
     /\ (name = bp \/ exists e, e ∈ registry /\ name = spName e))
  /\ (registry = [] -> nextPolicy bp registry d None = Go.Fail Go.IndexRange).
Proof.
  split.
  - intros Hne. destruct err as [msg|].
    + exists bp. split; [reflexivity|now left].
    + destruct (nextPolicy_two_clusters d Hne) as (name & Hnext & Hin).
      exists name. split; [exact Hnext|now right].
  - intros ->. reflexivity.
Qed.

Hypothesis Hasc : ascending registry.

Lemma between_not_clamped (d : float64) (i : nat) (lo hi first final : entry) :
  registry !! i = Some lo ->
  registry !! S i = Some hi ->
  Float64.ltb (dist lo) d = true ->
  Float64.ltb d (dist hi) = true ->
  registry !! 0%nat = Some first ->
  registry !! pred (length registry) = Some final ->
  Float64.ltb d (dist first) = false /\ Float64.gtb d (dist final) = false.
Proof.
  intros Hlo Hhi Hbelow Habove Hfirst Hfinal.
  pose proof (lookup_lt_Some _ _ _ Hhi) as Hlen. split.
  - apply ltb_asym, leb_ltb_trans with (dist lo); [|exact Hbelow].
    apply (Hasc 0%nat i first lo); [lia|exact Hfirst|exact Hlo].
  - apply ltb_asym, ltb_leb_trans with (dist hi); [exact Habove|].
    apply (Hasc (S i) (pred (length registry)) hi final); [lia|exact Hhi|exact Hfinal].
Qed.

(** X6: with the registry in ascending order, a distribution strictly
    between two neighbours selects the nearer one: the lower neighbour
    when the float64 distance to the higher one is the greater, the
    higher neighbour when the distance to the lower one is the greater. *)
Theorem nextPolicy_nearest_neighbour (d : float64) (i : nat) (lo hi : entry) :
  registry !! i = Some lo ->
  registry !! S i = Some hi ->
  Float64.ltb (dist lo) d = true ->
  Float64.ltb d (dist hi) = true ->
  (Float64.gtb (Float64.sub (dist hi) d) (Float64.sub d (dist lo)) = true ->
   nextPolicy bp registry d None = Go.Ok (spName lo, d))
  /\ (Float64.gtb (Float64.sub d (dist lo)) (Float64.sub (dist hi) d) = true ->
      nextPolicy bp registry d None = Go.Ok (spName hi, d)).
Proof.
  intros Hlo Hhi Hbelow Habove.
  destruct (lookup_lt_is_Some_2 registry 0%nat) as [first Hfirst].
  { apply lookup_lt_Some in Hlo. lia. }
  destruct (lookup_lt_is_Some_2 registry (pred (length registry))) as [final Hfinal].
  { apply lookup_lt_Some in Hlo. lia. }
  pose proof (lookup_lt_Some _ _ _ Hhi) as Hlen.
  destruct (between_not_clamped d i lo hi first final Hlo Hhi Hbelow Habove Hfirst Hfinal)
    as [Hf Hl].
  assert (H0 : at_ registry 0 = Go.Ok first) by exact (at_lookup registry 0 first Hfirst).
  assert (Hn : at_ registry (Z.of_nat (length registry) - 1) = Go.Ok final).
  { replace (Z.of_nat (length registry) - 1) with (Z.of_nat (pred (length registry)))
      by lia.
    now apply at_lookup. }
  assert (Hnext : nextPolicy bp registry d None
                  = (name' <-! closest registry d (Z.of_nat (S i)) (Z.of_nat i);
                     Go.Ok (name', d))).
  { unfold nextPolicy. rewrite H0. simpl. rewrite Hn. simpl. rewrite Hf, Hl.
    rewrite (search_between registry Hasc d i lo hi Hlo Hhi Hbelow Habove) by lia.
    simpl. now replace (Z.of_nat i + 1) with (Z.of_nat (S i)) by lia. }
  rewrite Hnext. unfold closest.
  rewrite (at_lookup registry _ _ Hhi), (at_lookup registry _ _ Hlo). simpl.
  split; intros Hgt.
  - now rewrite Hgt.
  - assert (Hno : Float64.gtb (Float64.sub (dist hi) d) (Float64.sub d (dist lo))
                  = false) by (apply ltb_asym; exact Hgt).
    now rewrite Hno, Hgt.
Qed.

(** With the registry in ascending order the search finds an entry the
    distribution is neither below nor above, when there is one between
    the bounds. *)
Lemma search_finds (d : float64) (k : nat) (e : entry) :
  registry !! k = Some e ->
  Float64.ltb d (dist e) = false ->
  Float64.gtb d (dist e) = false ->
  forall (fuel : nat) (low high : Z),
    0 <= low <= Z.of_nat k ->
    Z.of_nat k <= high < Z.of_nat (length registry) ->
    high - low + 1 <= Z.of_nat fuel ->
    exists (e' : entry) (low' high' : Z),
      search registry fuel d low high = Go.Ok (spName e', low', high')
      /\ e' ∈ registry
      /\ Float64.ltb d (dist e') = false /\ Float64.gtb d (dist e') = false.
Proof.
  intros He Hnlt Hngt.
  induction fuel as [|fuel IH]; intros low high Hlow Hhigh Hfuel; simpl; [lia|].
  destruct (Z.leb_spec low high) as [Hle|Hgt]; [|lia].
  pose proof (mid_between low high (proj1 Hlow) Hle) as Hmid.
  destruct (at_in_range ((low + high) ÷ 2)) as (m & Hat & Hm); [lia|].
  rewrite Hat. simpl.
  destruct (Float64.ltb d (dist m)) eqn:Hlt.
  { apply IH; [lia| |lia]. split; [|lia].
    destruct (Z.le_gt_cases ((low + high) ÷ 2) (Z.of_nat k)) as [Hleft|]; [|lia].
    assert (Float64.ltb d (dist e) = true); [|congruence].
    apply ltb_leb_trans with (dist m); [exact Hlt|].
    apply (Hasc (Z.to_nat ((low + high) ÷ 2)) k m e); [lia|exact Hm|exact He]. }
  destruct (Float64.gtb d (dist m)) eqn:Hgt'.
  { apply IH; [|lia|lia]. split; [lia|].
    destruct (Z.le_gt_cases (Z.of_nat k) ((low + high) ÷ 2)) as [Hright|]; [|lia].
    assert (Float64.gtb d (dist e) = true); [|congruence].
    unfold Float64.gtb in *. fold (Float64.ltb (dist e) d). fold (Float64.ltb (dist m) d) in Hgt'.
    apply leb_ltb_trans with (dist m); [|exact Hgt'].
    apply (Hasc k (Z.to_nat ((low + high) ÷ 2)) e m); [lia|exact He|exact Hm]. }
  exists m, low, high. repeat split; auto.
  now apply list_elem_of_lookup_2 in Hm.
Qed.

(** X7: with the registry in ascending order, a distribution that some
    declared distribution matches (it is neither below nor above it)
    selects a policy declared with a matching distribution, named
    policies being told from the missing match by their name. *)
Theorem nextPolicy_exact_match (d : float64) (k : nat) (e : entry) :
  registry !! k = Some e ->
  Float64.ltb d (dist e) = false ->
  Float64.gtb d (dist e) = false ->
  exists e' : entry,
    e' ∈ registry
    /\ Float64.ltb d (dist e') = false /\ Float64.gtb d (dist e') = false
    /\ (spName e' <> "" -> nextPolicy bp registry d None = Go.Ok (spName e', d)).
Proof.
  intros He Hnlt Hngt.
  pose proof (lookup_lt_Some _ _ _ He) as Hlen.
  destruct (lookup_lt_is_Some_2 registry 0%nat) as [first Hfirst]; [lia|].
  destruct (lookup_lt_is_Some_2 registry (pred (length registry))) as [final Hfinal];
    [lia|].
  assert (H0 : at_ registry 0 = Go.Ok first) by exact (at_lookup registry 0 first Hfirst).
  assert (Hn : at_ registry (Z.of_nat (length registry) - 1) = Go.Ok final).
  { replace (Z.of_nat (length registry) - 1) with (Z.of_nat (pred (length registry)))
      by lia.
    now apply at_lookup. }
  destruct (Float64.ltb d (dist first)) eqn:Hf.
  { assert (Float64.ltb d (dist e) = true); [|congruence].
    apply ltb_leb_trans with (dist first); [exact Hf|].
    apply (Hasc 0%nat k first e); [lia|exact Hfirst|exact He]. }
  destruct (Float64.gtb d (dist final)) eqn:Hl.
  { assert (Float64.gtb d (dist e) = true); [|congruence].
    unfold Float64.gtb in *. fold (Float64.ltb (dist e) d). fold (Float64.ltb (dist final) d) in Hl.
    apply leb_ltb_trans with (dist final); [|exact Hl].
    apply (Hasc k (pred (length registry)) e final); [lia|exact He|exact Hfinal]. }
  destruct (search_finds d k e He Hnlt Hngt (length registry) 0
              (Z.of_nat (length registry) - 1))
    as (e' & low & high & Hsearch & Hin & Hlt' & Hgt'); [lia|lia|lia|].
  exists e'. repeat split; auto.
  intros Hname. unfold nextPolicy. rewrite H0. simpl. rewrite Hn. simpl.
  rewrite Hf, Hl, Hsearch. simpl.
  destruct (String.eqb_spec (spName e') ""); [contradiction|reflexivity].
Qed.

End NextPolicyMore.

Lemma nextPolicy_returns_declared_witness :
  exists name : string,
    SchedPolicy.nextPolicy "bin-packing" Scenario.twoPolicies (Float64.of_Z 2) None
    = Go.Ok (name, Float64.of_Z 2)
    /\ (name = "bin-packing"
        \/ exists e, e ∈ Scenario.twoPolicies /\ name = SchedPolicy.spName e).
Proof.
  apply (proj1 (nextPolicy_returns_declared "bin-packing" Scenario.twoPolicies
                  (Float64.of_Z 2) None)).
  discriminate.
Defined.

Lemma nextPolicy_nearest_neighbour_witness :
  SchedPolicy.nextPolicy "bin-packing" Scenario.twoPolicies
    (Float64.div (Float64.of_Z 3) (Float64.of_Z 2)) None
  = Go.Ok ("first-fit", Float64.div (Float64.of_Z 3) (Float64.of_Z 2))
  /\ SchedPolicy.nextPolicy "bin-packing" Scenario.twoPolicies
       (Float64.div (Float64.of_Z 5) (Float64.of_Z 2)) None
     = Go.Ok ("max-min", Float64.div (Float64.of_Z 5) (Float64.of_Z 2)).
Proof.
  split.
  - apply (proj1 (nextPolicy_nearest_neighbour "bin-packing" Scenario.twoPolicies
                    twoPolicies_ascending
                    (Float64.div (Float64.of_Z 3) (Float64.of_Z 2)) 0%nat
                    (Scenario.declared "first-fit" 1) (Scenario.declared "max-min" 3)
                    eq_refl eq_refl eq_refl eq_refl)).
    reflexivity.
  - apply (proj2 (nextPolicy_nearest_neighbour "bin-packing" Scenario.twoPolicies
                    twoPolicies_ascending
                    (Float64.div (Float64.of_Z 5) (Float64.of_Z 2)) 0%nat
                    (Scenario.declared "first-fit" 1) (Scenario.declared "max-min" 3)
                    eq_refl eq_refl eq_refl eq_refl)).
    reflexivity.
Defined.

Lemma nextPolicy_exact_match_witness :
  exists e' : SchedPolicy.entry,
    e' ∈ Scenario.twoPolicies
    /\ Float64.ltb (Float64.of_Z 3) (SchedPolicy.dist e') = false
    /\ Float64.gtb (Float64.of_Z 3) (SchedPolicy.dist e') = false
    /\ (SchedPolicy.spName e' <> "" ->
        SchedPolicy.nextPolicy "bin-packing" Scenario.twoPolicies (Float64.of_Z 3) None
        = Go.Ok (SchedPolicy.spName e', Float64.of_Z 3)).
Proof.
  apply (nextPolicy_exact_match "bin-packing" Scenario.twoPolicies twoPolicies_ascending
           (Float64.of_Z 3) 1%nat (Scenario.declared "max-min" 3));
    reflexivity.
Defined.

Section SwitchMore.

Import SchedPolicy SchedSwitch.

Variable bp : string.
Variable registry : list entry.
Variable Apply : list Def.Task -> Z * Z.
Variable GetTaskDistributionInWindow : Z -> list Def.Task -> float64 * option string.

(** X8: with a registry that is not empty SwitchIfNecessary does not
    panic. It switches exactly when switching is enabled, the window
    (as fixed, or as the strategy has just computed it) is positive, and
    either no offer has been received yet or the policy has scheduled a
    window's worth of tasks. A switch goes to the policy named for the
    first deployment, to [bp] or to a policy of the registry, and resets
    the count of scheduled tasks; without a switch the policy state is
    left as it was. *)
Theorem SwitchIfNecessary_switches (bsps : baseSchedPolicyState) (b : BaseScheduler) :
  registry <> [] ->
  exists (bsps' : baseSchedPolicyState) (b' : BaseScheduler)
         (sw : option (string * float64)),
    SwitchIfNecessary bp registry Apply GetTaskDistributionInWindow bsps b
    = Go.Ok (bsps', b', sw)
    /\ (is_Some sw
        <-> schedPolSwitchEnabled b = true
            /\ 0 < schedWindowSize b'
            /\ (hasReceivedResourceOffers b = false
                \/ schedWindowSize b' <= numTasksScheduled bsps))
    /\ match sw with
       | Some (name, _) =>
           bsps' = withScheduled bsps 0
           /\ (name = nameOfFstSchedPolToDeploy b \/ name = bp
               \/ exists e, e ∈ registry /\ name = spName e)
       | None => bsps' = bsps
       end.
Proof.
  intros Hne. unfold SwitchIfNecessary.
  destruct (schedPolSwitchEnabled b) eqn:Hen.
  2:{ exists bsps, b, None. split; [reflexivity|]. split; [|reflexivity].
      split; [intros [x Hx]; discriminate|intros [? _]; discriminate]. }
  set (b1 := if toFixSchedWindow b then b else withWindow b (Apply (tasks b))).
  assert (Hrecv : hasReceivedResourceOffers b1 = hasReceivedResourceOffers b).
  { unfold b1. now destruct (toFixSchedWindow b). }
  assert (Hname : nameOfFstSchedPolToDeploy b1 = nameOfFstSchedPolToDeploy b).
  { unfold b1. now destruct (toFixSchedWindow b). }
  assert (Hnext : exists name d,
             next bp registry GetTaskDistributionInWindow b1 = Go.Ok (name, d)
             /\ (name = bp \/ exists e, e ∈ registry /\ name = spName e)).
  { unfold next.
    destruct (GetTaskDistributionInWindow (schedWindowSize b1) (tasks b1)) as [d err].
    destruct err as [msg|]; simpl; [exists bp, d; auto|].
    destruct (nextPolicy_two_clusters bp registry d Hne) as (name & Hn & Hin).
    eauto. }
  destruct Hnext as (name & d & Hnext & Hin).
  destruct (Z.gtb_spec (schedWindowSize b1) 0) as [Hpos|Hnpos].
  2:{ exists bsps, b1, None. split; [reflexivity|]. split; [|reflexivity].
      split; [intros [x Hx]; discriminate|intros (_ & ? & _); lia]. }
  rewrite Hrecv, Hname.
  destruct (hasReceivedResourceOffers b) eqn:Hr; simpl.
  - destruct (Z.geb_spec (numTasksScheduled bsps) (schedWindowSize b1)) as [Hge|Hlt].
    + rewrite Hnext. simpl. exists (withScheduled bsps 0), b1, (Some (name, d)).
      split; [reflexivity|]. split; [|auto].
      split; [intros _; repeat split; [lia|right; lia]|eauto].
    + exists bsps, b1, None. split; [reflexivity|]. split; [|reflexivity].
      split; [intros [x Hx]; discriminate|intros (_ & _ & [?|?]); [discriminate|lia]].
  - destruct (String.eqb_spec (nameOfFstSchedPolToDeploy b) "") as [Hnone|Hsome]; simpl.
    + rewrite Hnext. simpl. exists (withScheduled bsps 0), b1, (Some (name, d)).
      split; [reflexivity|]. split; [|auto].
      split; [intros _; repeat split; [lia|now left]|eauto].
    + exists (withScheduled bsps 0), b1,
        (Some (nameOfFstSchedPolToDeploy b, Float64.zero)).
      split; [reflexivity|]. split; [|auto].
      split; [intros _; repeat split; [lia|now left]|eauto].
Qed.

End SwitchMore.

Lemma SwitchIfNecessary_switches_witness :
  exists (bsps' : SchedPolicy.baseSchedPolicyState) (b' : SchedSwitch.BaseScheduler)
         (sw : option (string * float64)),
    SchedSwitch.SwitchIfNecessary "bin-packing" Scenario.twoPolicies
      SwitchScenario.wholeQueue SwitchScenario.twoClusters
      (SwitchScenario.scheduled 3) SwitchScenario.fixedWindow
    = Go.Ok (bsps', b', sw)
    /\ (is_Some sw
        <-> SchedSwitch.schedPolSwitchEnabled SwitchScenario.fixedWindow = true
            /\ 0 < SchedSwitch.schedWindowSize b'
            /\ (SchedSwitch.hasReceivedResourceOffers SwitchScenario.fixedWindow = false
                \/ SchedSwitch.schedWindowSize b'
                   <= SchedPolicy.numTasksScheduled (SwitchScenario.scheduled 3)))
    /\ match sw with
       | Some (name, _) =>
           bsps' = SchedSwitch.withScheduled (SwitchScenario.scheduled 3) 0
           /\ (name = SchedSwitch.nameOfFstSchedPolToDeploy SwitchScenario.fixedWindow
               \/ name = "bin-packing"
               \/ exists e, e ∈ Scenario.twoPolicies /\ name = SchedPolicy.spName e)
       | None => bsps' = SwitchScenario.scheduled 3
       end.
Proof.
  apply (SwitchIfNecessary_switches "bin-packing" Scenario.twoPolicies
           SwitchScenario.wholeQueue SwitchScenario.twoClusters
           (SwitchScenario.scheduled 3) SwitchScenario.fixedWindow).
  discriminate.
Defined.

(** ** Bin packing: the queue, the counters and the status updates *)

Section BinPackCells.

Import BinPack BinPackStatus BinPackInvariant.

Lemma total_decrement (cells : gmap nat Z) (p : nat) (n : Z) :
  cells !! p = Some n -> total (<[p := n - 1]> cells) = total cells - 1.
Proof.
  intros Hp. unfold total.
  rewrite <- (insert_delete_id cells p n Hp) at 2.
  rewrite <- (insert_delete_eq cells p (n - 1)).
  rewrite !map_fold_insert_L; try apply lookup_delete_eq; intros; lia.
Qed.

Lemma cellStep_refl (o : option Z) : cellStep o o.
Proof. destruct o; simpl; auto. Qed.

Lemma cellStep_trans (a b c : option Z) : cellStep a b -> cellStep b c -> cellStep a c.
Proof. destruct a, b, c; simpl; try tauto; lia. Qed.

Lemma removed_sublist (i : nat) (ts : list Def.Task) :
  take i ts ++ drop (S i) ts `sublist_of` ts.
Proof.
  rewrite <- (take_drop i ts) at 3. apply sublist_app; [reflexivity|].
  replace (drop (S i) ts) with (drop 1 (drop i ts))
    by (rewrite drop_drop; f_equal; lia).
  apply sublist_drop.
Qed.

End BinPackCells.

Section BinPackQueue.

Import BinPack BinPackStatus BinPackInvariant.

Variable wattsOf : Mesos.Offer -> Def.Task -> float64.
Variable offer : Mesos.Offer.

(** What one placement writes. *)
Lemma place_writes (i : nat) (task : Def.Task) (n : Z) (l l' : Loop) :
  insts (sched l) !! Def.Instances task = Some n ->
  place wattsOf offer i task n l = Go.Ok l' ->
  taken l' = true
  /\ (exists ti, launch l' = launch l ++ [ti] /\ instanceOf offer task n ti)
  /\ tasksCreated (sched l') = tasksCreated (sched l) + 1
  /\ tasksRunning (sched l') = tasksRunning (sched l)
  /\ Done (sched l') = Done (sched l)
  /\ RecordPCP (sched l') = true
  /\ insts (sched l') = <[Def.Instances task := n - 1]> (insts (sched l))
  /\ (0 < n - 1 /\ tasks (sched l') = tasks (sched l) /\ stale l' = stale l
      \/ n - 1 <= 0 /\ (i < length (tasks (sched l)))%nat
         /\ tasks (sched l') = take i (tasks (sched l)) ++ drop (S i) (tasks (sched l))
         /\ stale l' = drop (length (tasks (sched l)) - 1) (tasks (sched l)) ++ stale l).
Proof.
  intros Hn. unfold place, newTask, deref. rewrite Hn. simpl.
  destruct (Z.leb_spec (n - 1) 0) as [Hle|Hgt].
  - unfold removeAt. simpl.
    destruct (Nat.ltb_spec (length (tasks (sched l))) (i + 1)) as [|Hi]; simpl;
      [discriminate|].
    match goal with
    | |- (if ?c then _ else _) = _ -> _ => destruct c
    end;
      [unfold closeShutdown; simpl; destruct (Shutdown (sched l)); [discriminate|]|];
      intros [= <-]; simpl;
      (split; [reflexivity|]);
      (split; [eexists; split; [reflexivity|]; repeat split|]);
      do 5 (split; [reflexivity|]); right; repeat split; auto; lia.
  - intros [= <-]. simpl. repeat (split; [try reflexivity|]).
    + eexists. split; [reflexivity|]. repeat split.
    + left. repeat split; auto.
Qed.

(** A property that a placement keeps, given what the loops know when
    they place: the task is the one in slot [i], its host suits the
    offer, its counter reads [n > 0], and it fits. *)
Section Visited.

Variable P : Loop -> Prop.

Hypothesis P_place :
  forall (i : nat) (task : Def.Task) (n : Z) (l l' : Loop),
    P l ->
    (tasks (sched l) ++ stale l) !! i = Some task ->
    hostOK offer task = true ->
    insts (sched l) !! Def.Instances task = Some n ->
    0 < n ->
    fits wattsOf offer task l = true ->
    place wattsOf offer i task n l = Go.Ok l' -> P l'.

Lemma instancesLoop_visited (fuel i : nat) (task : Def.Task) :
  hostOK offer task = true ->
  forall l l' : Loop,
    P l ->
    ((tasks (sched l) ++ stale l) !! i = Some task
     \/ exists n, insts (sched l) !! Def.Instances task = Some n /\ n <= 0) ->
    instancesLoop wattsOf fuel offer i task l = Go.Ok l' -> P l'.
Proof.
  intros Hhost.
  induction fuel as [|fuel IH]; intros l l' HP Hslot; simpl.
  - now intros [= <-].
  - unfold deref.
    destruct (insts (sched l) !! Def.Instances task) as [n|] eqn:Hn; simpl;
      [|discriminate].
    destruct (Z.gtb_spec n 0) as [Hpos|]; [|now intros [= <-]].
    destruct (fits wattsOf offer task l) eqn:Hfit; [|now intros [= <-]].
    destruct (place wattsOf offer i task n l) as [l1|] eqn:Hplace; simpl; [|discriminate].
    destruct Hslot as [Hslot|(n' & Hn' & Hle)]; [|injection Hn' as <-; lia].
    apply IH; [exact (P_place i task n l l1 HP Hslot Hhost Hn Hpos Hfit Hplace)|].
    destruct (place_writes i task n l l1 Hn Hplace)
      as (_ & _ & _ & _ & _ & _ & Hcells & [(_ & Hts & Hst)|(Hle & _)]).
    + left. now rewrite Hts, Hst.
    + right. exists (n - 1). rewrite Hcells, lookup_insert_eq. auto.
Qed.

Lemma visit_visited (i : nat) (l l' : Loop) :
  P l -> visit wattsOf offer i l = Go.Ok l' -> P l'.
Proof.
  intros HP. unfold visit.
  destruct ((tasks (sched l) ++ stale l) !! i) as [task|] eqn:Hslot; [|discriminate].
  destruct (negb (Def.Host task =? "")%string && _) eqn:Hhost; [now intros [= <-]|].
  destruct (deref (sched l) (Def.Instances task)) as [n|]; simpl; [|discriminate].
  apply instancesLoop_visited; auto.
  unfold hostOK. destruct (Def.Host task =? "")%string; [reflexivity|].
  simpl in *. now destruct (String.prefix _ _).
Qed.

Lemma rangeTasks_visited (k : nat) :
  forall (i : nat) (l l' : Loop),
    P l -> rangeTasks wattsOf k offer i l = Go.Ok l' -> P l'.
Proof.
  induction k as [|k IH]; intros i l l' HP; simpl.
  - now intros [= <-].
  - destruct (visit wattsOf offer i l) as [l1|] eqn:Hvisit; simpl; [|discriminate].
    apply IH. exact (visit_visited i l l1 HP Hvisit).
Qed.

End Visited.

Lemma enter_queue (s : Scheduler) : queue s offer (enter s).
Proof.
  unfold queue, enter. simpl. rewrite app_nil_r.
  repeat split; auto; try lia.
  intros p. apply cellStep_refl.
Qed.

Lemma place_queue (s : Scheduler) (i : nat) (task : Def.Task) (n : Z) (l l' : Loop) :
  queue s offer l ->
  (tasks (sched l) ++ stale l) !! i = Some task ->
  hostOK offer task = true ->
  insts (sched l) !! Def.Instances task = Some n ->
  0 < n ->
  place wattsOf offer i task n l = Go.Ok l' ->
  queue s offer l'.
Proof.
  intros (Hcreated & Hrunning & Hdone & Htaken & Htotal & Hcells & Hsub & Hfrom
          & Hleft & Hlaunch) Hslot Hhost Hn Hpos Hplace.
  destruct (place_writes i task n l l' Hn Hplace)
    as (Htaken' & (ti & Hti & Hinst) & Hc & Hr & Hd & Hpcp & Hcells' & Hqueue).
  assert (Hstart : exists n0, insts s !! Def.Instances task = Some n0 /\ n <= n0).
  { specialize (Hcells (Def.Instances task)). rewrite Hn in Hcells.
    destruct (insts s !! Def.Instances task) as [n0|]; simpl in Hcells; [|contradiction].
    exists n0. split; [reflexivity|lia]. }
  assert (Htask : task ∈ tasks s).
  { apply Hfrom. now apply list_elem_of_lookup_2 in Hslot. }
  unfold queue. rewrite Htaken', Hti, Hc, Hr, Hd, Hpcp, Hcells', length_app. simpl.
  split; [lia|]. split; [exact Hrunning|]. split; [exact Hdone|].
  split; [split; [now destruct (launch l)|reflexivity]|].
  split; [rewrite (total_decrement _ _ _ Hn); lia|].
  split.
  { intros p. destruct (decide (p = Def.Instances task)) as [->|Hne].
    - rewrite lookup_insert_eq. destruct Hstart as (n0 & -> & Hle). simpl. lia.
    - rewrite lookup_insert_ne by congruence. apply Hcells. }
  split.
  { destruct Hqueue as [(_ & -> & _)|(_ & _ & -> & _)]; [exact Hsub|].
    etransitivity; [apply removed_sublist|exact Hsub]. }
  split.
  { intros t Ht. apply Hfrom.
    destruct Hqueue as [(_ & Hts & Hst)|(_ & _ & Hts & Hst)]; rewrite Hts, Hst in Ht;
      [exact Ht|].
    rewrite !elem_of_app in Ht. rewrite elem_of_app.
    destruct Ht as [[Ht|Ht]|[Ht|Ht]]; auto; left.
    - exact (subseteq_take _ _ _ Ht).
    - exact (subseteq_drop _ _ _ Ht).
    - exact (subseteq_drop _ _ _ Ht). }
  split.
  { intros t Ht.
    assert (Hzero : insts (sched l) !! Def.Instances t = Some 0 ->
                    <[Def.Instances task := n - 1]> (insts (sched l)) !! Def.Instances t
                    = Some 0).
    { intros H0. rewrite lookup_insert_ne; [exact H0|].
      intros Heq. rewrite Heq, H0 in Hn. injection Hn as <-. lia. }
    destruct (Hleft t Ht) as [Hin|H0]; [|right; auto].
    destruct Hqueue as [(_ & -> & _)|(Hle & Hi & -> & _)]; [now left|].
    assert (Hat : tasks (sched l) !! i = Some task).
    { rewrite lookup_app_l in Hslot by exact Hi. exact Hslot. }
    rewrite <- (take_drop_middle _ _ _ Hat) in Hin.
    rewrite elem_of_app, elem_of_cons in Hin. rewrite elem_of_app.
    destruct Hin as [Hin|[->|Hin]]; auto.
    right. rewrite lookup_insert_eq. f_equal. lia. }
  apply Forall_app. split; [exact Hlaunch|].
  apply Forall_singleton. destruct Hstart as (n0 & Hn0 & Hle).
  exists task, n, n0. split; [exact Htask|]. split; [exact Hhost|].
  split; [exact Hn0|]. split; [lia|exact Hinst].
Qed.

Lemma offerLoop_queue (s : Scheduler) (l : Loop) :
  offerLoop wattsOf s offer = Go.Ok l -> queue s offer l.
Proof.
  unfold offerLoop. intros Hloop.
  apply (rangeTasks_visited (queue s offer)) with (3 := Hloop); [|apply enter_queue].
  intros i task n l0 l1 HQ Hslot Hhost Hn Hpos _ Hplace.
  now apply place_queue with i task n l0.
Qed.

Lemma consumeOffer_queue (s s' : Scheduler) (call : Mesos.DriverCall) :
  consumeOffer wattsOf s offer = Go.Ok (s', call) ->
  (Shutdown s = true /\ s' = s
   /\ call = Mesos.DeclineOffer (Mesos.Id offer) MesosUtils.LongFilter)
  \/ (Shutdown s = false
      /\ exists l : Loop,
           queue s offer l /\ s' = sched l
           /\ call = if taken l
                     then Mesos.LaunchTasks [Mesos.Id offer] (launch l)
                            MesosUtils.DefaultFilter
                     else Mesos.DeclineOffer (Mesos.Id offer) MesosUtils.DefaultFilter).
Proof.
  unfold consumeOffer. destruct (Shutdown s); [intros [= <- <-]; now left|].
  destruct (offerLoop wattsOf s offer) as [l|] eqn:Hloop; simpl; [|discriminate].
  intros H. right. split; [reflexivity|]. exists l.
  split; [now apply offerLoop_queue|].
  destruct (taken l); injection H as <- <-; auto.
Qed.

(** X9: an offer that is declined leaves the scheduler exactly as it
    was, and the refusal is the long one exactly when [Shutdown] is
    closed; an offer that is taken is answered, [Shutdown] being open,
    with one launch on that offer alone, of at least one task, under the
    default filter, and PCP recording is on from then. *)
Theorem consumeOffer_declines_or_launches (s s' : Scheduler) (call : Mesos.DriverCall) :
  consumeOffer wattsOf s offer = Go.Ok (s', call) ->
  match call with
  | Mesos.DeclineOffer id filters =>
      s' = s /\ id = Mesos.Id offer
      /\ filters = (if Shutdown s then MesosUtils.LongFilter else MesosUtils.DefaultFilter)
  | Mesos.LaunchTasks ids tis filters =>
      Shutdown s = false /\ ids = [Mesos.Id offer] /\ filters = MesosUtils.DefaultFilter
      /\ tis <> [] /\ RecordPCP s' = true
      /\ tasksCreated s' = tasksCreated s + Z.of_nat (length tis)
  end.
Proof.
  intros H. destruct (consumeOffer_queue s s' call H)
    as [(Hsh & -> & ->)|(Hsh & l & HQ & -> & ->)].
  - rewrite Hsh. auto.
  - destruct HQ as (Hcreated & _ & _ & Htaken & _). rewrite Hsh.
    destruct (taken l).
    + destruct Htaken as [Hne Hpcp]. auto 7.
    + destruct Htaken as [-> _]. auto.
Qed.

(** X10: every task launched on an offer is an instance of a task of the
    queue whose host, if it names one, begins the host name of the offer;
    it runs on the agent of the offer, with the command and the image of
    its task, under the name [Name-n] and the id [electron-Name-n], where
    [n] is at least one and at most the instances the scheduler had left
    of the task. *)
Theorem consumeOffer_launches_queued (s s' : Scheduler) (call : Mesos.DriverCall) :
  consumeOffer wattsOf s offer = Go.Ok (s', call) ->
  Forall (launchable s offer) (launched call).
Proof.
  intros H. destruct (consumeOffer_queue s s' call H)
    as [(Hsh & -> & ->)|(Hsh & l & HQ & -> & ->)]; [constructor|].
  destruct HQ as (_ & _ & _ & Htaken & _ & _ & _ & _ & _ & Hlaunch).
  destruct (taken l); [exact Hlaunch|constructor].
Qed.

End BinPackQueue.

Section BinPackBatchQueue.

Import BinPack BinPackStatus BinPackInvariant.

Variable wattsOf : Mesos.Offer -> Def.Task -> float64.

Lemma consumeOffer_counts (offer : Mesos.Offer) (s s' : Scheduler)
    (call : Mesos.DriverCall) :
  consumeOffer wattsOf s offer = Go.Ok (s', call) ->
  tasksCreated s' = tasksCreated s + Z.of_nat (length (launched call))
  /\ total (insts s') + Z.of_nat (length (launched call)) = total (insts s)
  /\ (forall p, cellStep (insts s !! p) (insts s' !! p))
  /\ tasks s' `sublist_of` tasks s
  /\ (forall t, t ∈ tasks s -> t ∈ tasks s' \/ insts s' !! Def.Instances t = Some 0)
  /\ tasksRunning s' = tasksRunning s /\ Done s' = Done s.
Proof.
  intros H. destruct (consumeOffer_queue wattsOf offer s s' call H)
    as [(Hsh & -> & ->)|(Hsh & l & HQ & -> & ->)].
  - simpl. repeat split; auto; try lia. intros p. apply cellStep_refl.
  - destruct HQ as (Hcreated & Hrunning & Hdone & Htaken & Htotal & Hcells & Hsub & _
                    & Hleft & _).
    destruct (taken l); simpl.
    + repeat split; auto.
    + destruct Htaken as [_ Hnil]. rewrite Hnil in *. simpl in *.
      repeat split; auto.
Qed.

Lemma ResourceOffers_facts (offers : list Mesos.Offer) :
  forall (s s' : Scheduler) (calls : list Mesos.DriverCall),
    ResourceOffers wattsOf s offers = Go.Ok (s', calls) ->
    length calls = length offers
    /\ tasksCreated s' = tasksCreated s + Z.of_nat (length (calls ≫= launched))
    /\ total (insts s') + Z.of_nat (length (calls ≫= launched)) = total (insts s)
    /\ (forall p, cellStep (insts s !! p) (insts s' !! p))
    /\ tasks s' `sublist_of` tasks s
    /\ (forall t, t ∈ tasks s -> t ∈ tasks s' \/ insts s' !! Def.Instances t = Some 0)
    /\ tasksRunning s' = tasksRunning s /\ Done s' = Done s.
Proof.
  induction offers as [|offer rest IH]; intros s s' calls; simpl.
  - intros [= <- <-]. simpl. repeat split; auto; try lia. intros p. apply cellStep_refl.
  - destruct (consumeOffer wattsOf s offer) as [[s1 call]|] eqn:Hone; simpl;
      [|discriminate].
    destruct (ResourceOffers wattsOf s1 rest) as [[s2 calls']|] eqn:Hrest; simpl;
      [|discriminate].
    intros [= <- <-].
    destruct (consumeOffer_counts offer s s1 call Hone)
      as (Hc & Ht & Hcells & Hsub & Hleft & Hr & Hd).
    destruct (IH s1 s2 calls' Hrest)
      as (Hlen & Hc' & Ht' & Hcells' & Hsub' & Hleft' & Hr' & Hd').
    cbn [fst snd]. rewrite bind_cons, length_app. cbn [length].
    split; [lia|]. split; [lia|]. split; [lia|].
    split; [intros p; exact (cellStep_trans _ _ _ (Hcells p) (Hcells' p))|].
    split; [etransitivity; eassumption|].
    split; [|split; congruence].
    intros t Ht0. destruct (Hleft t Ht0) as [Hin|H0]; [now apply Hleft'|].
    right. specialize (Hcells' (Def.Instances t)). rewrite H0 in Hcells'.
    destruct (insts s2 !! Def.Instances t) as [n|]; simpl in Hcells'; [|contradiction].
    f_equal. lia.
Qed.

(** X11: over a batch of offers every offer is answered by one call and
    every launched task takes exactly one instance off a counter:
    [tasksCreated] grows, and the sum of the counters falls, by the
    number of tasks launched; a counter never grows, and one that is
    written is not below zero. *)
Theorem ResourceOffers_counts (offers : list Mesos.Offer) (s s' : Scheduler)
    (calls : list Mesos.DriverCall) :
  ResourceOffers wattsOf s offers = Go.Ok (s', calls) ->
  length calls = length offers
  /\ tasksCreated s' = tasksCreated s + Z.of_nat (length (calls ≫= launched))
  /\ total (insts s') + Z.of_nat (length (calls ≫= launched)) = total (insts s)
  /\ forall p, cellStep (insts s !! p) (insts s' !! p).
Proof.
  intros H. destruct (ResourceOffers_facts offers s s' calls H)
    as (H1 & H2 & H3 & H4 & _).
  auto.
Qed.

(** X12: over a batch of offers the queue only loses tasks, keeping the
    others in their order, and a task of the queue that is no longer in
    it has its counter at exactly zero; the number of running tasks and
    [Done] are not touched. *)
Theorem ResourceOffers_queue (offers : list Mesos.Offer) (s s' : Scheduler)
    (calls : list Mesos.DriverCall) :
  ResourceOffers wattsOf s offers = Go.Ok (s', calls) ->
  tasks s' `sublist_of` tasks s
  /\ (forall t, t ∈ tasks s -> t ∈ tasks s' \/ insts s' !! Def.Instances t = Some 0)
  /\ tasksRunning s' = tasksRunning s /\ Done s' = Done s.
Proof.
  intros H. destruct (ResourceOffers_facts offers s s' calls H)
    as (_ & _ & _ & _ & H5 & H6 & H7 & H8).
  auto.
Qed.

End BinPackBatchQueue.

Lemma consumeOffer_declines_or_launches_witness :
  BinPack.Shutdown Scenario.tenInstances = false
  /\ ["offer-1"] = [Mesos.Id Scenario.roomForFive]
  /\ MesosUtils.DefaultFilter = MesosUtils.DefaultFilter
  /\ Scenario.tasksOf QueueScenario.offerCall <> []
  /\ BinPack.RecordPCP QueueScenario.afterOffer = true
  /\ BinPack.tasksCreated QueueScenario.afterOffer
     = BinPack.tasksCreated Scenario.tenInstances
       + Z.of_nat (length (Scenario.tasksOf QueueScenario.offerCall)).
Proof.
  apply (consumeOffer_declines_or_launches BinPack.taskWatts Scenario.roomForFive
           Scenario.tenInstances QueueScenario.afterOffer
           (Mesos.LaunchTasks ["offer-1"] (Scenario.tasksOf QueueScenario.offerCall)
              MesosUtils.DefaultFilter)).
  vm_compute. reflexivity.
Defined.

Lemma consumeOffer_launches_queued_witness :
  Forall (BinPackInvariant.launchable Scenario.tenInstances Scenario.roomForFive)
    (BinPackStatus.launched QueueScenario.offerCall).
Proof.
  apply (consumeOffer_launches_queued BinPack.taskWatts Scenario.roomForFive
           Scenario.tenInstances QueueScenario.afterOffer QueueScenario.offerCall).
  vm_compute. reflexivity.
Defined.

Lemma ResourceOffers_counts_witness :
  length QueueScenario.batchCalls = length [Scenario.roomForFive; Scenario.nextOffer]
  /\ BinPack.tasksCreated QueueScenario.afterBatch
     = BinPack.tasksCreated Scenario.tenInstances
       + Z.of_nat (length (QueueScenario.batchCalls ≫= BinPackStatus.launched))
  /\ BinPackStatus.total (BinPack.insts QueueScenario.afterBatch)
     + Z.of_nat (length (QueueScenario.batchCalls ≫= BinPackStatus.launched))
     = BinPackStatus.total (BinPack.insts Scenario.tenInstances)
  /\ forall p, BinPackInvariant.cellStep (BinPack.insts Scenario.tenInstances !! p)
                 (BinPack.insts QueueScenario.afterBatch !! p).
Proof.
  apply (ResourceOffers_counts BinPack.taskWatts
           [Scenario.roomForFive; Scenario.nextOffer] Scenario.tenInstances
           QueueScenario.afterBatch QueueScenario.batchCalls).
  vm_compute. reflexivity.
Defined.

Lemma ResourceOffers_queue_witness :
  BinPack.tasks Scenario.exactFitDone `sublist_of` BinPack.tasks Scenario.exactFit
  /\ (forall t, t ∈ BinPack.tasks Scenario.exactFit ->
        t ∈ BinPack.tasks Scenario.exactFitDone
        \/ BinPack.insts Scenario.exactFitDone !! Def.Instances t = Some 0)
  /\ BinPack.tasksRunning Scenario.exactFitDone = BinPack.tasksRunning Scenario.exactFit
  /\ BinPack.Done Scenario.exactFitDone = BinPack.Done Scenario.exactFit.
Proof.
  apply (ResourceOffers_queue BinPack.taskWatts [Scenario.exactOffer] Scenario.exactFit
           Scenario.exactFitDone Scenario.exactFitCalls).
  vm_compute. reflexivity.
Defined.

(** ** Bin packing: status updates *)

Section BinPackStatusUpdates.

Import BinPack BinPackStatus.

Lemma StatusUpdate_cases (s : Scheduler) (status : Ranked.TaskStatus) :
  StatusUpdate s status
  = if Ranked.IsTerminal (Ranked.st_State status) then
      let s1 :=
        withRunning s (tasksRunning s - 1)
          match running s !! Ranked.st_SlaveId status with
          | Some onSlave =>
              <[Ranked.st_SlaveId status := delete (Ranked.st_TaskId status) onSlave]>
                (running s)
          | None => running s
          end in
      if (tasksRunning s - 1 =? 0) && Shutdown s then closeDone s1 else Go.Ok s1
    else
      match Ranked.st_State status with
      | Ranked.TASK_RUNNING => Go.Ok (withRunning s (tasksRunning s + 1) (running s))
      | _ => Go.Ok s
      end.
Proof.
  unfold StatusUpdate. destruct (Ranked.st_State status); simpl; try reflexivity;
    destruct (tasksRunning s - 1 =? 0), (Shutdown s); reflexivity.
Qed.

(** X13: a status update fails in one case only, the close of a channel
    that is closed already: a terminal status that brings the number of
    running tasks from one to zero when [Shutdown] and [Done] are both
    closed. *)
Theorem StatusUpdate_fails_iff (s : Scheduler) (status : Ranked.TaskStatus)
    (f : Go.failure) :
  StatusUpdate s status = Go.Fail f
  <-> f = Go.CloseClosed
      /\ Ranked.IsTerminal (Ranked.st_State status) = true
      /\ tasksRunning s = 1 /\ Shutdown s = true /\ Done s = true.
Proof.
  rewrite StatusUpdate_cases.
  destruct (Ranked.IsTerminal (Ranked.st_State status)) eqn:Hterm.
  - cbv zeta. destruct (Z.eqb_spec (tasksRunning s - 1) 0) as [Hone|Hne]; simpl.
    + destruct (Shutdown s); simpl.
      * unfold closeDone. simpl. destruct (Done s).
        -- split; [intros [= <-]; repeat split; lia|intros (-> & _); reflexivity].
        -- split; [discriminate|intros (_ & _ & _ & _ & ?); discriminate].
      * split; [discriminate|intros (_ & _ & _ & ? & _); discriminate].
    + split; [discriminate|intros (_ & _ & ? & _); lia].
  - split; [|intros (_ & ? & _); discriminate].
    destruct (Ranked.st_State status); discriminate.
Qed.

Lemma StatusUpdate_channels (s s' : Scheduler) (status : Ranked.TaskStatus) :
  StatusUpdate s status = Go.Ok s' ->
  tasks s' = tasks s /\ Shutdown s' = Shutdown s /\ insts s' = insts s
  /\ tasksCreated s' = tasksCreated s
  /\ (Done s' = Done s
      \/ Done s = false /\ Done s' = true /\ Shutdown s = true /\ tasksRunning s' = 0).
Proof.
  rewrite StatusUpdate_cases.
  destruct (Ranked.IsTerminal (Ranked.st_State status)).
  - cbv zeta. destruct (Z.eqb_spec (tasksRunning s - 1) 0) as [Hone|Hne]; simpl.
    + destruct (Shutdown s) eqn:Hsh; simpl.
      * unfold closeDone. simpl. destruct (Done s) eqn:Hd; [discriminate|].
        intros [= <-]. simpl. do 4 (split; [solve [auto]|]). right. auto.
      * intros [= <-]. simpl. auto 6.
    + intros [= <-]. simpl. auto 6.
  - destruct (Ranked.st_State status); intros [= <-]; simpl; auto 6.
Qed.

(** X14: the entry that newTask puts into the running set of the agent,
    under the name of the task, is still there after the terminal status
    of that very task: the update deletes under the task id,
    [electron-] followed by the name, which is another key. *)
Theorem StatusUpdate_keeps_running_entry (s s1 s2 : Scheduler) (offer : Mesos.Offer)
    (task : Def.Task) (ti : Mesos.TaskInfo) (st : Ranked.TaskState) :
  newTask s offer task = Go.Ok (s1, ti) ->
  Ranked.IsTerminal st = true ->
  StatusUpdate s1 (Ranked.mkStatus (Mesos.ti_TaskId ti) st (Mesos.ti_SlaveId ti))
  = Go.Ok s2 ->
  exists onSlave : gmap string bool,
    running s2 !! Mesos.SlaveId offer = Some onSlave
    /\ onSlave !! Mesos.ti_Name ti = Some true.
Proof.
  unfold newTask, deref.
  destruct (insts s !! Def.Instances task) as [n|]; simpl; [|discriminate].
  intros [= <- <-] Hterm. rewrite StatusUpdate_cases. simpl. rewrite Hterm.
  rewrite lookup_insert_eq.
  set (name := Def.Name task +:+ "-" +:+ Go.itoa n).
  set (r := <[Mesos.SlaveId offer := delete ("electron-" +:+ name) _]> _).
  assert (Hr : exists onSlave, r !! Mesos.SlaveId offer = Some onSlave
                               /\ onSlave !! name = Some true).
  { eexists. split; [apply lookup_insert_eq|].
    rewrite lookup_delete_ne; [apply lookup_insert_eq|].
    intros Heq. apply (f_equal String.length) in Heq.
    rewrite length_append in Heq. simpl in Heq. lia. }
  destruct ((tasksRunning s - 1 =? 0) && Shutdown s).
  - unfold closeDone. simpl. destruct (Done s); [discriminate|].
    intros [= <-]. exact Hr.
  - intros [= <-]. exact Hr.
Qed.

End BinPackStatusUpdates.

Section BinPackRuns.

Import BinPack BinPackStatus.

Variable wattsOf : Mesos.Offer -> Def.Task -> float64.

Lemma place_shutdownIsEmpty (offer : Mesos.Offer) (i : nat) (task : Def.Task) (n : Z)
    (l l' : Loop) :
  (Shutdown (sched l) = true -> tasks (sched l) = []) ->
  place wattsOf offer i task n l = Go.Ok l' ->
  Shutdown (sched l') = true -> tasks (sched l') = [].
Proof.
  intros HP. unfold place, newTask, deref.
  destruct (insts (sched l) !! Def.Instances task); simpl; [|discriminate].
  destruct (n - 1 <=? 0); [|intros [= <-]; exact HP].
  unfold removeAt. simpl.
  destruct (Nat.ltb_spec (length (tasks (sched l))) (i + 1)) as [|Hi]; simpl;
    [discriminate|].
  match goal with
  | |- (if (?a <=? 0)%nat then _ else _) = _ -> _ =>
      destruct (Nat.leb_spec a 0) as [Hnil|Hcons]
  end.
  - unfold closeShutdown. simpl. destruct (Shutdown (sched l)); [discriminate|].
    intros [= <-] _. simpl. simpl in Hnil.
    destruct (take i (tasks (sched l)) ++ drop (S i) (tasks (sched l)));
      [reflexivity|simpl in Hnil; lia].
  - intros [= <-]. simpl. intros Hsh. rewrite (HP Hsh) in Hi. simpl in Hi. lia.
Qed.

Lemma consumeOffer_shutdownIsEmpty (offer : Mesos.Offer) (s s' : Scheduler)
    (call : Mesos.DriverCall) :
  (Shutdown s = true -> tasks s = []) ->
  consumeOffer wattsOf s offer = Go.Ok (s', call) ->
  (Shutdown s' = true -> tasks s' = [])
  /\ Done s' = Done s /\ (Shutdown s = true -> Shutdown s' = true).
Proof.
  intros HP H.
  destruct (consumeOffer_counts wattsOf offer s s' call H) as (_ & _ & _ & _ & _ & _ & Hd).
  split; [|split; [exact Hd|]].
  - revert H. unfold consumeOffer.
    destruct (Shutdown s) eqn:Hsh; [intros [= <- _] _; auto|].
    destruct (offerLoop wattsOf s offer) as [l|] eqn:Hloop; simpl; [|discriminate].
    assert (HPl : Shutdown (sched l) = true -> tasks (sched l) = []).
    { unfold offerLoop in Hloop.
      apply (rangeTasks_preserves wattsOf offer
               (fun l => Shutdown (sched l) = true -> tasks (sched l) = []))
        with (3 := Hloop); [|simpl; rewrite Hsh; discriminate].
      intros i task n l0 l1 H0 _. now apply place_shutdownIsEmpty. }
    destruct (taken l); now intros [= <- _].
  - intros Hsh. revert H. unfold consumeOffer. rewrite Hsh. now intros [= <- _].
Qed.

Lemma step_channels (s s' : Scheduler) (ev : Event) (calls : list Mesos.DriverCall) :
  (Done s = true -> Shutdown s = true) ->
  (Shutdown s = true -> tasks s = []) ->
  step wattsOf s ev = Go.Ok (s', calls) ->
  (Done s' = true -> Shutdown s' = true)
  /\ (Shutdown s' = true -> tasks s' = [])
  /\ (Shutdown s = true -> Shutdown s' = true)
  /\ (Done s = true -> Done s' = true).
Proof.
  destruct ev as [offers|status]; simpl.
  - revert s calls. induction offers as [|offer rest IH]; intros s calls HD HS; simpl.
    + intros [= <- _]. auto.
    + destruct (consumeOffer wattsOf s offer) as [[s1 call]|] eqn:Hone; simpl;
        [|discriminate].
      destruct (ResourceOffers wattsOf s1 rest) as [[s2 calls']|] eqn:Hrest; simpl;
        [|discriminate].
      intros [= <- _].
      destruct (consumeOffer_shutdownIsEmpty offer s s1 call HS Hone)
        as (HS1 & Hd1 & Hmono).
      assert (HD1 : Done s1 = true -> Shutdown s1 = true).
      { rewrite Hd1. auto. }
      destruct (IH s1 calls' HD1 HS1 Hrest) as (HD2 & HS2 & Hm2 & Hd2).
      repeat split; auto. rewrite <- Hd1. exact Hd2.
  - intros HD HS.
    destruct (StatusUpdate s status) as [s1|] eqn:Hupd; simpl; [|discriminate].
    intros [= <- _].
    destruct (StatusUpdate_channels s s1 status Hupd)
      as (Hts & Hsh & _ & _ & [Hd|(Hd & Hd' & Hsh' & _)]).
    + rewrite Hts, Hsh, Hd. auto.
    + rewrite Hts, Hsh, Hd, Hd'. repeat split; auto.
Qed.

(** X15: through any sequence of offers and status updates the two
    channels stay closed once they are closed, [Shutdown] is closed only
    on an empty queue and [Done] only after [Shutdown]: a scheduler that
    starts with both channels open and is done has scheduled every task
    of its queue. *)
Theorem run_done_after_shutdown (evs : list Event) (s s' : Scheduler)
    (calls : list Mesos.DriverCall) :
  (Done s = true -> Shutdown s = true) ->
  (Shutdown s = true -> tasks s = []) ->
  run wattsOf s evs = Go.Ok (s', calls) ->
  (Done s' = true -> Shutdown s' = true /\ tasks s' = [])
  /\ (Shutdown s = true -> Shutdown s' = true)
  /\ (Done s = true -> Done s' = true).
Proof.
  revert s calls. induction evs as [|ev rest IH]; intros s calls HD HS; simpl.
  - intros [= <- _]. auto.
  - destruct (step wattsOf s ev) as [[s1 calls1]|] eqn:Hstep; simpl; [|discriminate].
    destruct (run wattsOf s1 rest) as [[s2 calls2]|] eqn:Hrest; simpl; [|discriminate].
    intros [= <- _].
    destruct (step_channels s s1 ev calls1 HD HS Hstep) as (HD1 & HS1 & Hm & Hd).
    destruct (IH s1 calls2 HD1 HS1 Hrest) as (Hdone & Hm2 & Hd2).
    auto.
Qed.

End BinPackRuns.

Lemma StatusUpdate_keeps_running_entry_witness :
  exists onSlave : gmap string bool,
    BinPack.running StatusScenario.afterFinished !! Mesos.SlaveId Scenario.exactOffer
    = Some onSlave
    /\ onSlave !! Mesos.ti_Name StatusScenario.createdInfo = Some true.
Proof.
  apply (StatusUpdate_keeps_running_entry Scenario.exactFit StatusScenario.afterCreated
           StatusScenario.afterFinished Scenario.exactOffer
           (Scenario.task "t" 4 8192 80 0) StatusScenario.createdInfo
           Ranked.TASK_FINISHED);
    vm_compute; reflexivity.
Defined.

Lemma run_done_after_shutdown_witness :
  (BinPack.Done StatusScenario.afterLife = true ->
   BinPack.Shutdown StatusScenario.afterLife = true
   /\ BinPack.tasks StatusScenario.afterLife = [])
  /\ (BinPack.Shutdown Scenario.exactFit = true ->
      BinPack.Shutdown StatusScenario.afterLife = true)
  /\ (BinPack.Done Scenario.exactFit = true ->
      BinPack.Done StatusScenario.afterLife = true).
Proof.
  apply (run_done_after_shutdown BinPack.taskWatts StatusScenario.lifeOfOneTask
           Scenario.exactFit StatusScenario.afterLife
           (Scenario.outputOf [] StatusScenario.lifeRun)).
  - discriminate.
  - discriminate.
  - vm_compute. reflexivity.
Defined.

(** ** Bin packing: takeOffer *)

Section BinPackFirstFit.

Import BinPack BinPackStatus.

Variable offer : Mesos.Offer.

Lemma geb_add_zero (x y : float64) :
  Float64.geb y (Float64.add Float64.zero x) = Float64.geb y x.
Proof. exact (leb_add_zero x y). Qed.

(** On an offer nothing has been put on yet, the fit test of the loop
    is takeOffer. *)
Lemma fits_enter (s : Scheduler) (task : Def.Task) :
  ignoreWatts s = false ->
  fits taskWatts offer task (enter s) = takeOffer offer task.
Proof.
  intros Hiw. unfold fits, takeOffer, enter, taskWatts.
  cbn [totalWatts totalCPU totalRAM sched].
  destruct (OfferUtils.OfferAgg offer) as [[cpus mem] watts].
  rewrite Hiw, !geb_add_zero.
  destruct (Float64.geb watts (Def.Watts task)), (Float64.geb cpus (Def.CPU task)),
           (Float64.geb mem (Def.RAM task)); reflexivity.
Qed.

Lemma rangeTasks_nothing_fits (s : Scheduler) :
  ignoreWatts s = false ->
  (forall t, t ∈ tasks s -> is_Some (insts s !! Def.Instances t)) ->
  (forall t, t ∈ tasks s -> takeOffer offer t = false) ->
  forall k i : nat,
    (i + k <= length (tasks s))%nat ->
    rangeTasks taskWatts k offer i (enter s) = Go.Ok (enter s).
Proof.
  intros Hiw Hcells Hnone. induction k as [|k IH]; intros i Hk; simpl; [reflexivity|].
  assert (Hvisit : visit taskWatts offer i (enter s) = Go.Ok (enter s)).
  { unfold visit. simpl. rewrite app_nil_r.
    destruct (lookup_lt_is_Some_2 (tasks s) i) as [task Htask]; [lia|].
    rewrite Htask. apply list_elem_of_lookup_2 in Htask.
    destruct (negb _ && _); [reflexivity|].
    unfold deref. simpl. destruct (Hcells task Htask) as [n Hn]. rewrite Hn. simpl.
    destruct (Z.to_nat n); simpl; [reflexivity|].
    unfold deref. simpl. rewrite Hn. simpl.
    destruct (n >? 0); [|reflexivity].
    rewrite (fits_enter s task Hiw), (Hnone task Htask). reflexivity. }
  rewrite Hvisit. simpl. apply IH. lia.
Qed.

(** X16: an offer that takeOffer refuses for every task of the queue is
    declined under the default filter and the scheduler is left as it
    was (watts being accounted, [Shutdown] open and every task holding a
    counter). *)
Theorem nothing_fits_is_declined (s : Scheduler) :
  Shutdown s = false ->
  ignoreWatts s = false ->
  (forall t, t ∈ tasks s -> is_Some (insts s !! Def.Instances t)) ->
  (forall t, t ∈ tasks s -> takeOffer offer t = false) ->
  BinPackSortedWatts.consumeOffer s offer
  = Go.Ok (s, Mesos.DeclineOffer (Mesos.Id offer) MesosUtils.DefaultFilter).
Proof.
  intros Hsh Hiw Hcells Hnone.
  unfold BinPackSortedWatts.consumeOffer, consumeOffer, offerLoop. rewrite Hsh.
  rewrite (rangeTasks_nothing_fits s Hiw Hcells Hnone) by lia. reflexivity.
Qed.

End BinPackFirstFit.

Lemma nothing_fits_is_declined_witness :
  BinPackSortedWatts.consumeOffer Scenario.tenInstances FitScenario.tooSmall
  = Go.Ok (Scenario.tenInstances,
           Mesos.DeclineOffer (Mesos.Id FitScenario.tooSmall) MesosUtils.DefaultFilter).
Proof.
  apply (nothing_fits_is_declined FitScenario.tooSmall Scenario.tenInstances).
  - reflexivity.
  - reflexivity.
  - intros t Ht. apply list_elem_of_singleton in Ht as ->. vm_compute. eauto.
  - intros t Ht. apply list_elem_of_singleton in Ht as ->. vm_compute. reflexivity.
Defined.

(** ** MaxGreedyMins *)

Section MaxGreedyMinsSafety.

Import MaxGreedyMins MaxGreedyMinsView.

Variable newTask : Mesos.Offer -> Def.Task -> Z -> Mesos.TaskInfo.
Variable offer : Mesos.Offer.

Lemma safe_bind {A B : Type} (P : A -> Prop) (Q : B -> Prop) (r : Go.result A)
    (k : A -> Go.result B) :
  safe P r -> (forall a, P a -> safe Q (k a)) -> safe Q (Go.bind r k).
Proof. destruct r as [a|f]; simpl; auto. Qed.

Lemma wattsOrFatal_safe (b : baseScheduler) (task : Def.Task) :
  safe (fun _ => True) (wattsOrFatal b task offer).
Proof.
  unfold wattsOrFatal. destruct (Def.WattsToConsider _ _ _); simpl; [|exact I].
  right. eauto.
Qed.

(** What a call of CheckFit on a slot of the queue does: it fails
    benignly, or says no and leaves everything as it was, or places one
    instance. *)
Lemma CheckFit_safe (i : nat) (task : Def.Task) (w : float64) (l : Loop) :
  closedIsEmpty l ->
  (i < length (tasks (base l)))%nat ->
  safe (fun r =>
          closedIsEmpty (snd r)
          /\ (fst r = false ->
              snd r = l
              /\ takeOffer (base l) offer task (totalCPU l) (totalRAM l) (totalWatts l)
                 = Go.Ok false)
          /\ (fst r = true ->
              takeOffer (base l) offer task (totalCPU l) (totalRAM l) (totalWatts l)
              = Go.Ok true
              /\ offerTaken (snd r) = true
              /\ placed (snd r) = placed l ++ [(task, w)]
              /\ exists n,
                   insts (base l) !! Def.Instances task = Some n
                   /\ launch (snd r) = launch l ++ [newTask offer task n]
                   /\ insts (base (snd r))
                      = <[Def.Instances task := n - 1]> (insts (base l))
                   /\ (0 < n - 1 /\ tasks (base (snd r)) = tasks (base l)
                       \/ n - 1 <= 0
                          /\ tasks (base (snd r))
                             = take i (tasks (base l)) ++ drop (S i) (tasks (base l)))))
       (CheckFit newTask i task w offer l).
Proof.
  intros HK Hi. unfold CheckFit.
  destruct (takeOffer (base l) offer task (totalCPU l) (totalRAM l) (totalWatts l))
    as [fit|f] eqn:Htake; simpl.
  2:{ revert Htake. unfold takeOffer.
      destruct (OfferUtils.OfferAgg offer) as [[cpus mem] watts].
      pose proof (wattsOrFatal_safe (base l) task) as Hw.
      destruct (wattsOrFatal (base l) task offer); simpl; [discriminate|].
      now intros [= <-]. }
  destruct fit; simpl.
  2:{ split; [exact HK|]. split; [auto|discriminate]. }
  unfold deref.
  destruct (insts (base l) !! Def.Instances task) as [n|] eqn:Hn; simpl; [|now left].
  destruct (Z.leb_spec (n - 1) 0) as [Hle|Hgt]; simpl.
  - unfold removeAt. simpl.
    destruct (Nat.ltb_spec (length (tasks (base l))) (i + 1)); simpl; [lia|].
    match goal with
    | |- context [(?a <=? 0)%nat] => destruct (Nat.leb_spec a 0) as [Hnil|Hcons]
    end.
    + destruct (Shutdown (base l)) eqn:Hsh; simpl.
      { unfold closedIsEmpty in HK. rewrite (HK Hsh) in Hi. simpl in Hi. lia. }
      split.
      { unfold closedIsEmpty. simpl. intros _.
        destruct (take i (tasks (base l)) ++ drop (S i) (tasks (base l)));
          [reflexivity|simpl in Hnil; lia]. }
      split; [discriminate|]. intros _. repeat split.
      exists n. repeat split. right. auto.
    + split.
      { unfold closedIsEmpty in *. simpl. intros Hsh. rewrite (HK Hsh) in Hi.
        simpl in Hi. lia. }
      split; [discriminate|]. intros _. repeat split.
      exists n. repeat split. right. auto.
  - split; [exact HK|]. split; [discriminate|]. intros _. repeat split.
    exists n. repeat split. left. split; [lia|reflexivity].
Qed.

Lemma heaviest_safe (k : nat) :
  forall l : Loop,
    closedIsEmpty l ->
    (k <= length (tasks (base l)))%nat ->
    safe closedIsEmpty (heaviest newTask k offer l).
Proof.
  induction k as [|k IH]; intros l HK Hk; simpl; [exact HK|].
  destruct (lookup_lt_is_Some_2 (tasks (base l)) k) as [task ->]; [lia|].
  apply (safe_bind (fun _ => True)); [apply wattsOrFatal_safe|]. intros w _.
  destruct (OfferUtils.HostMismatch _ _); [apply IH; [exact HK|lia]|].
  eapply safe_bind; [apply (CheckFit_safe k task w l HK); lia|].
  intros [fit l1] (HK1 & Hno & Hyes). simpl in *.
  destruct fit; [exact HK1|].
  destruct (Hno eq_refl) as [-> _]. apply IH; [exact HK|lia].
Qed.

Lemma instancesLoop_safe (fuel i : nat) (task : Def.Task) (w : float64) :
  forall l : Loop,
    closedIsEmpty l ->
    ((i < length (tasks (base l)))%nat
     \/ exists n, insts (base l) !! Def.Instances task = Some n /\ n <= 0) ->
    safe closedIsEmpty (instancesLoop newTask fuel i task w offer l).
Proof.
  induction fuel as [|fuel IH]; intros l HK Hslot; simpl; [exact HK|].
  unfold deref.
  destruct (insts (base l) !! Def.Instances task) as [n|] eqn:Hn; simpl; [|now left].
  destruct (Z.gtb_spec n 0) as [Hpos|]; [|exact HK].
  destruct Hslot as [Hi|(n' & [= <-] & Hle)]; [|lia].
  eapply safe_bind; [apply (CheckFit_safe i task w l HK Hi)|].
  intros [fit l1] (HK1 & Hno & Hyes). simpl in *.
  destruct fit; [|exact HK1].
  destruct (Hyes eq_refl) as (_ & _ & _ & n' & Hn' & _ & Hcells & Hqueue).
  rewrite Hn in Hn'. injection Hn' as <-.
  apply IH; [exact HK1|].
  destruct Hqueue as [(_ & ->)|(Hle & _)]; [now left|].
  right. exists (n - 1). rewrite Hcells, lookup_insert_eq. auto.
Qed.

Lemma lightest_safe (k : nat) :
  forall (i : nat) (l : Loop),
    closedIsEmpty l -> safe closedIsEmpty (lightest newTask k i offer l).
Proof.
  induction k as [|k IH]; intros i l HK; simpl; [exact HK|].
  destruct (tasks (base l) !! i) as [task|] eqn:Hslot; [|exact HK].
  apply lookup_lt_Some in Hslot.
  apply (safe_bind (fun _ => True)); [apply wattsOrFatal_safe|]. intros w _.
  destruct (OfferUtils.HostMismatch _ _); [now apply IH|].
  unfold deref at 1.
  destruct (insts (base l) !! Def.Instances task) as [n|]; simpl; [|now left].
  eapply safe_bind; [apply (instancesLoop_safe _ i task w l HK); now left|].
  intros l1 HK1. now apply IH.
Qed.

Lemma consumeOffer_safe (b : baseScheduler) :
  safe (fun _ => True) (consumeOffer newTask b offer).
Proof.
  unfold consumeOffer. destruct (Shutdown b) eqn:Hsh; [exact I|].
  apply (safe_bind closedIsEmpty).
  - unfold offerLoop.
    assert (H0 : closedIsEmpty (enter b)).
    { unfold closedIsEmpty. simpl. rewrite Hsh. discriminate. }
    eapply safe_bind; [apply (heaviest_safe _ (enter b) H0); simpl; lia|].
    intros l HK. now apply lightest_safe.
  - intros l _. destruct (offerTaken l); exact I.
Qed.

End MaxGreedyMinsSafety.

(** X17: MaxGreedyMins does not index its queue out of range, slice it
    out of bounds or close [Shutdown] twice, whatever the queue and the
    offers: consuming a batch of offers can only fail on a task without
    an instance counter or by the exit on a power class unknown to a
    task. *)
Theorem ConsumeOffers_fails_benignly
    (newTask : Mesos.Offer -> Def.Task -> Z -> Mesos.TaskInfo)
    (SortTasks : list Def.Task -> list Def.Task)
    (b : MaxGreedyMins.baseScheduler) (offers : list Mesos.Offer) (f : Go.failure) :
  MaxGreedyMins.ConsumeOffers newTask SortTasks b offers = Go.Fail f ->
  f = Go.NilDeref \/ exists msg : string, f = Go.Fatal msg.
Proof.
  unfold MaxGreedyMins.ConsumeOffers.
  generalize (MaxGreedyMins.mkBase (SortTasks (MaxGreedyMins.tasks b))
                (MaxGreedyMins.insts b) (MaxGreedyMins.classMapWatts b)
                (MaxGreedyMins.wattsAsAResource b) (MaxGreedyMins.Shutdown b)).
  induction offers as [|offer rest IH]; intros b0; simpl; [discriminate|].
  pose proof (consumeOffer_safe newTask offer b0) as Hone.
  destruct (MaxGreedyMins.consumeOffer newTask b0 offer) as [[b1 call]|f1]; simpl.
  - destruct (MaxGreedyMins.consumeAll newTask b1 rest) as [[b2 calls]|f2] eqn:Hrest;
      simpl; [discriminate|].
    intros [= <-]. exact (IH b1 Hrest).
  - intros [= <-]. exact Hone.
Qed.

Lemma ConsumeOffers_fails_benignly_witness :
  GreedyScenario.failureOf GreedyScenario.unknownClassRun = Go.NilDeref
  \/ exists msg : string,
       GreedyScenario.failureOf GreedyScenario.unknownClassRun = Go.Fatal msg.
Proof.
  apply (ConsumeOffers_fails_benignly Scenario.namedTask Scenario.asQueued
           (Scenario.baseQueue true [Scenario.classTask] [1])
           [Scenario.classOffer "B" 50]
           (GreedyScenario.failureOf GreedyScenario.unknownClassRun)).
  vm_compute. reflexivity.
Defined.

Section MaxGreedyMinsHeaviest.

Import MaxGreedyMins MaxGreedyMinsView.

Variable newTask : Mesos.Offer -> Def.Task -> Z -> Mesos.TaskInfo.
Variable offer : Mesos.Offer.

Lemma CheckFit_Ok (i : nat) (task : Def.Task) (w : float64) (l l' : Loop) (fit : bool) :
  CheckFit newTask i task w offer l = Go.Ok (fit, l') ->
  takeOffer (base l) offer task (totalCPU l) (totalRAM l) (totalWatts l) = Go.Ok fit
  /\ if fit
     then offerTaken l' = true /\ placed l' = placed l ++ [(task, w)]
          /\ length (launch l') = S (length (launch l))
     else l' = l.
Proof.
  unfold CheckFit.
  destruct (takeOffer (base l) offer task (totalCPU l) (totalRAM l) (totalWatts l))
    as [fit'|]; simpl; [|discriminate].
  destruct fit'; [|intros [= <- <-]; auto].
  destruct (deref (base l) (Def.Instances task)) as [n|]; simpl; [|discriminate].
  match goal with
  | |- context [Go.bind ?r _] => destruct r as [b2|]; simpl; [|discriminate]
  end.
  intros [= <- <-]. simpl. rewrite length_app. simpl. repeat split; auto. lia.
Qed.

(** X18: the first phase of MaxGreedyMins places at most one instance:
    that of the task nearest the back of the queue whose host suits the
    offer and that fits; the tasks behind it were passed over, and when
    every task is passed over nothing changes. *)
Theorem heaviest_takes_last_that_fits (k : nat) :
  forall l l' : Loop,
    heaviest newTask k offer l = Go.Ok l' ->
    (l' = l
     /\ forall (j : nat) (t : Def.Task),
          (j < k)%nat -> tasks (base l) !! j = Some t -> refused offer l t)
    \/ exists (i : nat) (task : Def.Task) (w : float64),
         (i < k)%nat
         /\ tasks (base l) !! i = Some task
         /\ wattsOrFatal (base l) task offer = Go.Ok w
         /\ OfferUtils.HostMismatch (Mesos.Hostname offer) (Def.Host task) = false
         /\ takeOffer (base l) offer task (totalCPU l) (totalRAM l) (totalWatts l)
            = Go.Ok true
         /\ offerTaken l' = true
         /\ placed l' = placed l ++ [(task, w)]
         /\ length (launch l') = S (length (launch l))
         /\ forall (j : nat) (t : Def.Task),
              (i < j < k)%nat -> tasks (base l) !! j = Some t -> refused offer l t.
Proof.
  induction k as [|k IH]; intros l l'; simpl.
  - intros [= <-]. left. split; [reflexivity|]. intros j t Hj. lia.
  - destruct (tasks (base l) !! k) as [task|] eqn:Hslot; [|discriminate].
    destruct (wattsOrFatal (base l) task offer) as [w|] eqn:Hw; simpl; [|discriminate].
    match goal with
    | |- _ -> ?G =>
        assert (Hstep : refused offer l task ->
                        heaviest newTask k offer l = Go.Ok l' -> G)
    end.
    { intros Href Hrest. destruct (IH l l' Hrest) as [[-> Hall]|Hsome].
      - left. split; [reflexivity|]. intros j t Hj Ht.
        destruct (decide (j = k)) as [->|]; [|apply (Hall j); [lia|exact Ht]].
        rewrite Hslot in Ht. injection Ht as <-. exact Href.
      - right. destruct Hsome as (i & task' & w' & Hi & H1 & H2 & H3 & H4 & H5 & H6
                                  & H7 & Hall).
        exists i, task', w'. repeat (split; [auto; lia|]).
        intros j t Hj Ht.
        destruct (decide (j = k)) as [->|]; [|apply (Hall j); [lia|exact Ht]].
        rewrite Hslot in Ht. injection Ht as <-. exact Href. }
    destruct (OfferUtils.HostMismatch _ _) eqn:Hhost.
    { apply Hstep. now left. }
    destruct (CheckFit newTask k task w offer l) as [[fit l1]|] eqn:Hfit; simpl;
      [|discriminate].
    destruct (CheckFit_Ok k task w l l1 fit Hfit) as [Htake Hres].
    destruct fit.
    + intros [= <-]. right. destruct Hres as (Ht & Hp & Hl).
      exists k, task, w. repeat (split; [auto|]). intros j t Hj. lia.
    + subst l1. apply Hstep. now right.
Qed.

End MaxGreedyMinsHeaviest.

Lemma heaviest_takes_last_that_fits_witness :
  (GreedyScenario.heavyFirst = MaxGreedyMins.enter Scenario.greedyQueue
   /\ forall (j : nat) (t : Def.Task),
        (j < 2)%nat ->
        MaxGreedyMins.tasks (MaxGreedyMins.base (MaxGreedyMins.enter Scenario.greedyQueue))
          !! j = Some t ->
        MaxGreedyMinsView.refused Scenario.roomForFive
          (MaxGreedyMins.enter Scenario.greedyQueue) t)
  \/ exists (i : nat) (task : Def.Task) (w : float64),
       (i < 2)%nat
       /\ MaxGreedyMins.tasks
            (MaxGreedyMins.base (MaxGreedyMins.enter Scenario.greedyQueue)) !! i
          = Some task
       /\ MaxGreedyMins.wattsOrFatal
            (MaxGreedyMins.base (MaxGreedyMins.enter Scenario.greedyQueue)) task
            Scenario.roomForFive = Go.Ok w
       /\ OfferUtils.HostMismatch (Mesos.Hostname Scenario.roomForFive) (Def.Host task)
          = false
       /\ MaxGreedyMins.takeOffer
            (MaxGreedyMins.base (MaxGreedyMins.enter Scenario.greedyQueue))
            Scenario.roomForFive task
            (MaxGreedyMins.totalCPU (MaxGreedyMins.enter Scenario.greedyQueue))
            (MaxGreedyMins.totalRAM (MaxGreedyMins.enter Scenario.greedyQueue))
            (MaxGreedyMins.totalWatts (MaxGreedyMins.enter Scenario.greedyQueue))
          = Go.Ok true
       /\ MaxGreedyMins.offerTaken GreedyScenario.heavyFirst = true
       /\ MaxGreedyMins.placed GreedyScenario.heavyFirst
          = MaxGreedyMins.placed (MaxGreedyMins.enter Scenario.greedyQueue)
            ++ [(task, w)]
       /\ length (MaxGreedyMins.launch GreedyScenario.heavyFirst)
          = S (length (MaxGreedyMins.launch (MaxGreedyMins.enter Scenario.greedyQueue)))
       /\ forall (j : nat) (t : Def.Task),
            (i < j < 2)%nat ->
            MaxGreedyMins.tasks
              (MaxGreedyMins.base (MaxGreedyMins.enter Scenario.greedyQueue)) !! j
            = Some t ->
            MaxGreedyMinsView.refused Scenario.roomForFive
              (MaxGreedyMins.enter Scenario.greedyQueue) t.
Proof.
  apply (heaviest_takes_last_that_fits Scenario.namedTask Scenario.roomForFive 2
           (MaxGreedyMins.enter Scenario.greedyQueue) GreedyScenario.heavyFirst).
  vm_compute. reflexivity.
Defined.

(** ** Ranked cluster-wide capping *)

Section RankedMore.

Import Ranked RankedView.

Variable Capper : Type.
Variable FCFSDeterminedCap :
  Capper -> gmap string float64 -> Def.Task -> Capper * (string + float64).
Variable TaskFinished : Capper -> string -> Capper.
Variable CleverRecap :
  Capper -> gmap string float64 -> gmap string (list (string * Def.Task)) ->
  string -> Capper * (string + float64).
Variable sortByWatts : list Def.Task -> list Def.Task.

Abbreviation State := (Scheduler Capper).

Lemma observe_maps (s : State) (offer : Mesos.Offer) (host : string) :
  totalPower Capper (observe Capper s offer) !! host
  = match totalPower Capper s !! host with
    | Some w => Some w
    | None => if decide (Mesos.Hostname offer = host) then Some (watts offer) else None
    end
  /\ availablePower Capper (observe Capper s offer) !! host
     = (if decide (Mesos.Hostname offer = host) then Some (watts offer)
        else availablePower Capper s !! host)
  /\ tasks Capper (observe Capper s offer) = tasks Capper s
  /\ insts Capper (observe Capper s offer) = insts Capper s
  /\ Shutdown Capper (observe Capper s offer) = Shutdown Capper s.
Proof.
  unfold observe, watts.
  destruct (OfferUtils.OfferAgg offer) as [[cpu mem] w]. simpl.
  split; [|split; [|auto]].
  - destruct (decide (Mesos.Hostname offer = host)) as [<-|Hne].
    + destruct (totalPower Capper s !! Mesos.Hostname offer) eqn:Hold; simpl.
      * now rewrite Hold.
      * now rewrite lookup_insert_eq.
    + destruct (totalPower Capper s !! Mesos.Hostname offer); simpl;
        [|rewrite lookup_insert_ne by exact Hne];
        now destruct (totalPower Capper s !! host).
  - destruct (decide (Mesos.Hostname offer = host)) as [<-|Hne].
    + now rewrite lookup_insert_eq.
    + now rewrite lookup_insert_ne by exact Hne.
Qed.

Lemma observe_all_total (offers : list Mesos.Offer) (host : string) :
  forall s : State,
    totalPower Capper (fold_left (observe Capper) offers s) !! host
    = match totalPower Capper s !! host with
      | Some w => Some w
      | None => head (fromHost host offers)
      end.
Proof.
  induction offers as [|offer rest IH]; intros s; cbn [fold_left].
  - now destruct (totalPower Capper s !! host).
  - rewrite IH. destruct (observe_maps s offer host) as (-> & _).
    unfold fromHost. rewrite filter_cons.
    destruct (totalPower Capper s !! host); [reflexivity|].
    destruct (decide (Mesos.Hostname offer = host)); reflexivity.
Qed.

Lemma observe_all_available (offers : list Mesos.Offer) (host : string) (s : State) :
  availablePower Capper (fold_left (observe Capper) offers s) !! host
  = match last (fromHost host offers) with
    | Some w => Some w
    | None => availablePower Capper s !! host
    end.
Proof.
  induction offers as [|offer rest IH] using rev_ind; [reflexivity|].
  rewrite fold_left_app. cbn [fold_left].
  destruct (observe_maps (fold_left (observe Capper) rest s) offer host) as (_ & -> & _).
  unfold fromHost in *. rewrite filter_app, fmap_app, filter_cons, filter_nil.
  destruct (decide (Mesos.Hostname offer = host)); simpl.
  - now rewrite last_snoc.
  - rewrite app_nil_r. exact IH.
Qed.

Lemma observe_all_queue (offers : list Mesos.Offer) :
  forall s : State,
    tasks Capper (fold_left (observe Capper) offers s) = tasks Capper s
    /\ insts Capper (fold_left (observe Capper) offers s) = insts Capper s
    /\ Shutdown Capper (fold_left (observe Capper) offers s) = Shutdown Capper s.
Proof.
  induction offers as [|offer rest IH]; intros s; cbn [fold_left]; [auto|].
  destruct (IH (observe Capper s offer)) as (-> & -> & ->).
  destruct (observe_maps s offer "") as (_ & _ & -> & -> & ->). auto.
Qed.

(** Taking the element in slot [i] out of a list by moving the last
    element into its place. *)
Lemma swap_remove_Permutation (ts : list Def.Task) (i : nat) (task t : Def.Task) :
  ts !! i = Some task ->
  last ts = Some t ->
  ts ≡ₚ task :: take (length ts - 1) (<[i := t]> ts).
Proof.
  intros Hi Hlast. apply last_Some in Hlast as [ts0 ->].
  rewrite length_app. simpl. replace (length ts0 + 1 - 1)%nat with (length ts0) by lia.
  destruct (decide (i < length ts0)%nat) as [Hlt|Hge].
  - rewrite lookup_app_l in Hi by exact Hlt.
    rewrite insert_app_l by exact Hlt.
    rewrite take_app_length' by (now rewrite length_insert).
    rewrite <- (take_drop_middle ts0 i task Hi) at 1.
    rewrite insert_take_drop by exact Hlt.
    rewrite <- !app_assoc. simpl.
    rewrite <- Permutation_middle. rewrite (Permutation_app_comm _ [t]). simpl.
    rewrite <- Permutation_middle. reflexivity.
  - assert (i = length ts0) as ->.
    { apply lookup_lt_Some in Hi. rewrite length_app in Hi. simpl in Hi. lia. }
    rewrite list_lookup_middle in Hi by reflexivity. injection Hi as <-.
    rewrite insert_app_r_alt by lia. rewrite Nat.sub_diag. simpl.
    rewrite take_app_length. symmetry. apply Permutation_cons_append.
Qed.

(** What launching one instance of the task in slot [i] does. *)
Lemma schedule_effect (s s' : State) (offer : Mesos.Offer) (i : nat)
    (task : Def.Task) (call : Mesos.DriverCall) :
  tasks Capper s !! i = Some task ->
  schedule Capper FCFSDeterminedCap s offer i task = Go.Ok (s', call) ->
  exists n : Z,
    insts Capper s !! Def.Instances task = Some n
    /\ insts Capper s' = <[Def.Instances task := n - 1]> (insts Capper s)
    /\ tasksCreated Capper s' = tasksCreated Capper s + 1
    /\ tasksRunning Capper s' = tasksRunning Capper s
    /\ Done Capper s' = Done Capper s
    /\ totalPower Capper s' = totalPower Capper s
    /\ availablePower Capper s' = availablePower Capper s
    /\ (if decide (0 < n - 1) then tasks Capper s' = tasks Capper s
        else tasks Capper s ≡ₚ task :: tasks Capper s')
    /\ match tasks Capper s' with
       | [] =>
           Shutdown Capper s = false /\ Shutdown Capper s' = true
           /\ isCapping Capper s' = false /\ isRecapping Capper s' = true
           /\ tickerStopped Capper s' = true /\ recappingStarted Capper s' = true
       | _ :: _ =>
           Shutdown Capper s' = Shutdown Capper s /\ isCapping Capper s' = true
       end.
Proof.
  intros Hslot. unfold schedule.
  set (s1 := determineCap Capper FCFSDeterminedCap (beginCapping Capper s) task).
  assert (H1 : tasks Capper s1 = tasks Capper s /\ insts Capper s1 = insts Capper s
               /\ tasksCreated Capper s1 = tasksCreated Capper s
               /\ tasksRunning Capper s1 = tasksRunning Capper s
               /\ Done Capper s1 = Done Capper s
               /\ totalPower Capper s1 = totalPower Capper s
               /\ availablePower Capper s1 = availablePower Capper s
               /\ isCapping Capper s1 = true
               /\ Shutdown Capper s1 = Shutdown Capper s).
  { unfold s1, determineCap, beginCapping.
    destruct (isCapping Capper s) eqn:Hcap;
      destruct (FCFSDeterminedCap _ _ _) as [c [e|tempCap]]; simpl;
      repeat split; auto. }
  destruct H1 as (Hts & Hcells & Hc & Hr & Hd & Htp & Hap & Hcap & Hsh).
  clearbody s1.
  unfold newTask, deref. rewrite Hcells.
  destruct (insts Capper s !! Def.Instances task) as [n|] eqn:Hn; simpl;
    [|discriminate].
  rewrite Hn. simpl. rewrite Hts.
  pose proof (list_elem_of_lookup_2 _ _ _ Hslot) as Hin.
  destruct (Z.leb_spec (n - 1) 0) as [Hle|Hgt].
  - destruct (last (tasks Capper s)) as [t|] eqn:Hlast; [|discriminate].
    pose proof (swap_remove_Permutation _ _ _ _ Hslot Hlast) as Hperm.
    destruct (take (length (tasks Capper s) - 1) (<[i:=t]> (tasks Capper s)))
      as [|t0 ts0] eqn:Htake; simpl.
    + unfold closeShutdown, startRecapping, stopCapping. simpl. rewrite Hcap. simpl.
      rewrite Hsh. destruct (Shutdown Capper s) eqn:Hold; [discriminate|].
      intros [= <- _]. simpl. exists n.
      do 7 (split; [congruence|]).
      split; [destruct (decide (0 < n - 1)); [lia|exact Hperm]|].
      repeat split.
    + intros [= <- _]. simpl. exists n.
      do 7 (split; [congruence|]).
      split; [destruct (decide (0 < n - 1)); [lia|exact Hperm]|].
      auto.
  - intros [= <- _]. simpl. exists n.
    do 7 (split; [congruence|]).
    split; [destruct (decide (0 < n - 1)); [reflexivity|lia]|].
    destruct (tasks Capper s) as [|t0 ts0]; [now apply elem_of_nil in Hin|auto].
Qed.

Lemma drop_cons_lookup (ts rest : list Def.Task) (i : nat) (task : Def.Task) :
  drop i ts = task :: rest -> ts !! i = Some task /\ drop (S i) ts = rest.
Proof.
  intros Hdrop. split.
  - pose proof (lookup_drop ts i 0) as H. rewrite Hdrop, Nat.add_0_r in H.
    now rewrite <- H.
  - replace (S i) with (i + 1)%nat by lia. rewrite <- drop_drop, Hdrop. reflexivity.
Qed.

Lemma scan_effect (offer : Mesos.Offer) (rest : list Def.Task) :
  forall (i : nat) (s s' : State) (found : option Mesos.DriverCall),
    drop i (tasks Capper s) = rest ->
    scan Capper FCFSDeterminedCap s offer i rest = Go.Ok (s', found) ->
    match found with
    | None => s' = s
    | Some call =>
        exists (j : nat) (task : Def.Task),
          tasks Capper s !! j = Some task
          /\ Invariant.eligible offer task = true
          /\ schedule Capper FCFSDeterminedCap s offer j task = Go.Ok (s', call)
    end.
Proof.
  induction rest as [|task rest IH]; intros i s s' found Hdrop; simpl.
  - now intros [= <- <-].
  - destruct (drop_cons_lookup _ _ _ _ Hdrop) as [Hslot Hnext].
    destruct (String.prefix (Def.Host task) (Mesos.Hostname offer)) eqn:Hhost; simpl;
      [|now apply IH].
    destruct (takeOffer offer task) eqn:Hfit; [|now apply IH].
    destruct (schedule Capper FCFSDeterminedCap s offer i task) as [[s1 call]|] eqn:Hs;
      simpl; [|discriminate].
    intros [= <- <-]. exists i, task. split; [exact Hslot|]. split; [|exact Hs].
    unfold Invariant.eligible. now rewrite Hhost, Hfit.
Qed.

(** An offer is declined and nothing changes, or one eligible task of
    the queue is scheduled on it. *)
Lemma consumeOffer_effect (s s' : State) (offer : Mesos.Offer)
    (calls : list Mesos.DriverCall) :
  consumeOffer Capper FCFSDeterminedCap s offer = Go.Ok (s', calls) ->
  (s' = s
   /\ calls = [Mesos.DeclineOffer (Mesos.Id offer)
                 (if Shutdown Capper s then MesosUtils.LongFilter
                  else MesosUtils.DefaultFilter)])
  \/ (Shutdown Capper s = false
      /\ exists (j : nat) (task : Def.Task) (call : Mesos.DriverCall),
           calls = [call]
           /\ tasks Capper s !! j = Some task
           /\ Invariant.eligible offer task = true
           /\ schedule Capper FCFSDeterminedCap s offer j task = Go.Ok (s', call)).
Proof.
  unfold consumeOffer. destruct (Shutdown Capper s) eqn:Hsh.
  { intros [= <- <-]. now left. }
  destruct (scan Capper FCFSDeterminedCap s offer 0 (tasks Capper s))
    as [[s1 found]|] eqn:Hscan; simpl; [|discriminate].
  apply scan_effect in Hscan; [|reflexivity].
  destruct found as [call|]; intros [= <- <-].
  - right. split; [reflexivity|].
    destruct Hscan as (j & task & Hslot & Hel & Hs). exists j, task, call. auto.
  - left. subst s1. auto.
Qed.

Lemma consumeAll_maps (offers : list Mesos.Offer) :
  forall (s s' : State) (groups : list (list Mesos.DriverCall)),
    consumeAll Capper FCFSDeterminedCap s offers = Go.Ok (s', groups) ->
    totalPower Capper s' = totalPower Capper s
    /\ availablePower Capper s' = availablePower Capper s.
Proof.
  induction offers as [|offer rest IH]; intros s s' groups; simpl.
  - now intros [= <- _].
  - destruct (consumeOffer Capper FCFSDeterminedCap s offer) as [[s1 calls]|] eqn:Hone;
      simpl; [|discriminate].
    destruct (consumeAll Capper FCFSDeterminedCap s1 rest) as [[s2 groups2]|] eqn:Hrest;
      simpl; [|discriminate].
    intros [= <- _]. destruct (IH _ _ _ Hrest) as [-> ->].
    destruct (consumeOffer_effect _ _ _ _ Hone)
      as [[-> _]|(_ & j & task & call & _ & Hslot & _ & Hs)]; [auto|].
    destruct (schedule_effect _ _ _ _ _ _ Hslot Hs)
      as (n & _ & _ & _ & _ & _ & -> & -> & _).
    auto.
Qed.

(** X19: the total power of a host is written once: after a batch of
    offers it is what it was, and for a host not yet known the watts of
    the first offer of the batch from that host; the available power of
    a host is the watts of the last offer of the batch from it, or what
    it was when the batch has none. Scheduling touches neither. *)
Theorem ResourceOffers_power_maps (s s' : State) (offers : list Mesos.Offer)
    (groups : list (list Mesos.DriverCall)) (host : string) :
  ResourceOffers Capper FCFSDeterminedCap sortByWatts s offers = Go.Ok (s', groups) ->
  totalPower Capper s' !! host
  = match totalPower Capper s !! host with
    | Some w => Some w
    | None => head (fromHost host offers)
    end
  /\ availablePower Capper s' !! host
     = match last (fromHost host offers) with
       | Some w => Some w
       | None => availablePower Capper s !! host
       end.
Proof.
  unfold ResourceOffers. intros H. apply consumeAll_maps in H as [Ht Ha].
  rewrite Ht, Ha.
  assert (Hsort : forall s1 : State,
             totalPower Capper
               (if (0 <? length (tasks Capper s1))%nat
                then withTasks Capper s1 (sortByWatts (tasks Capper s1)) (insts Capper s1)
                else s1) = totalPower Capper s1
             /\ availablePower Capper
                  (if (0 <? length (tasks Capper s1))%nat
                   then withTasks Capper s1 (sortByWatts (tasks Capper s1))
                          (insts Capper s1)
                   else s1) = availablePower Capper s1).
  { intros s1. destruct (0 <? length (tasks Capper s1))%nat; auto. }
  destruct (Hsort (fold_left (observe Capper) offers s)) as [-> ->].
  split; [apply observe_all_total|apply observe_all_available].
Qed.

(** X20: an offer the ranked scheduler takes costs the task it goes to
    exactly one instance. The queue stays as it is while the task has
    instances left; with the last instance the task, and no other, leaves
    the queue (the last task of the queue takes its place). While tasks
    are queued the scheduler is capping; the launch that empties the
    queue closes [Shutdown], stops the capping ticker and turns to
    recapping. A declined offer changes nothing. *)
Theorem ranked_launch_effect (s s' : State) (offer : Mesos.Offer)
    (calls : list Mesos.DriverCall) :
  consumeOffer Capper FCFSDeterminedCap s offer = Go.Ok (s', calls) ->
  (s' = s
   /\ calls = [Mesos.DeclineOffer (Mesos.Id offer)
                 (if Shutdown Capper s then MesosUtils.LongFilter
                  else MesosUtils.DefaultFilter)])
  \/ exists (task : Def.Task) (n : Z),
       task ∈ tasks Capper s
       /\ Invariant.eligible offer task = true
       /\ insts Capper s !! Def.Instances task = Some n
       /\ insts Capper s' = <[Def.Instances task := n - 1]> (insts Capper s)
       /\ tasksCreated Capper s' = tasksCreated Capper s + 1
       /\ (if decide (0 < n - 1) then tasks Capper s' = tasks Capper s
           else tasks Capper s ≡ₚ task :: tasks Capper s')
       /\ match tasks Capper s' with
          | [] =>
              Shutdown Capper s' = true
              /\ isCapping Capper s' = false /\ isRecapping Capper s' = true
              /\ tickerStopped Capper s' = true /\ recappingStarted Capper s' = true
          | _ :: _ => Shutdown Capper s' = false /\ isCapping Capper s' = true
          end.
Proof.
  intros H. destruct (consumeOffer_effect _ _ _ _ H)
    as [Hdecline|(Hsh & j & task & call & _ & Hslot & Hel & Hs)]; [now left|].
  right.
  destruct (schedule_effect _ _ _ _ _ _ Hslot Hs)
    as (n & Hn & Hcells & Hc & _ & _ & _ & _ & Hqueue & Hstate).
  exists task, n. split; [now apply list_elem_of_lookup_2 in Hslot|].
  do 5 (split; [assumption|]).
  destruct (tasks Capper s') as [|t0 ts0].
  - destruct Hstate as (_ & H1 & H2 & H3 & H4 & H5). auto.
  - destruct Hstate as (H1 & H2). rewrite H1. auto.
Qed.

Lemma ranked_StatusUpdate_cases (s : State) (status : TaskStatus) :
  StatusUpdate Capper TaskFinished CleverRecap s status
  = if IsTerminal (st_State status) then
      let s1 :=
        withRunning Capper s (tasksRunning Capper s - 1)
          match running Capper s !! st_SlaveId status with
          | Some onSlave =>
              <[st_SlaveId status := delete (st_TaskId status) onSlave]>
                (running Capper s)
          | None => running Capper s
          end in
      if tasksRunning Capper s - 1 =? 0 then
        if Shutdown Capper s then closeDone Capper (stopRecapping Capper s1)
        else Go.Ok s1
      else Go.Ok (recap Capper TaskFinished CleverRecap s1 (st_TaskId status))
    else
      match st_State status with
      | TASK_RUNNING =>
          Go.Ok (withRunning Capper s (tasksRunning Capper s + 1) (running Capper s))
      | _ => Go.Ok s
      end.
Proof.
  unfold StatusUpdate. destruct (st_State status); reflexivity.
Qed.

Lemma recap_keeps (s : State) (taskId : string) :
  Shutdown Capper (recap Capper TaskFinished CleverRecap s taskId) = Shutdown Capper s
  /\ Done Capper (recap Capper TaskFinished CleverRecap s taskId) = Done Capper s
  /\ tasks Capper (recap Capper TaskFinished CleverRecap s taskId) = tasks Capper s
  /\ totalPower Capper (recap Capper TaskFinished CleverRecap s taskId)
     = totalPower Capper s.
Proof.
  unfold recap. destruct (CleverRecap _ _ _ _) as [c [e|tempCap]]; [auto|].
  destruct (negb _); auto.
Qed.

(** X21: a status update of the ranked scheduler fails in one case only,
    the close of [Done] when it is closed already. It leaves the queue,
    [Shutdown] and the total power alone, and it closes [Done] only on
    the terminal status that brings the running tasks to zero after
    [Shutdown]; the scheduler, unless it is still capping, is then no
    longer recapping. *)
Theorem ranked_done_when_drained (s : State) (status : TaskStatus) :
  (forall f : Go.failure,
     StatusUpdate Capper TaskFinished CleverRecap s status = Go.Fail f
     <-> f = Go.CloseClosed
         /\ IsTerminal (st_State status) = true
         /\ tasksRunning Capper s = 1
         /\ Shutdown Capper s = true /\ Done Capper s = true)
  /\ forall s' : State,
       StatusUpdate Capper TaskFinished CleverRecap s status = Go.Ok s' ->
       Shutdown Capper s' = Shutdown Capper s
       /\ tasks Capper s' = tasks Capper s
       /\ totalPower Capper s' = totalPower Capper s
       /\ (Done Capper s' = Done Capper s
           \/ Done Capper s = false /\ Done Capper s' = true
              /\ IsTerminal (st_State status) = true
              /\ Shutdown Capper s = true /\ tasksRunning Capper s' = 0
              /\ (isCapping Capper s = false -> isRecapping Capper s' = false)).
Proof.
  rewrite ranked_StatusUpdate_cases.
  destruct (IsTerminal (st_State status)) eqn:Hterm.
  2:{ split.
      - intros f. split; [|intros (_ & ? & _); discriminate].
        destruct (st_State status); discriminate.
      - intros s'. destruct (st_State status); intros [= <-]; simpl; auto. }
  cbv zeta. destruct (Z.eqb_spec (tasksRunning Capper s - 1) 0) as [Hone|Hne].
  2:{ split.
      - intros f. split; [discriminate|intros (_ & _ & ? & _); lia].
      - intros s' [= <-].
        destruct (recap_keeps
                    (withRunning Capper s (tasksRunning Capper s - 1)
                       match running Capper s !! st_SlaveId status with
                       | Some onSlave =>
                           <[st_SlaveId status := delete (st_TaskId status) onSlave]>
                             (running Capper s)
                       | None => running Capper s
                       end) (st_TaskId status)) as (-> & -> & -> & ->).
        simpl. auto. }
  destruct (Shutdown Capper s) eqn:Hsh.
  2:{ split.
      - intros f. split; [discriminate|intros (_ & _ & _ & ? & _); discriminate].
      - intros s' [= <-]. simpl. auto. }
  unfold closeDone, stopRecapping. simpl.
  destruct (isCapping Capper s) eqn:Hcap; simpl.
  - destruct (Done Capper s) eqn:Hd.
    + split; [|discriminate].
      intros f. split; [intros [= <-]; repeat split; lia|intros (-> & _); reflexivity].
    + split; [intros f; split; [discriminate|intros (_ & _ & _ & _ & ?); discriminate]|].
      intros s' [= <-]. simpl. repeat split; auto. right. repeat split; auto.
      discriminate.
  - destruct (isRecapping Capper s) eqn:Hrec; simpl; destruct (Done Capper s) eqn:Hd.
    + split; [|discriminate].
      intros f. split; [intros [= <-]; repeat split; lia|intros (-> & _); reflexivity].
    + split; [intros f; split; [discriminate|intros (_ & _ & _ & _ & ?); discriminate]|].
      intros s' [= <-]. simpl. repeat split; auto. right. repeat split; auto.
    + split; [|discriminate].
      intros f. split; [intros [= <-]; repeat split; lia|intros (-> & _); reflexivity].
    + split; [intros f; split; [discriminate|intros (_ & _ & _ & _ & ?); discriminate]|].
      intros s' [= <-]. simpl. repeat split; auto. right. repeat split; auto.
Qed.

End RankedMore.

Lemma ResourceOffers_power_maps_witness :
  Ranked.totalPower unit RankedScenario.afterRun !! "node-a-1"
  = match Ranked.totalPower unit Scenario.rankedTen !! "node-a-1" with
    | Some w => Some w
    | None => head (RankedView.fromHost "node-a-1" [Scenario.roomForFive])
    end
  /\ Ranked.availablePower unit RankedScenario.afterRun !! "node-a-1"
     = match last (RankedView.fromHost "node-a-1" [Scenario.roomForFive]) with
       | Some w => Some w
       | None => Ranked.availablePower unit Scenario.rankedTen !! "node-a-1"
       end.
Proof.
  apply (ResourceOffers_power_maps unit Scenario.fixedCap Scenario.asQueued
           Scenario.rankedTen RankedScenario.afterRun [Scenario.roomForFive]
           (Scenario.outputOf [] Scenario.rankedRun) "node-a-1").
  vm_compute. reflexivity.
Defined.

Lemma ranked_launch_effect_witness :
  (RankedScenario.afterOne = Scenario.rankedTen
   /\ Scenario.outputOf [] Scenario.rankedOne
      = [Mesos.DeclineOffer (Mesos.Id Scenario.roomForFive)
           (if Ranked.Shutdown unit Scenario.rankedTen then MesosUtils.LongFilter
            else MesosUtils.DefaultFilter)])
  \/ exists (task : Def.Task) (n : Z),
       task ∈ Ranked.tasks unit Scenario.rankedTen
       /\ Invariant.eligible Scenario.roomForFive task = true
       /\ Ranked.insts unit Scenario.rankedTen !! Def.Instances task = Some n
       /\ Ranked.insts unit RankedScenario.afterOne
          = <[Def.Instances task := n - 1]> (Ranked.insts unit Scenario.rankedTen)
       /\ Ranked.tasksCreated unit RankedScenario.afterOne
          = Ranked.tasksCreated unit Scenario.rankedTen + 1
       /\ (if decide (0 < n - 1)
           then Ranked.tasks unit RankedScenario.afterOne
                = Ranked.tasks unit Scenario.rankedTen
           else Ranked.tasks unit Scenario.rankedTen
                ≡ₚ task :: Ranked.tasks unit RankedScenario.afterOne)
       /\ match Ranked.tasks unit RankedScenario.afterOne with
          | [] =>
              Ranked.Shutdown unit RankedScenario.afterOne = true
              /\ Ranked.isCapping unit RankedScenario.afterOne = false
              /\ Ranked.isRecapping unit RankedScenario.afterOne = true
              /\ Ranked.tickerStopped unit RankedScenario.afterOne = true
              /\ Ranked.recappingStarted unit RankedScenario.afterOne = true
          | _ :: _ =>
              Ranked.Shutdown unit RankedScenario.afterOne = false
              /\ Ranked.isCapping unit RankedScenario.afterOne = true
          end.
Proof.
  apply (ranked_launch_effect unit Scenario.fixedCap Scenario.rankedTen
           RankedScenario.afterOne Scenario.roomForFive
           (Scenario.outputOf [] Scenario.rankedOne)).
  vm_compute. reflexivity.
Defined.

Lemma ranked_done_when_drained_witness :
  Ranked.Shutdown unit RankedScenario.afterLast
  = Ranked.Shutdown unit RankedScenario.lastRunning
  /\ Ranked.tasks unit RankedScenario.afterLast
     = Ranked.tasks unit RankedScenario.lastRunning
  /\ Ranked.totalPower unit RankedScenario.afterLast
     = Ranked.totalPower unit RankedScenario.lastRunning
  /\ (Ranked.Done unit RankedScenario.afterLast
      = Ranked.Done unit RankedScenario.lastRunning
      \/ Ranked.Done unit RankedScenario.lastRunning = false
         /\ Ranked.Done unit RankedScenario.afterLast = true
         /\ Ranked.IsTerminal (Ranked.st_State (Scenario.finished "electron-t-1")) = true
         /\ Ranked.Shutdown unit RankedScenario.lastRunning = true
         /\ Ranked.tasksRunning unit RankedScenario.afterLast = 0
         /\ (Ranked.isCapping unit RankedScenario.lastRunning = false ->
             Ranked.isRecapping unit RankedScenario.afterLast = false)).
Proof.
  apply (proj2 (ranked_done_when_drained unit Scenario.forget Scenario.fixedRecap
                  RankedScenario.lastRunning (Scenario.finished "electron-t-1"))
           RankedScenario.afterLast).
  vm_compute. reflexivity.
Defined.

(** ** The power class of a host *)

Section HostToPowerClass.

Import PowerClasses.

Variable classes : gmap string (gmap string bool).
Variable hostName : string.

Lemma hostToPowerClass_found (order : list (string * gmap string bool)) :
  (exists hosts, (hostToPowerClass order hostName, hosts) ∈ order
                 /\ member hosts hostName = true)
  \/ (hostToPowerClass order hostName = ""
      /\ forall c hosts, (c, hosts) ∈ order -> member hosts hostName = false).
Proof.
  induction order as [|[c hosts] rest IH]; simpl.
  - right. split; [reflexivity|]. intros c hosts H. now apply elem_of_nil in H.
  - destruct (member hosts hostName) eqn:Hm.
    + left. exists hosts. split; [left|exact Hm].
    + destruct IH as [(hosts' & Hin & Hm')|[Hnone Hall]].
      * left. exists hosts'. split; [now right|exact Hm'].
      * right. split; [exact Hnone|]. intros c' hosts' Hin.
        apply elem_of_cons in Hin as [[= -> ->]|Hin]; [exact Hm|].
        now apply (Hall c').
Qed.

(** X22: in whatever order the map is ranged over, hostToPowerClass
    returns a class that lists the host as true, or the empty string when
    no class does; and when one class at most lists the host, the answer
    is the same in every order. *)
Theorem hostToPowerClass_sound (order : list (string * gmap string bool)) :
  yields classes order ->
  ((exists hosts, classes !! hostToPowerClass order hostName = Some hosts
                  /\ member hosts hostName = true)
   \/ (hostToPowerClass order hostName = ""
       /\ forall c hosts, classes !! c = Some hosts -> member hosts hostName = false))
  /\ ((forall c c' hosts hosts',
         classes !! c = Some hosts -> member hosts hostName = true ->
         classes !! c' = Some hosts' -> member hosts' hostName = true -> c = c') ->
      forall order', yields classes order' ->
        hostToPowerClass order' hostName = hostToPowerClass order hostName).
Proof.
  intros Horder.
  assert (Hin : forall o c hosts,
             yields classes o -> ((c, hosts) ∈ o <-> classes !! c = Some hosts)).
  { intros o c hosts Ho. unfold yields in Ho. rewrite Ho.
    apply elem_of_map_to_list. }
  assert (Hsound : forall o, yields classes o ->
             (exists hosts, classes !! hostToPowerClass o hostName = Some hosts
                            /\ member hosts hostName = true)
             \/ (hostToPowerClass o hostName = ""
                 /\ forall c hosts, classes !! c = Some hosts ->
                                    member hosts hostName = false)).
  { intros o Ho. destruct (hostToPowerClass_found o) as [(hosts & Hfound & Hm)|[He Hall]].
    - left. exists hosts. split; [now apply (Hin o)|exact Hm].
    - right. split; [exact He|]. intros c hosts Hc. apply (Hall c). now apply (Hin o). }
  split; [now apply Hsound|].
  intros Huniq order' Horder'.
  destruct (Hsound order Horder) as [(hosts & Hc & Hm)|[He Hall]],
           (Hsound order' Horder') as [(hosts' & Hc' & Hm')|[He' Hall']].
  - exact (Huniq _ _ _ _ Hc' Hm' Hc Hm).
  - rewrite (Hall' _ _ Hc) in Hm. discriminate.
  - rewrite (Hall _ _ Hc') in Hm'. discriminate.
  - now rewrite He, He'.
Qed.

End HostToPowerClass.

Lemma hostToPowerClass_sound_witness :
  ((exists hosts,
      PowerClassScenario.twoClasses
        !! PowerClasses.hostToPowerClass (map_to_list PowerClassScenario.twoClasses)
             "node-a-1" = Some hosts
      /\ PowerClasses.member hosts "node-a-1" = true)
   \/ (PowerClasses.hostToPowerClass (map_to_list PowerClassScenario.twoClasses)
         "node-a-1" = ""
       /\ forall c hosts, PowerClassScenario.twoClasses !! c = Some hosts ->
                          PowerClasses.member hosts "node-a-1" = false))
  /\ ((forall c c' hosts hosts',
         PowerClassScenario.twoClasses !! c = Some hosts ->
         PowerClasses.member hosts "node-a-1" = true ->
         PowerClassScenario.twoClasses !! c' = Some hosts' ->
         PowerClasses.member hosts' "node-a-1" = true -> c = c') ->
      forall order', PowerClasses.yields PowerClassScenario.twoClasses order' ->
        PowerClasses.hostToPowerClass order' "node-a-1"
        = PowerClasses.hostToPowerClass (map_to_list PowerClassScenario.twoClasses)
            "node-a-1").
Proof.
  apply (hostToPowerClass_sound PowerClassScenario.twoClasses "node-a-1"
           (map_to_list PowerClassScenario.twoClasses)).
  unfold PowerClasses.yields. reflexivity.
Defined.

(** ** The task classifier *)

Section CountFacts.

Import TaskClassifier.

Lemma count_nil (P : nat -> bool) (lo : nat) : count P lo 0 = 0.
Proof. reflexivity. Qed.

Lemma count_first (P : nat -> bool) (lo len : nat) :
  count P lo (S len) = (if P lo then 1 else 0) + count P (S lo) len.
Proof.
  unfold count. cbn [seq]. rewrite filter_cons.
  destruct (P lo); simpl.
  - destruct (decide (true = true)); [simpl; lia|congruence].
  - destruct (decide (false = true)); [congruence|lia].
Qed.

Lemma count_last (P : nat -> bool) (lo len : nat) :
  count P lo (S len) = count P lo len + (if P (lo + len)%nat then 1 else 0).
Proof.
  unfold count. rewrite seq_S, filter_app, length_app, filter_cons, filter_nil.
  destruct (P (lo + len)%nat); simpl.
  - destruct (decide (true = true)); [simpl; lia|congruence].
  - destruct (decide (false = true)); [congruence|simpl; lia].
Qed.

Lemma count_app (P : nat -> bool) (lo a b : nat) :
  count P lo (a + b) = count P lo a + count P (lo + a) b.
Proof.
  unfold count. rewrite seq_app, filter_app, length_app. lia.
Qed.

Lemma count_bounds (P : nat -> bool) (lo len : nat) :
  0 <= count P lo len <= Z.of_nat len.
Proof.
  revert lo. induction len as [|len IH]; intros lo; [rewrite count_nil; lia|].
  rewrite count_first. specialize (IH (S lo)). destruct (P lo); lia.
Qed.

Lemma count_ext (P Q : nat -> bool) (lo len : nat) :
  (forall x, (lo <= x < lo + len)%nat -> P x = Q x) -> count P lo len = count Q lo len.
Proof.
  revert lo. induction len as [|len IH]; intros lo H; [reflexivity|].
  rewrite !count_first, (H lo) by lia. rewrite (IH (S lo)); [reflexivity|].
  intros x Hx. apply H. lia.
Qed.

Lemma count_negb (P : nat -> bool) (lo len : nat) :
  count P lo len + count (fun x => negb (P x)) lo len = Z.of_nat len.
Proof.
  revert lo. induction len as [|len IH]; intros lo; [reflexivity|].
  rewrite !count_first. specialize (IH (S lo)). destruct (P lo); simpl; lia.
Qed.

End CountFacts.

Section Scoring.

Import TaskClassifier.

Variable taskObservation : Def.Task -> list float64.
Variable clusters : gmap Z (list Def.Task).
Variable n : nat.

Abbreviation beats := (bigger taskObservation clusters).
Abbreviation full := (fun x : nat => count (beats x) (S x) (n - S x)).

Lemma render_lookup (score : nat -> Z) (k : nat) :
  (k < n)%nat ->
  render clusters n score !! k
  = Some (mkCluster (Z.of_nat k) (clusterAt clusters k) (score k)).
Proof.
  intros Hk. unfold render. rewrite list_lookup_fmap, lookup_seq_lt by exact Hk.
  reflexivity.
Qed.

Lemma render_ext (score score' : nat -> Z) :
  (forall k, (k < n)%nat -> score k = score' k) ->
  render clusters n score = render clusters n score'.
Proof.
  intros H. unfold render. apply list_fmap_ext. intros i k Hk.
  apply lookup_seq in Hk as [-> Hk]. simpl. now rewrite H.
Qed.

Lemma bump_render (score : nat -> Z) (k : nat) :
  (k < n)%nat ->
  bump k (render clusters n score)
  = Go.Ok (render clusters n (fun x => if decide (x = k) then score x + 1 else score x)).
Proof.
  intros Hk. unfold bump. rewrite render_lookup by exact Hk. simpl. f_equal.
  apply list_eq. intros x.
  destruct (decide (x = k)) as [->|Hne].
  - rewrite list_lookup_insert_eq by (unfold render; now rewrite length_fmap, length_seq).
    rewrite render_lookup by exact Hk. now destruct (decide (k = k)).
  - rewrite list_lookup_insert_ne by congruence.
    destruct (decide (x < n)%nat) as [Hx|Hx].
    + rewrite !render_lookup by exact Hx. now destruct (decide (x = k)).
    + unfold render. rewrite !list_lookup_fmap, !lookup_seq_ge by lia. reflexivity.
Qed.

(** The inner loop of cluster [i], from [j] on. *)
Lemma compare_render (i : nat) :
  forall (turns j : nat) (score : nat -> Z),
    (i < j)%nat -> (j + turns <= n)%nat ->
    compare taskObservation clusters (clusterSize taskObservation (clusterAt clusters i))
      i j turns (render clusters n score)
    = Go.Ok (render clusters n
               (fun x => score x
                         + (if decide (x = i) then count (beats i) j turns
                            else if decide (j <= x < j + turns)%nat
                                 then (if beats i x then 0 else 1)
                                 else 0))).
Proof.
  induction turns as [|turns IH]; intros j score Hij Hn; simpl.
  - f_equal. apply render_ext. intros k _.
    destruct (decide (k = i)); [rewrite count_nil; lia|].
    destruct (decide (j <= k < j + 0)%nat); lia.
  - fold (beats i j).
    assert (Hstep : (if beats i j then bump i (render clusters n score)
                     else bump j (render clusters n score))
                    = Go.Ok (render clusters n
                               (fun x => if decide (x = if beats i j then i else j)
                                         then score x + 1 else score x))).
    { destruct (beats i j); apply bump_render; lia. }
    rewrite Hstep. simpl. rewrite IH by lia. f_equal. apply render_ext. intros k _.
    rewrite count_first.
    destruct (decide (k = i)) as [->|Hki].
    + destruct (beats i j); [destruct (decide (i = i)); [lia|congruence]|].
      destruct (decide (i = j)); lia.
    + destruct (decide (k = j)) as [->|Hkj].
      * destruct (decide (S j <= j < S j + turns)%nat); [lia|].
        destruct (decide (j <= j < j + S turns)%nat); [|lia].
        destruct (beats i j); [destruct (decide (j = i)); lia|].
        destruct (decide (j = j)); [lia|congruence].
      * assert (Hsame : (if decide (k = if beats i j then i else j)
                         then score k + 1 else score k) = score k).
        { destruct (beats i j); [destruct (decide (k = i))|destruct (decide (k = j))];
            congruence. }
        rewrite Hsame.
        destruct (decide (S j <= k < S j + turns)%nat),
                 (decide (j <= k < j + S turns)%nat); try lia.
Qed.

(** The outer loop, from cluster [i] on. *)
Lemma sizing_render :
  forall (turns i : nat) (score : nat -> Z),
    (turns = 0 \/ i + turns < n)%nat ->
    sizing taskObservation clusters n i turns (render clusters n score)
    = Go.Ok (render clusters n
               (fun x => score x
                         + (if decide (i <= x < i + turns)%nat then full x else 0)
                         + count (fun i' => negb (beats i' x)) i
                             (Nat.min (i + turns) x - i))).
Proof.
  induction turns as [|turns IH]; intros i score Hn; simpl.
  - f_equal. apply render_ext. intros k _.
    destruct (decide (i <= k < i + 0)%nat); [lia|].
    replace (Nat.min (i + 0) k - i)%nat with 0%nat by lia. rewrite count_nil. lia.
  - rewrite compare_render by lia. cbn [Go.bind].
    rewrite IH by lia. f_equal. apply render_ext. intros k Hk.
    destruct (decide (k = i)) as [->|Hki].
    + destruct (decide (S i <= i < S i + turns)%nat); [lia|].
      destruct (decide (i <= i < i + S turns)%nat); [|lia].
      replace (Nat.min (S i + turns) i - S i)%nat with 0%nat by lia.
      replace (Nat.min (i + S turns) i - i)%nat with 0%nat by lia.
      rewrite !count_nil. lia.
    + destruct (decide (k < i)%nat) as [Hlt|Hgt].
      * destruct (decide (S i <= k < S i + (n - S i))%nat); [lia|].
        destruct (decide (S i <= k < S i + turns)%nat); [lia|].
        destruct (decide (i <= k < i + S turns)%nat); [lia|].
        replace (Nat.min (S i + turns) k - S i)%nat with 0%nat by lia.
        replace (Nat.min (i + S turns) k - i)%nat with 0%nat by lia.
        rewrite !count_nil. lia.
      * destruct (decide (S i <= k < S i + (n - S i))%nat); [|lia].
        replace (Nat.min (i + S turns) k - i)%nat
          with (S (Nat.min (S i + turns) k - S i)) by lia.
        rewrite count_first.
        destruct (decide (S i <= k < S i + turns)%nat),
                 (decide (i <= k < i + S turns)%nat); try lia;
          destruct (beats i k); simpl; lia.
Qed.

Lemma scored_render (numberOfClusters : Z) :
  n = Z.to_nat numberOfClusters ->
  scored taskObservation clusters numberOfClusters
  = Go.Ok (render clusters n (sizeScore beats n)).
Proof.
  intros Hn. unfold scored. rewrite <- Hn.
  change (initial clusters n) with (render clusters n (fun _ => 0)).
  rewrite sizing_render by lia. f_equal. apply render_ext. intros k Hk.
  unfold sizeScore. simpl.
  replace (Nat.min (n - 1) k - 0)%nat with k by lia.
  destruct (decide (0 <= k < n - 1)%nat); [lia|].
  replace (n - S k)%nat with 0%nat by lia. rewrite count_nil. lia.
Qed.

End Scoring.

Section ClassifierProperties.

Import TaskClassifier.

Variable taskObservation : Def.Task -> list float64.
Variable SliceStable :
  (TaskCluster -> TaskCluster -> bool) -> list TaskCluster -> list TaskCluster.

Lemma gtb_irrefl (x : float64) : Float64.gtb x x = false.
Proof.
  destruct (Float64.gtb x x) eqn:H; [|reflexivity].
  pose proof (ltb_asym x x H) as H'. unfold Float64.gtb in H.
  change (Float64.ltb x x = true) in H. congruence.
Qed.

Lemma labelAndOrder_render (clusters : gmap Z (list Def.Task)) (numberOfClusters : Z) :
  labelAndOrder taskObservation SliceStable clusters numberOfClusters
  = Go.Ok (SliceStable (fun a b => SizeScore a <=? SizeScore b)
             (render clusters (Z.to_nat numberOfClusters)
                (sizeScore (bigger taskObservation clusters)
                   (Z.to_nat numberOfClusters)))).
Proof.
  unfold labelAndOrder.
  now rewrite (scored_render taskObservation clusters (Z.to_nat numberOfClusters)
                 numberOfClusters eq_refl).
Qed.

(** X23: labelAndOrder does not panic. In the list it hands to the sort,
    cluster [k] carries the index [k], the tasks [clusters[k]] and as
    score the number of clusters after it that it is strictly bigger
    than, plus the number of clusters before it that are not strictly
    bigger than it. *)
Theorem labelAndOrder_scores (clusters : gmap Z (list Def.Task))
    (numberOfClusters : Z) :
  exists sized : list TaskCluster,
    scored taskObservation clusters numberOfClusters = Go.Ok sized
    /\ labelAndOrder taskObservation SliceStable clusters numberOfClusters
       = Go.Ok (SliceStable (fun a b => SizeScore a <=? SizeScore b) sized)
    /\ length sized = Z.to_nat numberOfClusters
    /\ forall k : nat,
         (k < Z.to_nat numberOfClusters)%nat ->
         sized !! k
         = Some (mkCluster (Z.of_nat k) (clusterAt clusters k)
                   (sizeScore (bigger taskObservation clusters)
                      (Z.to_nat numberOfClusters) k)).
Proof.
  pose proof (scored_render taskObservation clusters (Z.to_nat numberOfClusters)
                numberOfClusters eq_refl) as Hscored.
  eexists. split; [exact Hscored|]. split; [apply labelAndOrder_render|].
  split; [unfold render; now rewrite length_fmap, length_seq|].
  intros k Hk. now apply render_lookup.
Qed.

Lemma scoreSum_render_S (clusters : gmap Z (list Def.Task)) (n : nat) (f : nat -> Z) :
  scoreSum (render clusters (S n) f) = scoreSum (render clusters n f) + f n.
Proof.
  assert (Hacc : forall (l : list Z) (a : Z), foldr Z.add a l = foldr Z.add 0 l + a).
  { induction l as [|x l IH]; intros a; simpl; [lia|]. rewrite IH. lia. }
  unfold scoreSum, render. rewrite seq_S, !fmap_app, foldr_app. cbn [fmap list_fmap foldr].
  rewrite Hacc. simpl. lia.
Qed.

Lemma scoreSum_render_plus (clusters : gmap Z (list Def.Task)) (P : nat -> bool)
    (f : nat -> Z) (n : nat) :
  scoreSum (render clusters n (fun k => f k + (if P k then 1 else 0)))
  = scoreSum (render clusters n f) + count P 0 n.
Proof.
  induction n as [|n IH]; [reflexivity|].
  rewrite !scoreSum_render_S, IH, count_last. simpl. lia.
Qed.

Lemma scoreSum_closed (clusters : gmap Z (list Def.Task)) (n : nat) :
  2 * scoreSum (render clusters n (sizeScore (bigger taskObservation clusters) n))
  = Z.of_nat n * (Z.of_nat n - 1).
Proof.
  induction n as [|n IH]; [reflexivity|].
  rewrite scoreSum_render_S.
  assert (Hshift : render clusters n (sizeScore (bigger taskObservation clusters) (S n))
                   = render clusters n
                       (fun k => sizeScore (bigger taskObservation clusters) n k
                                 + (if bigger taskObservation clusters k n
                                    then 1 else 0))).
  { apply render_ext. intros k Hk. unfold sizeScore.
    replace (S n - S k)%nat with (S (n - S k)) by lia. rewrite count_last.
    replace (S k + (n - S k))%nat with n by lia. lia. }
  rewrite Hshift, scoreSum_render_plus.
  unfold sizeScore at 2. rewrite Nat.sub_diag, count_nil.
  pose proof (count_negb (fun k => bigger taskObservation clusters k n) 0 n). lia.
Qed.

(** X24: every pair of clusters is compared once and gives one point to
    one of the two: the scores add up to n(n-1)/2, and each lies between
    0 and n-1. *)
Theorem labelAndOrder_score_sum (clusters : gmap Z (list Def.Task))
    (numberOfClusters : Z) :
  exists sized : list TaskCluster,
    scored taskObservation clusters numberOfClusters = Go.Ok sized
    /\ 2 * scoreSum sized
       = Z.of_nat (Z.to_nat numberOfClusters) * (Z.of_nat (Z.to_nat numberOfClusters) - 1)
    /\ Forall (fun c => 0 <= SizeScore c <= Z.of_nat (Z.to_nat numberOfClusters) - 1)
         sized.
Proof.
  pose proof (scored_render taskObservation clusters (Z.to_nat numberOfClusters)
                numberOfClusters eq_refl) as Hscored.
  eexists. split; [exact Hscored|]. split; [apply scoreSum_closed|].
  unfold render. apply Forall_fmap, Forall_forall. intros k Hk.
  apply elem_of_seq in Hk. simpl. unfold sizeScore.
  pose proof (count_bounds (bigger taskObservation clusters k) (S k)
                (Z.to_nat numberOfClusters - S k)).
  pose proof (count_bounds (fun i => negb (bigger taskObservation clusters i k)) 0 k).
  lia.
Qed.

(** X25: when the sizes of any two clusters are strictly ordered, one
    way or the other, the score of a cluster is the number of clusters it
    is bigger than. *)
Theorem labelAndOrder_ranks_distinct_sizes (clusters : gmap Z (list Def.Task))
    (numberOfClusters : Z) :
  (forall i j : nat,
     (i < Z.to_nat numberOfClusters)%nat -> (j < Z.to_nat numberOfClusters)%nat ->
     i <> j ->
     bigger taskObservation clusters i j = negb (bigger taskObservation clusters j i)) ->
  exists sized : list TaskCluster,
    scored taskObservation clusters numberOfClusters = Go.Ok sized
    /\ forall k : nat,
         (k < Z.to_nat numberOfClusters)%nat ->
         exists c : TaskCluster,
           sized !! k = Some c
           /\ ClusterIndex c = Z.of_nat k
           /\ SizeScore c
              = count (bigger taskObservation clusters k) 0 (Z.to_nat numberOfClusters).
Proof.
  intros Hstrict.
  pose proof (scored_render taskObservation clusters (Z.to_nat numberOfClusters)
                numberOfClusters eq_refl) as Hscored.
  eexists. split; [exact Hscored|]. intros k Hk.
  eexists. split; [now apply render_lookup|]. split; [reflexivity|]. simpl.
  set (n := Z.to_nat numberOfClusters) in *.
  unfold sizeScore.
  assert (Hsplit : count (bigger taskObservation clusters k) 0 n
                   = count (bigger taskObservation clusters k) 0 k
                     + count (bigger taskObservation clusters k) (S k) (n - S k)).
  { replace n with (k + S (n - S k))%nat at 1 by lia.
    rewrite count_app, count_first. cbn [Nat.add].
    assert (Hself : bigger taskObservation clusters k k = false) by apply gtb_irrefl.
    rewrite Hself. lia. }
  rewrite Hsplit.
  rewrite (count_ext (fun i => negb (bigger taskObservation clusters i k))
             (bigger taskObservation clusters k) 0 k).
  - lia.
  - intros x Hx. rewrite (Hstrict k x) by lia. reflexivity.
Qed.

Variable Centroids : Type.
Variable Train : list (list float64) -> Z -> Z -> bool * Centroids.
Variable Nearest : list float64 -> Centroids -> Z.

Lemma assign_all (centroids : Centroids) (c : Z) (tc : list Def.Task) :
  forall acc : gmap Z (list Def.Task),
    default [] (fold_left (assign Centroids Nearest centroids)
                  (zip (getObservations taskObservation tc) tc) acc !! c)
    = default [] (acc !! c)
      ++ filter (fun t => Nearest (taskObservation t) centroids = c) tc.
Proof.
  induction tc as [|t tc IH]; intros acc; simpl; [now rewrite app_nil_r|].
  rewrite IH, filter_cons. unfold assign. simpl.
  destruct (decide (Nearest (taskObservation t) centroids = c)) as [<-|Hne].
  - destruct (acc !! Nearest (taskObservation t) centroids) as [ts|] eqn:Hold;
      rewrite lookup_insert_eq; simpl; [now rewrite <- app_assoc|reflexivity].
  - destruct (acc !! Nearest (taskObservation t) centroids) as [ts|];
      now rewrite lookup_insert_ne by exact Hne.
Qed.

(** X26: ClassifyTasks does not panic. In the list it hands to the
    sort, cluster [k] holds the tasks whose observation is nearest to
    centroid [k], in the order of the workload, when the training
    succeeded, and no task when it did not; a task whose nearest
    centroid has an index outside [0, numberOfClusters) is in no
    cluster. *)
Theorem ClassifyTasks_partition (tc : list Def.Task) (numberOfClusters : Z) :
  exists sized : list TaskCluster,
    ClassifyTasks taskObservation SliceStable Centroids Train Nearest tc numberOfClusters
    = Go.Ok (SliceStable (fun a b => SizeScore a <=? SizeScore b) sized)
    /\ length sized = Z.to_nat numberOfClusters
    /\ forall k : nat,
         (k < Z.to_nat numberOfClusters)%nat ->
         exists cluster : TaskCluster,
           sized !! k = Some cluster
           /\ ClusterIndex cluster = Z.of_nat k
           /\ Tasks cluster
              = let '(trained, centroids) :=
                  Train (getObservations taskObservation tc) numberOfClusters 100 in
                if trained
                then filter (fun t => Nearest (taskObservation t) centroids = Z.of_nat k) tc
                else [].
Proof.
  unfold ClassifyTasks. eexists. split; [apply labelAndOrder_render|].
  split; [unfold render; now rewrite length_fmap, length_seq|].
  intros k Hk. eexists. split; [now apply render_lookup|]. split; [reflexivity|]. simpl.
  unfold clusterAt, classify.
  destruct (Train (getObservations taskObservation tc) numberOfClusters 100)
    as [trained centroids].
  destruct trained; [|reflexivity].
  rewrite assign_all. reflexivity.
Qed.

End ClassifierProperties.

Lemma labelAndOrder_ranks_distinct_sizes_witness :
  exists sized : list TaskClassifier.TaskCluster,
    TaskClassifier.scored ClassifierScenario.wattsObserved
      ClassifierScenario.lightAndHeavy 2 = Go.Ok sized
    /\ forall k : nat,
         (k < Z.to_nat 2)%nat ->
         exists c : TaskClassifier.TaskCluster,
           sized !! k = Some c
           /\ TaskClassifier.ClusterIndex c = Z.of_nat k
           /\ TaskClassifier.SizeScore c
              = TaskClassifier.count
                  (TaskClassifier.bigger ClassifierScenario.wattsObserved
                     ClassifierScenario.lightAndHeavy k) 0 (Z.to_nat 2).
Proof.
  apply (labelAndOrder_ranks_distinct_sizes ClassifierScenario.wattsObserved
           ClassifierScenario.lightAndHeavy 2).
  intros i j Hi Hj Hne.
  destruct i as [|[|i]], j as [|[|j]]; simpl in Hi, Hj; try lia; reflexivity.
Defined.

(** ** How the schedulers can panic *)

Section BinPackPanics.

Import BinPack BinPackStatus.

Variable wattsOf : Mesos.Offer -> Def.Task -> float64.
Variable offer : Mesos.Offer.

Lemma place_fails (i : nat) (task : Def.Task) (n : Z) (l : Loop) (f : Go.failure) :
  (Shutdown (sched l) = true -> tasks (sched l) = []) ->
  place wattsOf offer i task n l = Go.Fail f ->
  f = Go.SliceBounds \/ f = Go.NilDeref.
Proof.
  intros HP. unfold place, newTask, deref.
  destruct (insts (sched l) !! Def.Instances task); simpl; [|intros [= <-]; now right].
  destruct (n - 1 <=? 0); [|discriminate].
  unfold removeAt. simpl.
  destruct (Nat.ltb_spec (length (tasks (sched l))) (i + 1)) as [|Hi]; simpl;
    [intros [= <-]; now left|].
  match goal with
  | |- (if ?c then _ else _) = _ -> _ => destruct c; [|discriminate]
  end.
  unfold closeShutdown. simpl. destruct (Shutdown (sched l)); [|discriminate].
  rewrite (HP eq_refl) in Hi. simpl in Hi. lia.
Qed.

Lemma instancesLoop_fails (fuel i : nat) (task : Def.Task) :
  forall (l : Loop) (f : Go.failure),
    (Shutdown (sched l) = true -> tasks (sched l) = []) ->
    instancesLoop wattsOf fuel offer i task l = Go.Fail f ->
    f = Go.SliceBounds \/ f = Go.NilDeref.
Proof.
  induction fuel as [|fuel IH]; intros l f HP; simpl; [discriminate|].
  unfold deref.
  destruct (insts (sched l) !! Def.Instances task) as [n|]; simpl;
    [|intros [= <-]; now right].
  destruct (n >? 0); [|discriminate].
  destruct (fits wattsOf offer task l); [|discriminate].
  destruct (place wattsOf offer i task n l) as [l1|f1] eqn:Hplace; simpl.
  - apply IH. now apply (place_shutdownIsEmpty wattsOf offer i task n l).
  - intros [= <-]. now apply (place_fails i task n l).
Qed.

Lemma rangeTasks_fails (k : nat) :
  forall (i : nat) (l : Loop) (f : Go.failure),
    (Shutdown (sched l) = true -> tasks (sched l) = []) ->
    (i + k <= length (tasks (sched l) ++ stale l))%nat ->
    rangeTasks wattsOf k offer i l = Go.Fail f ->
    f = Go.SliceBounds \/ f = Go.NilDeref.
Proof.
  induction k as [|k IH]; intros i l f HP Hk; simpl; [discriminate|].
  destruct (visit wattsOf offer i l) as [l1|f1] eqn:Hvisit; simpl.
  - apply IH.
    + apply (visit_preserves wattsOf offer
               (fun l => Shutdown (sched l) = true -> tasks (sched l) = []))
        with (3 := Hvisit); [|exact HP].
      intros j task n l0 l2 H0 _. now apply place_shutdownIsEmpty.
    + assert (Hsame : length (tasks (sched l1) ++ stale l1)
                      = length (tasks (sched l) ++ stale l)); [|lia].
      apply (visit_preserves wattsOf offer
               (fun l' => length (tasks (sched l') ++ stale l')
                          = length (tasks (sched l) ++ stale l)))
        with (3 := Hvisit); [|reflexivity].
      intros j task n l0 l2 H0 _ Hplace. rewrite <- H0.
      now apply place_slots with wattsOf offer j task n.
  - intros [= <-]. revert Hvisit. unfold visit.
    destruct (lookup_lt_is_Some_2 (tasks (sched l) ++ stale l) i) as [task ->]; [lia|].
    destruct (negb _ && _); [discriminate|].
    unfold deref. destruct (insts (sched l) !! Def.Instances task); simpl;
      [|intros [= <-]; now right].
    now apply instancesLoop_fails.
Qed.

Lemma consumeOffer_fails (s : Scheduler) (f : Go.failure) :
  consumeOffer wattsOf s offer = Go.Fail f ->
  f = Go.SliceBounds \/ f = Go.NilDeref.
Proof.
  unfold consumeOffer. destruct (Shutdown s) eqn:Hsh; [discriminate|].
  destruct (offerLoop wattsOf s offer) as [l|f1] eqn:Hloop; simpl.
  - destruct (taken l); discriminate.
  - intros [= <-]. unfold offerLoop in Hloop.
    apply (rangeTasks_fails _ _ _ _) with (3 := Hloop).
    + simpl. rewrite Hsh. discriminate.
    + simpl. rewrite app_nil_r. lia.
Qed.

End BinPackPanics.

(** X27: the bin-packing schedulers never index their queue out of
    range and never close [Shutdown] twice; a batch of offers can only
    end in a panic on the slice expression that removes a task (the
    queue is ranged over while tasks are removed from it) or on a task
    without an instance counter. *)
Theorem binpack_fails_on_slice_or_nil (wattsOf : Mesos.Offer -> Def.Task -> float64)
    (offers : list Mesos.Offer) (s : BinPack.Scheduler) (f : Go.failure) :
  BinPack.ResourceOffers wattsOf s offers = Go.Fail f ->
  f = Go.SliceBounds \/ f = Go.NilDeref.
Proof.
  revert s. induction offers as [|offer rest IH]; intros s; simpl; [discriminate|].
  destruct (BinPack.consumeOffer wattsOf s offer) as [[s1 call]|f1] eqn:Hone; simpl.
  - destruct (BinPack.ResourceOffers wattsOf s1 rest) as [[s2 calls]|f2] eqn:Hrest;
      simpl; [discriminate|].
    intros [= <-]. exact (IH s1 Hrest).
  - intros [= <-]. exact (consumeOffer_fails wattsOf offer s f1 Hone).
Qed.

Lemma binpack_fails_on_slice_or_nil_witness :
  GreedyScenario.failureOf
    (BinPackSortedWatts.ResourceOffers Scenario.twoTasks [Scenario.roomForFive])
  = Go.SliceBounds
  \/ GreedyScenario.failureOf
       (BinPackSortedWatts.ResourceOffers Scenario.twoTasks [Scenario.roomForFive])
     = Go.NilDeref.
Proof.
  apply (binpack_fails_on_slice_or_nil BinPack.taskWatts [Scenario.roomForFive]
           Scenario.twoTasks).
  vm_compute. reflexivity.
Defined.

Section RankedPanics.

Import Ranked.

Variable Capper : Type.
Variable FCFSDeterminedCap :
  Capper -> gmap string float64 -> Def.Task -> Capper * (string + float64).
Variable sortByWatts : list Def.Task -> list Def.Task.

Lemma schedule_fails (s : Scheduler Capper) (offer : Mesos.Offer) (i : nat)
    (task : Def.Task) (f : Go.failure) :
  tasks Capper s !! i = Some task ->
  Shutdown Capper s = false ->
  schedule Capper FCFSDeterminedCap s offer i task = Go.Fail f ->
  f = Go.NilDeref.
Proof.
  intros Hslot Hsh. unfold schedule.
  set (s1 := determineCap Capper FCFSDeterminedCap (beginCapping Capper s) task).
  assert (H1 : tasks Capper s1 = tasks Capper s /\ insts Capper s1 = insts Capper s
               /\ isCapping Capper s1 = true
               /\ Shutdown Capper s1 = Shutdown Capper s).
  { unfold s1, determineCap, beginCapping.
    destruct (isCapping Capper s) eqn:Hcap;
      destruct (FCFSDeterminedCap _ _ _) as [c [e|tempCap]]; simpl;
      repeat split; auto. }
  destruct H1 as (Hts & Hcells & Hcap & Hsh1). clearbody s1.
  unfold newTask, deref.
  destruct (insts Capper s1 !! Def.Instances task) as [n|] eqn:Hn; simpl;
    [|now intros [= <-]].
  rewrite Hn. simpl. rewrite Hts.
  destruct (n - 1 <=? 0); [|discriminate].
  destruct (last (tasks Capper s)) as [t|] eqn:Hlast.
  2:{ apply last_None in Hlast. rewrite Hlast in Hslot. discriminate. }
  match goal with
  | |- (if ?c then _ else _) = _ -> _ => destruct c; [|discriminate]
  end.
  unfold closeShutdown, startRecapping, stopCapping. simpl. rewrite Hcap. simpl.
  rewrite Hsh1, Hsh. discriminate.
Qed.

Lemma ranked_consumeOffer_fails (s : Scheduler Capper) (offer : Mesos.Offer)
    (f : Go.failure) :
  consumeOffer Capper FCFSDeterminedCap s offer = Go.Fail f -> f = Go.NilDeref.
Proof.
  unfold consumeOffer. destruct (Shutdown Capper s) eqn:Hsh; [discriminate|].
  assert (Hscan : forall rest i,
             drop i (tasks Capper s) = rest ->
             scan Capper FCFSDeterminedCap s offer i rest = Go.Fail f ->
             f = Go.NilDeref).
  { induction rest as [|task rest IH]; intros i Hdrop; simpl; [discriminate|].
    destruct (drop_cons_lookup _ _ _ _ Hdrop) as [Hslot Hnext].
    destruct (String.prefix (Def.Host task) (Mesos.Hostname offer)); simpl;
      [|now apply IH].
    destruct (takeOffer offer task); [|now apply IH].
    destruct (schedule Capper FCFSDeterminedCap s offer i task) as [[s1 call]|f1]
      eqn:Hs; simpl; [discriminate|].
    intros [= <-]. exact (schedule_fails s offer i task f1 Hslot Hsh Hs). }
  destruct (scan Capper FCFSDeterminedCap s offer 0 (tasks Capper s))
    as [[s1 found]|f1] eqn:Hs; simpl.
  - destruct found; discriminate.
  - intros [= <-]. exact (Hscan _ 0%nat eq_refl Hs).
Qed.


End RankedPanics.


Section MaxGreedyMinsAccounts.

Import MaxGreedyMins MaxGreedyMinsView.

Variable newTask : Mesos.Offer -> Def.Task -> Z -> Mesos.TaskInfo.
Variable offer : Mesos.Offer.
Variable b : baseScheduler.

Lemma CheckFit_accounts (i : nat) (task : Def.Task) (w : float64) (l l1 : Loop)
    (fit : bool) :
  accounts b l ->
  (i < length (tasks (base l)))%nat ->
  CheckFit newTask i task w offer l = Go.Ok (fit, l1) ->
  accounts b l1
  /\ (fit = false -> l1 = l)
  /\ (fit = true ->
      exists n, insts (base l) !! Def.Instances task = Some n
                /\ insts (base l1) = <[Def.Instances task := n - 1]> (insts (base l))
                /\ (n - 1 <= 0 \/ tasks (base l1) = tasks (base l))).
Proof.
  intros (HK & Htaken & Htotal & Hsub) Hi Hfit.
  pose proof (CheckFit_safe newTask offer i task w l HK Hi) as Hsafe.
  rewrite Hfit in Hsafe. simpl in Hsafe. destruct Hsafe as (HK1 & Hno & Hyes).
  destruct fit.
  - destruct (Hyes eq_refl) as (_ & Ht & _ & n & Hn & Hlaunch & Hcells & Hqueue).
    split; [|split; [discriminate|]].
    + unfold accounts. rewrite Ht, Hlaunch, Hcells, length_app. simpl.
      split; [exact HK1|]. split; [now destruct (launch l)|].
      split; [rewrite (total_decrement _ _ _ Hn); lia|].
      destruct Hqueue as [(_ & ->)|(_ & ->)]; [exact Hsub|].
      etransitivity; [apply removed_sublist|exact Hsub].
    + intros _. exists n. split; [exact Hn|]. split; [exact Hcells|].
      destruct Hqueue as [(_ & ->)|(Hle & _)]; auto.
  - destruct (Hno eq_refl) as [-> _].
    split; [repeat split; assumption|]. split; [reflexivity|discriminate].
Qed.

Lemma heaviest_accounts (k : nat) :
  forall l l' : Loop,
    accounts b l ->
    (k <= length (tasks (base l)))%nat ->
    heaviest newTask k offer l = Go.Ok l' -> accounts b l'.
Proof.
  induction k as [|k IH]; intros l l' HA Hk; simpl; [now intros [= <-]|].
  destruct (tasks (base l) !! k) as [task|]; [|discriminate].
  destruct (wattsOrFatal (base l) task offer) as [w|]; simpl; [|discriminate].
  destruct (OfferUtils.HostMismatch _ _); [apply IH; [exact HA|lia]|].
  destruct (CheckFit newTask k task w offer l) as [[fit l1]|] eqn:Hfit; simpl;
    [|discriminate].
  destruct (CheckFit_accounts k task w l l1 fit HA ltac:(lia) Hfit) as (HA1 & Hno & _).
  destruct fit; [now intros [= <-]|].
  rewrite (Hno eq_refl). apply IH; [exact HA|lia].
Qed.

Lemma instancesLoop_accounts (fuel i : nat) (task : Def.Task) (w : float64) :
  forall l l' : Loop,
    accounts b l ->
    ((i < length (tasks (base l)))%nat
     \/ exists n, insts (base l) !! Def.Instances task = Some n /\ n <= 0) ->
    instancesLoop newTask fuel i task w offer l = Go.Ok l' -> accounts b l'.
Proof.
  induction fuel as [|fuel IH]; intros l l' HA Hslot; simpl; [now intros [= <-]|].
  unfold deref.
  destruct (insts (base l) !! Def.Instances task) as [n|] eqn:Hn; simpl; [|discriminate].
  destruct (Z.gtb_spec n 0) as [Hpos|]; [|now intros [= <-]].
  destruct Hslot as [Hi|(n' & [= <-] & Hle)]; [|lia].
  destruct (CheckFit newTask i task w offer l) as [[fit l1]|] eqn:Hfit; simpl;
    [|discriminate].
  destruct (CheckFit_accounts i task w l l1 fit HA Hi Hfit) as (HA1 & _ & Hyes).
  destruct fit; [|now intros [= <-]].
  destruct (Hyes eq_refl) as (n' & Hn' & Hcells & Hqueue).
  rewrite Hn in Hn'. injection Hn' as <-.
  apply IH; [exact HA1|].
  destruct Hqueue as [Hle|Hsame]; [|left; now rewrite Hsame].
  right. exists (n - 1). rewrite Hcells, lookup_insert_eq. auto.
Qed.

Lemma lightest_accounts (k : nat) :
  forall (i : nat) (l l' : Loop),
    accounts b l -> lightest newTask k i offer l = Go.Ok l' -> accounts b l'.
Proof.
  induction k as [|k IH]; intros i l l' HA; simpl; [now intros [= <-]|].
  destruct (tasks (base l) !! i) as [task|] eqn:Hslot; [|now intros [= <-]].
  apply lookup_lt_Some in Hslot.
  destruct (wattsOrFatal (base l) task offer) as [w|]; simpl; [|discriminate].
  destruct (OfferUtils.HostMismatch _ _); [now apply IH|].
  destruct (deref (base l) (Def.Instances task)) as [n|]; simpl; [|discriminate].
  destruct (instancesLoop newTask (Z.to_nat n) i task w offer l) as [l1|] eqn:Hloop;
    simpl; [|discriminate].
  apply IH.
  apply (instancesLoop_accounts (Z.to_nat n) i task w l l1 HA); [now left|exact Hloop].
Qed.

(** X29: an offer that MaxGreedyMins declines leaves the base scheduler
    exactly as it was, and the refusal is the long one exactly when
    [Shutdown] is closed; an offer that is taken is answered by one
    launch on that offer, of at least one task; every task launched takes
    one instance off a counter, and the queue only loses tasks. *)
Theorem MaxGreedyMins_declines_or_launches (b' : baseScheduler)
    (call : Mesos.DriverCall) :
  consumeOffer newTask b offer = Go.Ok (b', call) ->
  match call with
  | Mesos.DeclineOffer id filters =>
      b' = b /\ id = Mesos.Id offer
      /\ filters = (if Shutdown b then MesosUtils.LongFilter else MesosUtils.DefaultFilter)
  | Mesos.LaunchTasks ids tis filters =>
      Shutdown b = false /\ ids = [Mesos.Id offer] /\ filters = MesosUtils.DefaultFilter
      /\ tis <> []
      /\ BinPackStatus.total (insts b') + Z.of_nat (length tis)
         = BinPackStatus.total (insts b)
      /\ tasks b' `sublist_of` tasks b
  end.
Proof.
  unfold consumeOffer. destruct (Shutdown b) eqn:Hsh; [intros [= <- <-]; auto|].
  destruct (offerLoop newTask b offer) as [l|] eqn:Hloop; simpl; [|discriminate].
  assert (HA : accounts b l).
  { unfold offerLoop in Hloop.
    destruct (heaviest newTask (length (tasks b)) offer (enter b)) as [l0|] eqn:Hheavy;
      simpl in Hloop; [|discriminate].
    assert (H0 : accounts b (enter b)).
    { unfold accounts, closedIsEmpty. simpl. rewrite Hsh.
      repeat split; auto; [discriminate|lia]. }
    apply (lightest_accounts (length (tasks (base l0))) 0%nat l0 l); [|exact Hloop].
    apply (heaviest_accounts (length (tasks b)) (enter b) l0 H0);
      [simpl; lia|exact Hheavy]. }
  destruct HA as (_ & Htaken & Htotal & Hsub).
  destruct (offerTaken l); intros [= <- <-].
  - auto 7.
  - destruct Htaken as [-> _]. auto.
Qed.

End MaxGreedyMinsAccounts.

Lemma MaxGreedyMins_declines_or_launches_witness :
  MaxGreedyMins.Shutdown Scenario.greedyQueue = false
  /\ ["offer-1"] = [Mesos.Id Scenario.roomForFive]
  /\ MesosUtils.DefaultFilter = MesosUtils.DefaultFilter
  /\ MaxGreedyMins.launch Scenario.greedyLoop <> []
  /\ BinPackStatus.total (MaxGreedyMins.insts (MaxGreedyMins.base Scenario.greedyLoop))
     + Z.of_nat (length (MaxGreedyMins.launch Scenario.greedyLoop))
     = BinPackStatus.total (MaxGreedyMins.insts Scenario.greedyQueue)
  /\ MaxGreedyMins.tasks (MaxGreedyMins.base Scenario.greedyLoop)
     `sublist_of` MaxGreedyMins.tasks Scenario.greedyQueue.
Proof.
  apply (MaxGreedyMins_declines_or_launches Scenario.namedTask Scenario.roomForFive
           Scenario.greedyQueue (MaxGreedyMins.base Scenario.greedyLoop)
           (Mesos.LaunchTasks ["offer-1"] (MaxGreedyMins.launch Scenario.greedyLoop)
              MesosUtils.DefaultFilter)).
  vm_compute. reflexivity.
Defined.

Section RankedCounts.

Import Ranked.

Variable Capper : Type.
Variable FCFSDeterminedCap :
  Capper -> gmap string float64 -> Def.Task -> Capper * (string + float64).
Variable sortByWatts : list Def.Task -> list Def.Task.

Lemma observe_all_created (offers : list Mesos.Offer) :
  forall s : Scheduler Capper,
    tasksCreated Capper (fold_left (observe Capper) offers s) = tasksCreated Capper s.
Proof.
  induction offers as [|offer rest IH]; intros s; cbn [fold_left]; [reflexivity|].
  rewrite IH. unfold observe.
  destruct (OfferUtils.OfferAgg offer) as [[cpu mem] w]. reflexivity.
Qed.

Lemma ranked_consumeOffer_counts (s s' : Scheduler Capper) (offer : Mesos.Offer)
    (calls : list Mesos.DriverCall) :
  consumeOffer Capper FCFSDeterminedCap s offer = Go.Ok (s', calls) ->
  tasksCreated Capper s'
  = tasksCreated Capper s + Z.of_nat (length (calls ≫= BinPackStatus.launched))
  /\ BinPackStatus.total (insts Capper s')
     + Z.of_nat (length (calls ≫= BinPackStatus.launched))
     = BinPackStatus.total (insts Capper s)
  /\ (length (tasks Capper s') <= length (tasks Capper s))%nat.
Proof.
  intros H. destruct (consumeOffer_effect _ _ _ _ _ _ H)
    as [[-> ->]|(_ & j & task & call & -> & Hslot & _ & Hs)].
  - simpl. repeat split; lia.
  - destruct (schedule_launches_one _ _ _ _ _ _ _ _ Hs) as (ti & -> & _).
    destruct (schedule_effect _ _ _ _ _ _ _ _ Hslot Hs)
      as (n & Hn & Hcells & Hc & _ & _ & _ & _ & Hqueue & _).
    simpl. rewrite Hc, Hcells, (total_decrement _ _ _ Hn).
    split; [lia|]. split; [lia|].
    destruct (decide (0 < n - 1)); [now rewrite Hqueue|].
    apply Permutation_length in Hqueue. rewrite Hqueue. simpl. lia.
Qed.

(** X30: over a batch of offers every task the ranked scheduler
    launches takes exactly one instance off a counter: [tasksCreated]
    grows, and the sum of the counters falls, by the number of tasks
    launched, and the queue does not grow. *)
Theorem ranked_batch_counts (s s' : Scheduler Capper) (offers : list Mesos.Offer)
    (groups : list (list Mesos.DriverCall)) :
  (forall ts, length (sortByWatts ts) = length ts) ->
  ResourceOffers Capper FCFSDeterminedCap sortByWatts s offers = Go.Ok (s', groups) ->
  tasksCreated Capper s'
  = tasksCreated Capper s
    + Z.of_nat (length (concat groups ≫= BinPackStatus.launched))
  /\ BinPackStatus.total (insts Capper s')
     + Z.of_nat (length (concat groups ≫= BinPackStatus.launched))
     = BinPackStatus.total (insts Capper s)
  /\ (length (tasks Capper s') <= length (tasks Capper s))%nat.
Proof.
  intros Hsort. unfold ResourceOffers.
  destruct (observe_all_queue Capper offers s) as (Hts & Hcells & _).
  pose proof (observe_all_created offers s) as Hcreated.
  set (s1 := fold_left (observe Capper) offers s) in *.
  assert (Hstart : forall s2 : Scheduler Capper,
             s2 = (if (0 <? length (tasks Capper s1))%nat
                   then withTasks Capper s1 (sortByWatts (tasks Capper s1))
                          (insts Capper s1)
                   else s1) ->
             tasksCreated Capper s2 = tasksCreated Capper s
             /\ insts Capper s2 = insts Capper s
             /\ length (tasks Capper s2) = length (tasks Capper s)).
  { intros s2 ->. destruct (0 <? length (tasks Capper s1))%nat; simpl;
      rewrite ?Hsort; repeat split; congruence. }
  destruct (Hstart _ eq_refl) as (<- & <- & <-).
  generalize (if (0 <? length (tasks Capper s1))%nat
              then withTasks Capper s1 (sortByWatts (tasks Capper s1)) (insts Capper s1)
              else s1).
  clear. revert s' groups.
  induction offers as [|offer rest IH]; intros s' groups s0; simpl.
  - intros [= <- <-]. simpl. repeat split; lia.
  - destruct (consumeOffer Capper FCFSDeterminedCap s0 offer) as [[s1 calls]|] eqn:Hone;
      simpl; [|discriminate].
    destruct (consumeAll Capper FCFSDeterminedCap s1 rest) as [[s2 groups2]|] eqn:Hrest;
      simpl; [|discriminate].
    intros [= <- <-].
    destruct (ranked_consumeOffer_counts _ _ _ _ Hone) as (Hc & Ht & Hl).
    destruct (IH _ _ _ Hrest) as (Hc' & Ht' & Hl').
    cbn [concat]. rewrite bind_app, length_app. repeat split; lia.
Qed.

End RankedCounts.

Lemma ranked_batch_counts_witness :
  Ranked.tasksCreated unit RankedScenario.afterRun
  = Ranked.tasksCreated unit Scenario.rankedTen
    + Z.of_nat (length (concat (Scenario.outputOf [] Scenario.rankedRun)
                          ≫= BinPackStatus.launched))
  /\ BinPackStatus.total (Ranked.insts unit RankedScenario.afterRun)
     + Z.of_nat (length (concat (Scenario.outputOf [] Scenario.rankedRun)
                           ≫= BinPackStatus.launched))
     = BinPackStatus.total (Ranked.insts unit Scenario.rankedTen)
  /\ (length (Ranked.tasks unit RankedScenario.afterRun)
      <= length (Ranked.tasks unit Scenario.rankedTen))%nat.
Proof.
  apply (ranked_batch_counts unit Scenario.fixedCap Scenario.asQueued
           Scenario.rankedTen RankedScenario.afterRun [Scenario.roomForFive]
           (Scenario.outputOf [] Scenario.rankedRun)).
  - reflexivity.
  - vm_compute. reflexivity.
Defined.
